(** * Commission calculator and invoice tracker: a shallow embedding

    JS numbers are modelled as exact rationals [Q]: the amounts are whole
    currency units and commissions are [amount * (percentage / 100)].
    Equalities between computed amounts are stated with [==] ([Qeq]). *)

From Stdlib Require Import QArith Qround Qminmax List Bool String Ascii ZArith Lia.
From Stdlib Require Import Sorting.Sorted Permutation Lqa.
Import ListNotations.
Open Scope Q_scope.
Open Scope string_scope.

(** ** Shared helpers for JS numbers *)

(** [Math.max(0, x)] *)
Definition js_max0 (x : Q) : Q := if Qle_bool x 0 then 0 else x.

(** [xs.reduce((sum, x) => sum + x, 0)] *)
Definition js_sum (xs : list Q) : Q := fold_left Qplus xs 0.

(** [x > 0] *)
Definition js_pos (x : Q) : bool := negb (Qle_bool x 0).

(** ** Commission Calculator (src/pages/Index.tsx, [calculations]) *)
Module Calc.

(** A configured category ("product") as returned by [useProducts]. *)
Record Product := mkProduct {
  prod_id : string;
  prod_name : string;
  prod_percentage : Q;
  prod_color : string
}.

(** [productAmounts : Record<string, number>] as an insertion-ordered
    association list; [Object.values] is [map snd]. *)
Definition Amounts := list (string * Q).

Fixpoint amounts_get (m : Amounts) (k : string) : option Q :=
  match m with
  | [] => None
  | (k', v) :: m' => if String.eqb k k' then Some v else amounts_get m' k
  end.

(** [productAmounts[id] || 0] *)
Definition amount_of (m : Amounts) (k : string) : Q :=
  match amounts_get m k with
  | Some v => if Qeq_bool v 0 then 0 else v
  | None => 0
  end.

Record BreakdownItem := mkItem {
  bi_name : string;
  bi_label : string;
  bi_amount : Q;
  bi_percentage : Q;
  bi_commission : Q;
  bi_color : string
}.

Record Calculations := mkCalc {
  breakdown : list BreakdownItem;
  restAmount : Q;
  restCommission : Q;
  totalCommission : Q
}.

Definition breakdown_item (productAmounts : Amounts) (product : Product)
  : BreakdownItem :=
  mkItem (prod_name product) (prod_name product)
    (amount_of productAmounts (prod_id product))
    (prod_percentage product)
    (amount_of productAmounts (prod_id product) * (prod_percentage product / 100))
    (prod_color product).

(** The memoised [calculations] of [Index]. *)
Definition calculations (products : list Product) (productAmounts : Amounts)
    (totalInvoice restPercentage : Q) : Calculations :=
  let breakdown := map (breakdown_item productAmounts) products in
  let specialProductsTotal := js_sum (map snd productAmounts) in
  let restAmount := js_max0 (totalInvoice - specialProductsTotal) in
  let restCommission := restAmount * (restPercentage / 100) in
  let totalCommission :=
    fold_left (fun sum item => sum + bi_commission item) breakdown 0
    + restCommission in
  mkCalc breakdown restAmount restCommission totalCommission.

End Calc.

(** ** Local calendar dates

    A JS [Date] is read through its local-time getters
    ([getFullYear], [getMonth], [getDate], time of day in ms); two valid
    dates compare by [getTime] exactly as their fields compare
    lexicographically, which is how [isWithinInterval] is modelled. *)
Module Dates.

Record Date := mkDate { yr : Z; mon : Z; day : Z; tod : Z }.

Definition leap (y : Z) : bool :=
  (Z.modulo y 4 =? 0)%Z && (negb (Z.modulo y 100 =? 0)%Z || (Z.modulo y 400 =? 0)%Z).

(** Days in month [m] (0-based, as [getMonth]) of year [y]. *)
Definition dim (y m : Z) : Z :=
  match m with
  | 1%Z => if leap y then 29 else 28
  | 3%Z | 5%Z | 8%Z | 10%Z => 30
  | _ => 31
  end%Z.

Definition next_month (y m : Z) : Z * Z :=
  if (m =? 11)%Z then ((y + 1)%Z, 0%Z) else (y, (m + 1)%Z).
Definition prev_month (y m : Z) : Z * Z :=
  if (m =? 0)%Z then ((y - 1)%Z, 11%Z) else (y, (m - 1)%Z).

(** Day-of-month overflow of the [Date] constructor, one month per step. *)
Fixpoint norm_day (fuel : nat) (y m d : Z) : Z * Z * Z :=
  match fuel with
  | O => (y, m, d)
  | S f =>
      if (d <? 1)%Z then
        let '(y', m') := prev_month y m in norm_day f y' m' (d + dim y' m')%Z
      else if (dim y m <? d)%Z then
        let '(y', m') := next_month y m in norm_day f y' m' (d - dim y m)%Z
      else (y, m, d)
  end.

(** [new Date(year, monthIndex, day)]: local midnight, fields normalised;
    a year of 0 to 99 is read as [1900 + year] (MakeFullYear of the
    [Date] constructor). *)
Definition new_Date (y mi d : Z) : Date :=
  let y1 := if (0 <=? y)%Z && (y <=? 99)%Z then (1900 + y)%Z else y in
  let '(y2, m2, d2) :=
    norm_day (S (Z.to_nat (Z.abs d))) (y1 + mi / 12)%Z (Z.modulo mi 12) d in
  mkDate y2 m2 d2 0.

Definition date_le (a b : Date) : bool :=
  (yr a <? yr b)%Z ||
  ((yr a =? yr b)%Z &&
   ((mon a <? mon b)%Z ||
    ((mon a =? mon b)%Z &&
     ((day a <? day b)%Z || ((day a =? day b)%Z && (tod a <=? tod b)%Z))))).

(** date-fns [startOfMonth]: [setDate(1); setHours(0,0,0,0)]. *)
Definition startOfMonth (d : Date) : Date := mkDate (yr d) (mon d) 1 0.

(** date-fns [endOfMonth]: [setFullYear(y, m + 1, 0); setHours(23,59,59,999)]. *)
Definition endOfMonth (d : Date) : Date :=
  mkDate (yr d) (mon d) (dim (yr d) (mon d)) 86399999.

(** date-fns [isWithinInterval(date, { start, end })] *)
Definition isWithinInterval (d start end_ : Date) : bool :=
  date_le start d && date_le d end_.

(** A date as the getters report it. *)
Definition valid_date (d : Date) : Prop :=
  (0 <= mon d <= 11)%Z /\ (1 <= day d <= dim (yr d) (mon d))%Z /\
  (0 <= tod d <= 86399999)%Z.

(** [Number] of an ASCII decimal digit. *)
Definition digit (c : ascii) : option Z :=
  let n := nat_of_ascii c in
  if (48 <=? n)%nat && (n <=? 57)%nat then Some (Z.of_nat (n - 48)) else None.

Fixpoint digits_val (cs : list ascii) (acc : Z) : option Z :=
  match cs with
  | [] => Some acc
  | c :: cs' =>
      match digit c with
      | Some v => digits_val cs' (acc * 10 + v)%Z
      | None => None
      end
  end.

(** [/^\d{4}-\d{2}-\d{2}$/.test(s)] followed by
    [s.split('-').map(Number)]. *)
Definition date_only_parts (s : string) : option (Z * Z * Z) :=
  match list_ascii_of_string s with
  | [y1; y2; y3; y4; "-"%char; m1; m2; "-"%char; d1; d2] =>
      match digits_val [y1; y2; y3; y4] 0, digits_val [m1; m2] 0,
            digits_val [d1; d2] 0 with
      | Some y, Some m, Some d => Some (y, m, d)
      | _, _, _ => None
      end
  | _ => None
  end.

(** The first and the last instant of month [m] (1-based) of year [y] in
    the local calendar. *)
Definition month_first (y m : Z) : Date := mkDate y (m - 1) 1 0.
Definition month_last (y m : Z) : Date :=
  mkDate y (m - 1) (dim y (m - 1)) 86399999.

Definition within_month (y m : Z) (d : Date) : bool :=
  date_le (month_first y m) d && date_le d (month_last y m).


End Dates.

(** ** Invoice records ([useInvoices]) *)
Module Inv.

Record InvoiceProduct := mkInvoiceProduct {
  ip_id : string;
  product_name : string;
  amount : Q;
  percentage : Q;
  commission : Q
}.

(** [rest_percentage] is [None] when the column is null. *)
Record Invoice := mkInvoice {
  inv_id : string;
  ncf : string;
  total_amount : Q;
  rest_amount : Q;
  rest_percentage : option Q;
  rest_commission : Q;
  total_commission : Q;
  created_at : string;
  invoice_date : string;
  seller_id : option string;
  products : option (list InvoiceProduct)
}.

(** [inv.invoice_date || inv.created_at] *)
(** The line items of an invoice ([products || []]). *)
Definition line_items (inv : Invoice) : list InvoiceProduct :=
  match products inv with Some ps => ps | None => [] end.

Definition effective_date_string (inv : Invoice) : string :=
  match invoice_date inv with
  | EmptyString => created_at inv
  | s => s
  end.

End Inv.

(** ** Monthly Aggregator ([MonthlyBreakdown], src/unnamed/part_001) *)
Module Breakdown.
Import Dates Inv.

Section WithParser.

(** [new Date(s)] for a string that is not a bare [YYYY-MM-DD] date (the
    [created_at] timestamps): the engine's parser, [None] for an
    Invalid Date. *)
Variable parse_other : string -> option Date.

(** [parseInvoiceDate] *)
Definition parseInvoiceDate (s : string) : option Date :=
  match date_only_parts s with
  | Some (y, m, d) => Some (new_Date y (m - 1) d)
  | None => parse_other s
  end.

Definition in_selected (start end_ : Date) (inv : Invoice) : bool :=
  match parseInvoiceDate (effective_date_string inv) with
  | Some d => isWithinInterval d start end_
  | None => false
  end.

(** [filteredInvoices] for [selectedMonth = "year-month"] *)
Definition filteredInvoices (invoices : list Invoice) (year month : Z)
  : list Invoice :=
  let start := startOfMonth (new_Date year (month - 1) 1) in
  let end_ := endOfMonth (new_Date year (month - 1) 1) in
  filter (in_selected start end_) invoices.

End WithParser.

Record ProductEntry := mkEntry {
  pe_ncf : string;
  pe_date : string;
  pe_amount : Q
}.

Record ProductBreakdown := mkPB {
  pb_name : string;
  pb_percentage : Q;
  pb_entries : list ProductEntry;
  pb_totalAmount : Q;
  pb_totalCommission : Q
}.

(** The own properties of [const products: Record<string, ProductBreakdown>
    = {}] in creation order. *)
Definition Obj := list (string * ProductBreakdown).

(** Properties every plain object inherits from [Object.prototype]. *)
Definition proto_props : list string :=
  ["constructor"; "toString"; "toLocaleString"; "valueOf"; "hasOwnProperty";
   "isPrototypeOf"; "propertyIsEnumerable"; "__proto__"; "__defineGetter__";
   "__defineSetter__"; "__lookupGetter__"; "__lookupSetter__"].

(** What [products[key]] evaluates to. *)
Inductive Lookup := Own (pb : ProductBreakdown) | Inherited | Undefined.

Fixpoint own_get (o : Obj) (k : string) : option ProductBreakdown :=
  match o with
  | [] => None
  | (k', v) :: o' => if String.eqb k k' then Some v else own_get o' k
  end.

Definition obj_get (o : Obj) (k : string) : Lookup :=
  match own_get o k with
  | Some pb => Own pb
  | None => if existsb (String.eqb k) proto_props then Inherited else Undefined
  end.

(** Assignment to an own property: in place, or appended when new. *)
Fixpoint obj_set (o : Obj) (k : string) (v : ProductBreakdown) : Obj :=
  match o with
  | [] => [(k, v)]
  | (k', v') :: o' =>
      if String.eqb k k' then (k', v) :: o' else (k', v') :: obj_set o' k v
  end.

(** The body of the inner [forEach]; [None] is the [TypeError] raised by
    [products[key].entries.push] when [products[key]] is inherited. *)
Definition add_product (inv : Invoice) (acc : option Obj) (product : InvoiceProduct)
  : option Obj :=
  match acc with
  | None => None
  | Some o =>
      if Qle_bool (amount product) 0 then Some o else
      let key := product_name product in
      let entry := mkEntry (ncf inv) (effective_date_string inv) (amount product) in
      let push pb :=
        mkPB (pb_name pb) (pb_percentage pb) (pb_entries pb ++ [entry])
             (pb_totalAmount pb + amount product)
             (pb_totalCommission pb + commission product) in
      match obj_get o key with
      | Own pb => Some (obj_set o key (push pb))
      | Inherited => None
      | Undefined =>
          Some (obj_set o key
                  (push (mkPB (product_name product) (percentage product) [] 0 0)))
      end
  end.

Definition add_invoice (acc : option Obj) (inv : Invoice) : option Obj :=
  match products inv with
  | Some ps => fold_left (add_product inv) ps acc
  | None => acc
  end.

(** Array-index keys ("0", "17", below 2^32 - 1) are enumerated first, in
    ascending numeric order; the other string keys follow in creation
    order. *)
Definition array_index (k : string) : option Z :=
  match list_ascii_of_string k with
  | [] => None
  | ["0"%char] => Some 0%Z
  | "0"%char :: _ => None
  | cs =>
      match digits_val cs 0 with
      | Some v => if (v <? 4294967295)%Z then Some v else None
      | None => None
      end
  end.

Fixpoint insert_index (kv : Z * ProductBreakdown) (l : list (Z * ProductBreakdown))
  : list (Z * ProductBreakdown) :=
  match l with
  | [] => [kv]
  | x :: l' => if (fst kv <? fst x)%Z then kv :: x :: l' else x :: insert_index kv l'
  end.

Definition index_props (o : Obj) : list (Z * ProductBreakdown) :=
  fold_right insert_index []
    (flat_map (fun '(k, v) => match array_index k with
                              | Some i => [(i, v)] | None => [] end) o).

(** [Object.values(products)] *)
Definition obj_values (o : Obj) : list ProductBreakdown :=
  map snd (index_props o) ++
  map snd (filter (fun '(k, _) => match array_index k with
                                  | Some _ => false | None => true end) o).

(** [Array.prototype.sort] is stable; with the comparator
    [(a, b) => b.totalAmount - a.totalAmount] it orders by descending
    [totalAmount], equal amounts keeping their relative order. *)
Fixpoint insert_desc (x : ProductBreakdown) (l : list ProductBreakdown)
  : list ProductBreakdown :=
  match l with
  | [] => [x]
  | y :: l' =>
      if Qle_bool (pb_totalAmount y) (pb_totalAmount x) then x :: y :: l'
      else y :: insert_desc x l'
  end.

Definition sort_desc (l : list ProductBreakdown) : list ProductBreakdown :=
  fold_right insert_desc [] l.

(** [productsBreakdown]; [None] when the [forEach] throws. *)
Definition productsBreakdown (filtered : list Invoice)
  : option (list ProductBreakdown) :=
  match fold_left add_invoice filtered (Some []) with
  | Some o => Some (sort_desc (obj_values o))
  | None => None
  end.

Record RestBreakdown := mkRest {
  rb_entries : list ProductEntry;
  rb_totalAmount : Q;
  rb_totalCommission : Q
}.

Definition add_rest (acc : RestBreakdown) (inv : Invoice) : RestBreakdown :=
  if js_pos (rest_amount inv) then
    mkRest (rb_entries acc ++
              [mkEntry (ncf inv) (effective_date_string inv) (rest_amount inv)])
           (rb_totalAmount acc + rest_amount inv)
           (rb_totalCommission acc + rest_commission inv)
  else acc.

(** [restBreakdown] *)
Definition restBreakdown (filtered : list Invoice) : RestBreakdown :=
  fold_left add_rest filtered (mkRest [] 0 0).

(** No own property of [o] shadows a property of [Object.prototype]. *)
Definition no_proto_keys (o : Obj) : Prop :=
  forall k v, In (k, v) o -> existsb (String.eqb k) proto_props = false.

(** [grandTotalCommission] *)
Definition grandTotalCommission (filtered : list Invoice) : option Q :=
  match productsBreakdown filtered with
  | Some groups =>
      Some (fold_left (fun sum p => sum + pb_totalCommission p) groups 0
            + rb_totalCommission (restBreakdown filtered))
  | None => None
  end.

End Breakdown.

(** ** Statistics Engine ([Statistics], src/components/Statistics.tsx) *)
Module Stats.
Import Dates Inv Breakdown.

(** date-fns [subMonths(date, 1)]: same day in the previous month,
    clamped to that month's last day. *)
Definition subMonth1 (d : Date) : Date :=
  let '(y', m') := prev_month (yr d) (mon d) in
  mkDate y' m' (Z.min (day d) (dim y' m')) (tod d).

Record MonthStats := mkStats {
  totalSales : Q;
  totalCommission : Q;
  invoiceCount : nat
}.

(** The three change badges as rendered: [None] when the card shows no
    badge. *)
Record ChangeReport := mkReport {
  salesBadge : option Q;
  commissionBadge : option Q;
  invoiceCountBadge : option Q
}.

Section WithParser.
Variable parse_other : string -> option Date.

Definition month_invoices (invoices : list Invoice) (d : Date) : list Invoice :=
  filter (in_selected parse_other (startOfMonth d) (endOfMonth d)) invoices.

Definition stats_of (monthInvoices : list Invoice) : MonthStats :=
  mkStats (fold_left (fun sum inv => sum + total_amount inv) monthInvoices 0)
          (fold_left (fun sum inv => sum + total_commission inv) monthInvoices 0)
          (List.length monthInvoices).

(** [selectedMonthStats] (its sums and count) *)
Definition selectedMonthStats (invoices : list Invoice) (selectedDate : Date)
  : MonthStats := stats_of (month_invoices invoices selectedDate).

(** [previousMonthStats] *)
Definition previousMonthStats (invoices : list Invoice) (selectedDate : Date)
  : MonthStats := stats_of (month_invoices invoices (subMonth1 selectedDate)).

Definition pct_change (cur prev : Q) : Q :=
  if js_pos prev then (cur - prev) / prev * 100 else 0.

Definition salesChange (invoices : list Invoice) (d : Date) : Q :=
  pct_change (totalSales (selectedMonthStats invoices d))
             (totalSales (previousMonthStats invoices d)).

Definition commissionChange (invoices : list Invoice) (d : Date) : Q :=
  pct_change (totalCommission (selectedMonthStats invoices d))
             (totalCommission (previousMonthStats invoices d)).

Definition invoiceCountChange (invoices : list Invoice) (d : Date) : Q :=
  pct_change (inject_Z (Z.of_nat (invoiceCount (selectedMonthStats invoices d))))
             (inject_Z (Z.of_nat (invoiceCount (previousMonthStats invoices d)))).

(** The badges of the three summary cards: each is rendered only under
    [previousMonthStats.<metric> > 0]. *)
Definition change_report (invoices : list Invoice) (d : Date) : ChangeReport :=
  let prev := previousMonthStats invoices d in
  mkReport
    (if js_pos (totalSales prev) then Some (salesChange invoices d) else None)
    (if js_pos (totalCommission prev) then Some (commissionChange invoices d) else None)
    (if (0 <? invoiceCount prev)%nat then Some (invoiceCountChange invoices d) else None).

End WithParser.

End Stats.

(** ** Invoice Store ([useInvoices], src/unnamed/part_002)

    The two tables, an id counter and the [now()] used for [created_at];
    each store call consumes one bit of a fault oracle ([true]: the call
    returns an error); toasts are the user-visible reports and [mem] is
    the React state [invoices]. *)
Module Store.
Import Dates Inv Breakdown.

Record InvoiceRow := mkRow {
  r_id : string;
  r_ncf : string;
  r_invoice_date : string;
  r_total_amount : Q;
  r_rest_amount : Q;
  r_rest_percentage : option Q;
  r_rest_commission : Q;
  r_total_commission : Q;
  r_seller_id : option string;
  r_created_at : string
}.

Record ProductRow := mkPRow {
  pr_id : string;
  pr_invoice_id : string;
  pr_product_name : string;
  pr_amount : Q;
  pr_percentage : Q;
  pr_commission : Q
}.

Record DB := mkDB {
  invoices_tbl : list InvoiceRow;
  products_tbl : list ProductRow;
  categories_tbl : list Calc.Product;
  next_id : nat;
  db_now : string
}.

Inductive Toast := ToastSuccess (msg : string) | ToastError (msg : string).

Record World := mkWorld {
  db : DB;
  faults : list bool;
  toasts : list Toast;
  mem : list Invoice
}.

Definition M (A : Type) := World -> A * World.
Definition ret {A} (a : A) : M A := fun w => (a, w).
Definition bind {A B} (c : M A) (k : A -> M B) : M B :=
  fun w => let '(a, w') := c w in k a w'.
Notation "x <- c ;; k" := (bind c (fun x => k))
  (at level 61, c at next level, right associativity).
Notation "c ;;; k" := (bind c (fun _ => k)) (at level 61, right associativity).

Definition get_db : M DB := fun w => (db w, w).
Definition put_db (d : DB) : M unit :=
  fun w => (tt, mkWorld d (faults w) (toasts w) (mem w)).
Definition toast (t : Toast) : M unit :=
  fun w => (tt, mkWorld (db w) (faults w) (toasts w ++ [t]) (mem w)).
Definition get_mem : M (list Invoice) := fun w => (mem w, w).
Definition set_mem (l : list Invoice) : M unit :=
  fun w => (tt, mkWorld (db w) (faults w) (toasts w) l).

(** Whether the next store call fails. *)
Definition call_fails : M bool :=
  fun w => match faults w with
           | [] => (false, w)
           | b :: fs => (b, mkWorld (db w) fs (toasts w) (mem w))
           end.

Fixpoint digits_of (fuel : nat) (n : Z) (acc : list ascii) : list ascii :=
  match fuel with
  | O => acc
  | S f =>
      let acc' := ascii_of_nat (48 + Z.to_nat (Z.modulo n 10)) :: acc in
      if (n <? 10)%Z then acc' else digits_of f (n / 10)%Z acc'
  end.

(** [String(n)] for a non-negative integer. *)
Definition z_to_string (n : Z) : string := string_of_list_ascii (digits_of 64 n []).

Fixpoint zeros (k : nat) : string :=
  match k with O => EmptyString | S k' => String "0"%char (zeros k') end.

(** [s.padStart(k, '0')] *)
Definition padStart (k : nat) (s : string) : string :=
  zeros (k - String.length s) ++ s.

(** date-fns [format(date, 'yyyy-MM-dd')]; the [yyyy] token prints the
    era year, [1 - year] for a year of 0 or less. *)
Definition format_ymd (d : Date) : string :=
  let year := if (0 <? yr d)%Z then yr d else (1 - yr d)%Z in
  padStart 4 (z_to_string year) ++ "-" ++ padStart 2 (z_to_string (mon d + 1))
  ++ "-" ++ padStart 2 (z_to_string (day d)).

Definition with_tables (d : DB) (it : list InvoiceRow) (pt : list ProductRow) : DB :=
  mkDB it pt (categories_tbl d) (next_id d) (db_now d).

Definition fresh_id : M string :=
  fun w => let d := db w in
    ("id-" ++ z_to_string (Z.of_nat (next_id d)),
     mkWorld (mkDB (invoices_tbl d) (products_tbl d) (categories_tbl d)
                   (S (next_id d)) (db_now d))
             (faults w) (toasts w) (mem w)).

(** The scalar columns written by [insert] and [update]. *)
Record InvoiceFields := mkFields {
  f_ncf : string;
  f_invoice_date : string;
  f_total_amount : Q;
  f_rest_amount : Q;
  f_rest_percentage : Q;
  f_rest_commission : Q;
  f_total_commission : Q
}.

(** An element of the [products] argument of [saveInvoice]/[updateInvoice]. *)
Record ProductInput := mkInput {
  in_name : string;
  in_amount : Q;
  in_percentage : Q;
  in_commission : Q
}.

Record ProductInsert := mkInsert {
  pi_invoice_id : string;
  pi_product_name : string;
  pi_amount : Q;
  pi_percentage : Q;
  pi_commission : Q
}.

(** [.from('invoices').select('id').eq('ncf', ncf)[.neq('id', id)].maybeSingle()]:
    [data] is [null] on an error, on no row and on several rows. *)
Definition q_select_ncf (ncf : string) (exclude : option string) : M (option string) :=
  f <- call_fails ;;
  if f then ret None else
  d <- get_db ;;
  let matches := filter (fun r => String.eqb (r_ncf r) ncf &&
                         match exclude with
                         | Some id => negb (String.eqb (r_id r) id)
                         | None => true
                         end) (invoices_tbl d) in
  ret (match matches with [r] => Some (r_id r) | _ => None end).

(** [.from('invoices').insert(...).select().single()]; the [UNIQUE]
    constraint on [ncf] rejects a second row with the same NCF. *)
Definition q_insert_invoice (fs : InvoiceFields) (seller : option string)
  : M (option InvoiceRow) :=
  f <- call_fails ;;
  if f then ret None else
  d <- get_db ;;
  if existsb (fun r => String.eqb (r_ncf r) (f_ncf fs)) (invoices_tbl d)
  then ret None else
  id <- fresh_id ;;
  d' <- get_db ;;
  let row := mkRow id (f_ncf fs) (f_invoice_date fs) (f_total_amount fs)
               (f_rest_amount fs) (Some (f_rest_percentage fs))
               (f_rest_commission fs) (f_total_commission fs) seller (db_now d') in
  put_db (with_tables d' (row :: invoices_tbl d') (products_tbl d')) ;;;
  ret (Some row).

Fixpoint insert_rows (ps : list ProductInsert) : M (list ProductRow) :=
  match ps with
  | [] => ret []
  | p :: ps' =>
      id <- fresh_id ;;
      rest <- insert_rows ps' ;;
      ret (mkPRow id (pi_invoice_id p) (pi_product_name p) (pi_amount p)
                  (pi_percentage p) (pi_commission p) :: rest)
  end.

(** [.from('invoice_products').insert(rows)]: one statement, all rows or
    none; [true] is an error. *)
Definition q_insert_products (ps : list ProductInsert) : M bool :=
  f <- call_fails ;;
  if f then ret true else
  rows <- insert_rows ps ;;
  d <- get_db ;;
  put_db (with_tables d (invoices_tbl d) (products_tbl d ++ rows)) ;;;
  ret false.

(** [.from('invoices').delete().eq('id', id)]; line items cascade. *)
Definition q_delete_invoice (id : string) : M bool :=
  f <- call_fails ;;
  if f then ret true else
  d <- get_db ;;
  put_db (with_tables d
            (filter (fun r => negb (String.eqb (r_id r) id)) (invoices_tbl d))
            (filter (fun p => negb (String.eqb (pr_invoice_id p) id)) (products_tbl d))) ;;;
  ret false.

(** [.from('invoices').update(fields).eq('id', id).select().single()]:
    an error when the call fails, when another row holds the NCF, or when
    no row has this id. *)
Definition q_update_invoice (id : string) (fs : InvoiceFields) : M (option InvoiceRow) :=
  f <- call_fails ;;
  if f then ret None else
  d <- get_db ;;
  if existsb (fun r => String.eqb (r_ncf r) (f_ncf fs) && negb (String.eqb (r_id r) id))
             (invoices_tbl d)
  then ret None else
  match find (fun r => String.eqb (r_id r) id) (invoices_tbl d) with
  | None => ret None
  | Some r =>
      let r' := mkRow (r_id r) (f_ncf fs) (f_invoice_date fs) (f_total_amount fs)
                  (f_rest_amount fs) (Some (f_rest_percentage fs))
                  (f_rest_commission fs) (f_total_commission fs)
                  (r_seller_id r) (r_created_at r) in
      put_db (with_tables d
                (map (fun x => if String.eqb (r_id x) id then r' else x) (invoices_tbl d))
                (products_tbl d)) ;;;
      ret (Some r')
  end.

(** [.from('invoice_products').delete().eq('invoice_id', id)] *)
Definition q_delete_products_of (id : string) : M unit :=
  f <- call_fails ;;
  if f then ret tt else
  d <- get_db ;;
  put_db (with_tables d (invoices_tbl d)
            (filter (fun p => negb (String.eqb (pr_invoice_id p) id)) (products_tbl d))).

Fixpoint insert_by_created (x : InvoiceRow) (l : list InvoiceRow) : list InvoiceRow :=
  match l with
  | [] => [x]
  | y :: l' =>
      if String.leb (r_created_at y) (r_created_at x) then x :: y :: l'
      else y :: insert_by_created x l'
  end.

(** [.from('invoices').select('*').order('created_at', { ascending: false })] *)
Definition q_select_invoices : M (option (list InvoiceRow)) :=
  f <- call_fails ;;
  if f then ret None else
  d <- get_db ;;
  ret (Some (fold_right insert_by_created [] (invoices_tbl d))).

(** [.from('invoice_products').select('*').eq('invoice_id', id)] *)
Definition q_select_products_of (id : string) : M (option (list ProductRow)) :=
  f <- call_fails ;;
  if f then ret None else
  d <- get_db ;;
  ret (Some (filter (fun p => String.eqb (pr_invoice_id p) id) (products_tbl d))).

Fixpoint mapM {A B} (f : A -> M B) (l : list A) : M (list B) :=
  match l with
  | [] => ret []
  | x :: l' => y <- f x ;; ys <- mapM f l' ;; ret (y :: ys)
  end.

Definition to_invoice_product (p : ProductRow) : InvoiceProduct :=
  mkInvoiceProduct (pr_id p) (pr_product_name p) (pr_amount p) (pr_percentage p)
    (pr_commission p).

Definition to_invoice (r : InvoiceRow) (ps : list ProductRow) : Invoice :=
  mkInvoice (r_id r) (r_ncf r) (r_total_amount r) (r_rest_amount r)
    (r_rest_percentage r) (r_rest_commission r) (r_total_commission r)
    (r_created_at r) (r_invoice_date r) (r_seller_id r)
    (Some (map to_invoice_product ps)).

(** [fetchInvoices]; a failed line-item query gives [products: []]. *)
Definition fetchInvoices : M unit :=
  r <- q_select_invoices ;;
  match r with
  | None => toast (ToastError "Error al cargar facturas")
  | Some rows =>
      invs <- mapM (fun row =>
                ps <- q_select_products_of (r_id row) ;;
                ret (to_invoice row (match ps with Some l => l | None => [] end))) rows ;;
      set_mem invs
  end.

Definition product_inserts (id : string) (products : list ProductInput)
  : list ProductInsert :=
  map (fun p => mkInsert id (in_name p) (in_amount p) (in_percentage p) (in_commission p))
      (filter (fun p => js_pos (in_amount p)) products).

(** [sellerId || null] *)
Definition seller_or_null (sellerId : option string) : option string :=
  match sellerId with
  | Some EmptyString => None
  | s => s
  end.

(** [saveInvoice] *)
Definition saveInvoice (ncf invoiceDate : string)
    (totalAmount restAmount restPercentage restCommission totalCommission : Q)
    (products : list ProductInput) (sellerId : option string)
  : M (option InvoiceRow) :=
  existing <- q_select_ncf ncf None ;;
  match existing with
  | Some _ =>
      toast (ToastError "Ya existe una factura con este NCF") ;;; ret None
  | None =>
      invoice <- q_insert_invoice
                   (mkFields ncf invoiceDate totalAmount restAmount restPercentage
                             restCommission totalCommission) (seller_or_null sellerId) ;;
      match invoice with
      | None => toast (ToastError "Error al guardar factura") ;;; ret None
      | Some inv =>
          let productInserts := product_inserts (r_id inv) products in
          (match productInserts with
           | [] => ret tt
           | _ => _ <- q_insert_products productInserts ;; ret tt
           end) ;;;
          toast (ToastSuccess "Factura guardada correctamente") ;;;
          fetchInvoices ;;;
          ret (Some inv)
      end
  end.

(** [deleteInvoice] *)
Definition deleteInvoice (id : string) : M bool :=
  error <- q_delete_invoice id ;;
  if error then toast (ToastError "Error al eliminar factura") ;;; ret false
  else
    invoices <- get_mem ;;
    set_mem (filter (fun i => negb (String.eqb (inv_id i) id)) invoices) ;;;
    toast (ToastSuccess "Factura eliminada") ;;;
    ret true.

(** [updateInvoice] *)
Definition updateInvoice (id ncf invoiceDate : string)
    (totalAmount restAmount restPercentage restCommission totalCommission : Q)
    (products : list ProductInput) : M (option InvoiceRow) :=
  existing <- q_select_ncf ncf (Some id) ;;
  match existing with
  | Some _ =>
      toast (ToastError "Ya existe una factura con este NCF") ;;; ret None
  | None =>
      invoice <- q_update_invoice id
                   (mkFields ncf invoiceDate totalAmount restAmount restPercentage
                             restCommission totalCommission) ;;
      match invoice with
      | None => toast (ToastError "Error al actualizar factura") ;;; ret None
      | Some inv =>
          q_delete_products_of id ;;;
          let productInserts := product_inserts id products in
          (match productInserts with
           | [] => ret tt
           | _ => _ <- q_insert_products productInserts ;; ret tt
           end) ;;;
          toast (ToastSuccess "Factura actualizada correctamente") ;;;
          fetchInvoices ;;;
          ret (Some inv)
      end
  end.

(** Modelled from the spec: [updateProduct] of the category hook
    [useProducts], which is not under src/. It writes the category's
    configuration record (here its percentage) and nothing else: "this
    configuration is mutable independently of historical invoices". *)
Definition updateProduct (id : string) (percentage : Q) : M bool :=
  f <- call_fails ;;
  if f then ret false else
  d <- get_db ;;
  put_db (mkDB (invoices_tbl d) (products_tbl d)
            (map (fun p => if String.eqb (Calc.prod_id p) id
                           then Calc.mkProduct (Calc.prod_id p) (Calc.prod_name p)
                                  percentage (Calc.prod_color p)
                           else p) (categories_tbl d))
            (next_id d) (db_now d)) ;;;
  ret true.

(** The documented invariant of a stored invoice:
    [rest_amount = max(0, total_amount - sum(line_item.amount))]. *)
Definition rest_invariant (d : DB) (r : InvoiceRow) : bool :=
  Qeq_bool (r_rest_amount r)
    (js_max0 (r_total_amount r -
              js_sum (map pr_amount (filter (fun p => String.eqb (pr_invoice_id p) (r_id r))
                                       (products_tbl d))))).

(** [c] leaves the invoice table as it finds it. *)
Definition keeps_invoices {A} (c : M A) : Prop :=
  forall w, invoices_tbl (db (snd (c w))) = invoices_tbl (db w).

(** [Index.handleSaveInvoice] (the store part: [saveInvoice] with the
    live [calculations]). *)
Definition handleSaveInvoice (products : list Calc.Product)
    (productAmounts : Calc.Amounts) (totalInvoice restPercentage : Q)
    (ncf invoiceDate : string) : M (option InvoiceRow) :=
  let c := Calc.calculations products productAmounts totalInvoice restPercentage in
  let productBreakdown :=
    map (fun b => mkInput (Calc.bi_name b) (Calc.bi_amount b) (Calc.bi_percentage b)
                          (Calc.bi_commission b)) (Calc.breakdown c) in
  saveInvoice ncf invoiceDate totalInvoice (Calc.restAmount c) restPercentage
    (Calc.restCommission c) (Calc.totalCommission c) productBreakdown None.

End Store.

(** ** Edit dialog ([EditInvoiceDialog], src/components/EditInvoiceDialog.tsx) *)
Module Edit.
Import Dates Inv Breakdown Store.

Record EditState := mkEdit {
  e_ncfSuffix : string;
  e_invoiceDate : option Date;
  e_totalAmount : Q;
  e_products : list ProductInput;
  e_restPercentage : Q
}.

Definition ncfPrefix : string := "B01000".

(** [useState(invoice.rest_percentage || 25)]: [0] and a missing value
    are falsy. *)
Definition restPercentage_init (inv : Invoice) : Q :=
  match rest_percentage inv with
  | Some p => if Qeq_bool p 0 then 25 else p
  | None => 25
  end.

Section WithParser.
Variable parse_other : string -> option Date.

(** The state after the dialog opens on [invoice] (the [useEffect] on
    [open]); [None] for the date is an Invalid Date. *)
Definition open_dialog (invoice : Invoice) : EditState :=
  let n := ncf invoice in
  let suffix := if (4 <=? String.length n)%nat
                then substring (String.length n - 4) 4 n else n in
  mkEdit suffix
    (parseInvoiceDate parse_other (effective_date_string invoice))
    (total_amount invoice)
    (match products invoice with
     | Some ps => map (fun p => mkInput (product_name p) (amount p) (percentage p)
                                        (commission p)) ps
     | None => []
     end)
    (restPercentage_init invoice).

(** [handleProductAmountChange(index, value)] with [numValue] the result
    of [parseInt(...) || 0]; [None] is the [TypeError] of an index out of
    range. *)
Fixpoint set_amount (ps : list ProductInput) (index : nat) (numValue : Q)
  : option (list ProductInput) :=
  match ps, index with
  | [], _ => None
  | p :: ps', O =>
      Some (mkInput (in_name p) numValue (in_percentage p)
                    (numValue * (in_percentage p / 100)) :: ps')
  | p :: ps', S i =>
      match set_amount ps' i numValue with
      | Some ps'' => Some (p :: ps'')
      | None => None
      end
  end.

Definition handleProductAmountChange (st : EditState) (index : nat) (numValue : Q)
  : option EditState :=
  match set_amount (e_products st) index numValue with
  | Some ps => Some (mkEdit (e_ncfSuffix st) (e_invoiceDate st) (e_totalAmount st) ps
                            (e_restPercentage st))
  | None => None
  end.

(** [handleSubmit] for the invoice with id [id]: [None] when it returns
    before calling [onUpdate] (a suffix that is not 4 characters long;
    [format] of an Invalid Date throws), otherwise [updateInvoice]'s
    result. *)
Definition handleSubmit (st : EditState) (id : string)
  : M (option (option InvoiceRow)) :=
  if negb (String.length (e_ncfSuffix st) =? 4)%nat then ret None else
  match e_invoiceDate st with
  | None => ret None
  | Some invoiceDate =>
      let fullNcf := ncfPrefix ++ padStart 4 (e_ncfSuffix st) in
      let productsTotal := fold_left (fun sum p => sum + in_amount p) (e_products st) 0 in
      let productsCommission :=
        fold_left (fun sum p => sum + in_commission p) (e_products st) 0 in
      let restAmount := e_totalAmount st - productsTotal in
      let restCommission := restAmount * (e_restPercentage st / 100) in
      let totalCommission := productsCommission + restCommission in
      result <- updateInvoice id fullNcf (format_ymd invoiceDate) (e_totalAmount st)
                  restAmount (e_restPercentage st) restCommission totalCommission
                  (e_products st) ;;
      ret (Some result)
  end.

End WithParser.

End Edit.

(** ** String and number conversions of the UI code *)
Module JsText.
Import Dates Store.

(** [/\d/.test(c)] *)
Definition is_digit (c : ascii) : bool :=
  match digit c with Some _ => true | None => false end.

(** The characters of JS [WhiteSpace] and [LineTerminator] that a
    character of the model can be: tab, LF, VT, FF, CR, space and
    no-break space. *)
Definition is_ws (c : ascii) : bool :=
  existsb (Ascii.eqb c)
    [ascii_of_nat 9; ascii_of_nat 10; ascii_of_nat 11; ascii_of_nat 12;
     ascii_of_nat 13; ascii_of_nat 32; ascii_of_nat 160].

Fixpoint trim_start (cs : list ascii) : list ascii :=
  match cs with
  | [] => []
  | c :: cs' => if is_ws c then trim_start cs' else cs
  end.

(** [s.trim()] on the characters of [s] *)
Definition trim_chars (cs : list ascii) : list ascii :=
  rev (trim_start (rev (trim_start cs))).

Definition js_trim (s : string) : string :=
  string_of_list_ascii (trim_chars (list_ascii_of_string s)).

(** [s.replace(/\D/g, '')] *)
Definition strip_non_digits (s : string) : string :=
  string_of_list_ascii (filter is_digit (list_ascii_of_string s)).

(** [s.split(sep)] on the characters of [s] *)
Fixpoint split_chars (sep : ascii) (cs : list ascii) : list (list ascii) :=
  match cs with
  | [] => [[]]
  | c :: cs' =>
      let parts := split_chars sep cs' in
      if Ascii.eqb c sep then [] :: parts
      else match parts with
           | p :: ps => (c :: p) :: ps
           | [] => [[c]]
           end
  end.

Definition js_split (sep : ascii) (s : string) : list string :=
  map string_of_list_ascii (split_chars sep (list_ascii_of_string s)).

(** The value of a non-empty run of decimal digits. *)
Definition digits_nonempty (cs : list ascii) : option Z :=
  match cs with [] => None | _ => digits_val cs 0 end.

(** [Number(s)] on integer literals: after [trim], the empty string is 0
    and decimal digits after an optional sign are their value; [None] is
    [NaN], and also stands for the literal forms not modelled here
    (fractions, exponents, [0x]/[0o]/[0b] prefixes, [Infinity]). *)
Definition js_Number (s : string) : option Z :=
  match trim_chars (list_ascii_of_string s) with
  | [] => Some 0%Z
  | "-"%char :: ds => option_map Z.opp (digits_nonempty ds)
  | "+"%char :: ds => digits_nonempty ds
  | ds => digits_nonempty ds
  end.

(** The leading run of decimal digits. *)
Fixpoint digit_prefix (cs : list ascii) : list ascii :=
  match cs with
  | [] => []
  | c :: cs' => if is_digit c then c :: digit_prefix cs' else []
  end.

(** [parseInt(s, 10)]: leading white space, an optional sign, then the
    longest run of decimal digits; [None] is [NaN] (no digit). *)
Definition js_parseInt10 (s : string) : option Z :=
  let cs := trim_start (list_ascii_of_string s) in
  let '(sign, rest) := match cs with
                       | "-"%char :: r => ((-1)%Z, r)
                       | "+"%char :: r => (1%Z, r)
                       | _ => (1%Z, cs)
                       end in
  option_map (Z.mul sign) (digits_nonempty (digit_prefix rest)).

(** [String(n)] for an integer [n] *)
Definition js_String_Z (n : Z) : string :=
  if (n <? 0)%Z then "-" ++ z_to_string (- n) else z_to_string n.

(** [s.slice(-k)] *)
Definition slice_last (k : nat) (s : string) : string :=
  substring (String.length s - k) k s.

End JsText.

(** ** Month keys of [MonthlyBreakdown] (src/unnamed/part_001) *)
Module MonthKeys.
Import Dates Inv Breakdown Store JsText.

(** [getMonthKey] *)
Definition getMonthKey (date : Date) : string :=
  js_String_Z (yr date) ++ "-" ++ padStart 2 (js_String_Z (mon date + 1)).

(** [const [year, month] = selectedMonth.split('-').map(Number)]: [None]
    when one of the two is [NaN] or missing. *)
Definition month_key_parts (key : string) : option (Z * Z) :=
  match map js_Number (js_split "-"%char key) with
  | Some y :: Some m :: _ => Some (y, m)
  | _ => None
  end.

(** [getMonthKey] of a parsed date; for an Invalid Date the getters give
    [NaN] and the key is ["NaN-NaN"]. *)
Definition month_key_of (d : option Date) : string :=
  match d with Some d' => getMonthKey d' | None => "NaN-NaN" end.

(** [Set.prototype.add] on the elements in insertion order. *)
Definition set_add (s : list string) (k : string) : list string :=
  if existsb (String.eqb k) s then s else s ++ [k].

(** [Array.prototype.sort()] without a comparator: strings in code-unit
    order, a stable sort. *)
Fixpoint insert_str (x : string) (l : list string) : list string :=
  match l with
  | [] => [x]
  | y :: l' => if String.ltb y x then y :: insert_str x l' else x :: y :: l'
  end.

Definition sort_strings (l : list string) : list string := fold_right insert_str [] l.

Section WithParser.
Variable parse_other : string -> option Date.

(** [months] of [MonthlyBreakdown], for the local date [now]: the keys
    of the last four months and of every invoice, as
    [Array.from(uniqueMonths).sort().reverse()]. *)
Definition months (now : Date) (invoices : list Invoice) : list string :=
  let recent := map (fun i => getMonthKey (new_Date (yr now) (mon now - Z.of_nat i) 1))
                    (seq 0 4) in
  let s := fold_left set_add recent [] in
  let s := fold_left (fun s inv =>
             set_add s (month_key_of (parseInvoiceDate parse_other
                                        (effective_date_string inv)))) invoices s in
  rev (sort_strings s).

End WithParser.

End MonthKeys.

(** ** Calculator state handlers of [Index] (src/pages/Index.tsx) *)
Module Calculator.
Import Calc.

(** [obj[k] = v] on a plain object: in place, or appended when new. *)
Fixpoint amounts_set (m : Amounts) (k : string) (v : Q) : Amounts :=
  match m with
  | [] => [(k, v)]
  | (k', v') :: m' =>
      if String.eqb k k' then (k', v) :: m' else (k', v') :: amounts_set m' k v
  end.

(** [handleProductChange(id, value)]: [{ ...prev, [id]: value }] *)
Definition handleProductChange (prev : Amounts) (id : string) (value : Q) : Amounts :=
  amounts_set prev id value.

(** [handleReset]: the new [totalInvoice] and [productAmounts]. *)
Definition handleReset (products : list Product) : Q * Amounts :=
  (0, fold_left (fun m p => amounts_set m (prod_id p) 0) products []).

(** [key in productAmounts]: an own key, or a property of
    [Object.prototype]. *)
Definition amounts_has (m : Amounts) (k : string) : bool :=
  existsb (String.eqb k) (map fst m) || existsb (String.eqb k) Breakdown.proto_props.

(** The [useEffect] on [products]: the [productAmounts] it leaves. *)
Definition init_amounts (products : list Product) (productAmounts : Amounts) : Amounts :=
  match products with
  | [] => productAmounts
  | _ =>
      let initialAmounts :=
        fold_left (fun acc p => if amounts_has productAmounts (prod_id p) then acc
                                else amounts_set acc (prod_id p) 0) products [] in
      match initialAmounts with
      | [] => productAmounts
      | _ => fold_left (fun m kv => amounts_set m (fst kv) (snd kv))
               initialAmounts productAmounts
      end
  end.

End Calculator.

(** ** Save dialog ([SaveInvoiceDialog], src/components/SaveInvoiceDialog.tsx) *)
Module SaveDialog.
Import Dates Store JsText.

Definition ncfPrefix : string := "B01000".

(** [fullNcf] *)
Definition fullNcf (ncfSuffix : string) : string := ncfPrefix ++ padStart 4 ncfSuffix.

(** [handleNcfChange] (and the NCF input of [EditInvoiceDialog]): the
    suffix kept for a typed value, [value.replace(/\D/g, '').slice(0, 4)]. *)
Definition handleNcfChange (value : string) : string :=
  substring 0 4 (strip_non_digits value).

(** The [useEffect] on [open]: the suffix set from [suggestedNcf]. *)
Definition suggested_suffix (suggestedNcf : Z) : string :=
  padStart 4 (js_String_Z suggestedNcf).

(** [handleSubmit]: the arguments passed to [onSave], [None] when it
    returns early. *)
Definition handleSubmit (ncfSuffix : string) (invoiceDate : Date)
  : option (string * string) :=
  if String.eqb (js_trim ncfSuffix) "" || negb (String.length ncfSuffix =? 4)%nat
  then None
  else Some (fullNcf ncfSuffix, format_ymd invoiceDate).

(** [Index.handleSaveInvoice] after a save: the number passed to
    [updateLastNcfNumber], [parseInt(ncf.slice(-4), 10)]; [None] when it
    is [NaN] and no number is recorded. *)
Definition saved_ncf_number (ncf : string) : option Z :=
  js_parseInt10 (slice_last 4 ncf).

End SaveDialog.

(** ** Statistics view helpers (src/components/Statistics.tsx) *)
Module StatsView.
Import Dates Inv Breakdown Stats.

(** The three outcomes of [getChangeIndicator] (by their labels). *)
Inductive Indicator := SinCambio | Incremento | Decremento.

(** [getChangeIndicator] *)
Definition getChangeIndicator (change : Q) : Indicator :=
  if Qeq_bool change 0 then SinCambio
  else if js_pos change then Incremento else Decremento.

(** [avgPerInvoice] of [selectedMonthStats] *)
Definition avgPerInvoice (monthInvoices : list Invoice) : Q :=
  if (0 <? List.length monthInvoices)%nat
  then fold_left (fun sum inv => sum + total_commission inv) monthInvoices 0
       / inject_Z (Z.of_nat (List.length monthInvoices))
  else 0.

Section WithParser.
Variable parse_other : string -> option Date.

(** The [totalSales] of a row of the monthly progress, for the month
    [(y, m)] read from its key. *)
Definition month_sales (invoices : list Invoice) (ym : Z * Z) : Q :=
  fold_left (fun sum inv => sum + total_amount inv)
    (filteredInvoices parse_other invoices (fst ym) (snd ym)) 0.

(** The [barWidth] of the rows of the monthly progress, one per month of
    [availableMonths.slice(0, 6)] (each key as [(year, month)]), with
    [maxSales = Math.max(...totals, 1)]. *)
Definition bar_widths (invoices : list Invoice) (availableMonths : list (Z * Z))
  : list Q :=
  let shown := firstn 6 availableMonths in
  let maxSales := fold_left Qmax (map (month_sales invoices) shown) 1 in
  map (fun ym => month_sales invoices ym / maxSales * 100) shown.

End WithParser.

End StatsView.

(** ** Concrete inputs used by the examples below *)
Module Examples.
Import Dates Inv Breakdown Store Edit.

(** [new Date(s)] on a string that is not a bare date: here always an
    Invalid Date (the examples only use bare dates). *)
Definition no_parse (_ : string) : option Date := None.

Definition catA : Calc.Product := Calc.mkProduct "a" "A" 10 "red".
Definition catB : Calc.Product := Calc.mkProduct "b" "B" 20 "blue".

(** The calculator on the documented example: total 1000, A = 300 at 10%,
    B = 200 at 20%, rest at 25%. *)
Definition exAmounts : Calc.Amounts := [("a", 300); ("b", 200)].
Definition exCalc : Calc.Calculations := Calc.calculations [catA; catB] exAmounts 1000 25.

Definition db0 : DB := mkDB [] [] [catA; catB] 0 "2024-03-10T12:00:00+00:00".
Definition w0 : World := mkWorld db0 [] [] [].

(** Saving an over-allocated invoice from the calculator: total 100,
    A = 150 (the calculator clamps the rest to 0). *)
Definition over_save : option InvoiceRow * World :=
  handleSaveInvoice [catA; catB] [("a", 150); ("b", 0)] 100 25 "B010000001"
    "2024-03-10" w0.
Definition w_over : World := snd over_save.
Definition inv_over : Invoice := hd (mkInvoice "" "" 0 0 None 0 0 "" "" None None)
                                    (mem w_over).

(** Submitting the edit dialog of that invoice without changing a field. *)
Definition over_edit : option (option InvoiceRow) * World :=
  handleSubmit (open_dialog no_parse inv_over) (inv_id inv_over) w_over.

(** Create then re-price category A: total 1000, A = 300 at 10%. *)
Definition frozen_save : option InvoiceRow * World :=
  handleSaveInvoice [catA; catB] [("a", 300); ("b", 0)] 1000 25 "B010000003"
    "2024-03-10" w0.
Definition frozen_update : bool * World := updateProduct "a" 50 (snd frozen_save).

Definition row_default : InvoiceRow := mkRow "" "" "" 0 0 None 0 0 None "".
Definition row_over : InvoiceRow := hd row_default (invoices_tbl (db w_over)).

(** An invoice saved with a 0% rest rate and fully allocated: total 500,
    A = 500 at 10%, rest 0. *)
Definition zero_save : option InvoiceRow * World :=
  handleSaveInvoice [catA; catB] [("a", 500); ("b", 0)] 500 0 "B010000004"
    "2024-03-10" w0.
Definition w_zero : World := snd zero_save.
Definition inv_zero : Invoice := hd (mkInvoice "" "" 0 0 None 0 0 "" "" None None)
                                    (mem w_zero).

(** Submitting the edit dialog of that invoice without changing a field. *)
Definition zero_edit : option (option InvoiceRow) * World :=
  handleSubmit (open_dialog no_parse inv_zero) (inv_id inv_zero) w_zero.

(** Invoices of March 2024 with a line item of category "toString" and of
    category "A". *)
Definition inv_proto : Invoice :=
  mkInvoice "i1" "B010000005" 100 0 (Some 25) 0 10 "2024-03-10T12:00:00+00:00"
    "2024-03-10" None (Some [mkInvoiceProduct "p1" "toString" 100 10 10]).
Definition inv_plain : Invoice :=
  mkInvoice "i2" "B010000006" 100 0 (Some 25) 0 10 "2024-03-10T12:00:00+00:00"
    "2024-03-10" None (Some [mkInvoiceProduct "p2" "A" 100 10 10]).



(** An invoice of March 2024 with two categories of positive amount, one
    of amount 0 and a positive rest. *)
Definition inv_mix : Invoice :=
  mkInvoice "i3" "B010000007" 1000 500 (Some 25) 125 195 "2024-03-12T09:00:00+00:00"
    "2024-03-12" None
    (Some [mkInvoiceProduct "p3" "A" 300 10 30; mkInvoiceProduct "p4" "B" 200 20 40;
           mkInvoiceProduct "p5" "C" 0 15 0]).

End Examples.

(** ** Facts about the JS number helpers *)

Lemma fold_left_Qplus_acc (xs : list Q) (a : Q) :
  fold_left Qplus xs a == a + fold_left Qplus xs 0.
Proof.
  revert a; induction xs as [|x xs IH]; intro a; simpl.
  - ring.
  - rewrite IH, (IH (0 + x)). ring.
Qed.

Lemma js_sum_cons (x : Q) (xs : list Q) : js_sum (x :: xs) == x + js_sum xs.
Proof. unfold js_sum; simpl. rewrite fold_left_Qplus_acc. ring. Qed.

Lemma js_sum_app (xs ys : list Q) : js_sum (xs ++ ys) == js_sum xs + js_sum ys.
Proof.
  induction xs as [|x xs IH]; simpl.
  - unfold js_sum at 2; simpl. ring.
  - rewrite !js_sum_cons, IH. ring.
Qed.

(** ** Commission Calculator: claims *)
Module CalcFacts.
Import Calc Examples.

Lemma fold_commission_sum (items : list BreakdownItem) (a : Q) :
  fold_left (fun sum item => sum + bi_commission item) items a
  == a + js_sum (map bi_commission items).
Proof.
  revert a; induction items as [|i items IH]; intro a; simpl.
  - unfold js_sum; simpl. ring.
  - rewrite IH, js_sum_cons. ring.
Qed.

(** C1: the total commission is the sum over the configured categories of
    [allocated_amount * percentage / 100] plus [rest_amount * R / 100];
    on the documented example (total 1000, A = 300 at 10%, B = 200 at 20%,
    R = 25) the calculator gives 30, 40, 500, 125 and 195. *)
Theorem total_commission_sum :
  (forall (products : list Product) (productAmounts : Amounts) (T R : Q),
     let c := calculations products productAmounts T R in
     totalCommission c ==
       js_sum (map (fun p => amount_of productAmounts (prod_id p)
                               * prod_percentage p / 100) products)
       + restAmount c * R / 100) /\
  (Forall2 Qeq (map bi_commission (breakdown exCalc)) [30; 40]
   /\ restAmount exCalc == 500 /\ restCommission exCalc == 125
   /\ totalCommission exCalc == 195).
Proof.
  split.
  - intros products productAmounts T R c; subst c; unfold calculations; simpl.
    rewrite fold_commission_sum, map_map.
    unfold breakdown_item; simpl.
    assert (Hs : forall ps : list Product,
      js_sum (map (fun x => amount_of productAmounts (prod_id x)
                              * (prod_percentage x / 100)) ps)
      == js_sum (map (fun p => amount_of productAmounts (prod_id p)
                                 * prod_percentage p / 100) ps)).
    { induction ps as [|p ps IH]; simpl.
      - reflexivity.
      - rewrite !js_sum_cons, IH. field. }
    rewrite Hs. field.
  - vm_compute. repeat split; try reflexivity.
    repeat constructor.
Qed.

(** C2: the rest amount is [T - S] when the allocations [S] (the sum of
    [Object.values(productAmounts)]) do not exceed [T], and [0] otherwise;
    [calculations] is total, so over-allocation raises nothing. *)
Theorem rest_amount_clamped :
  forall (products : list Product) (productAmounts : Amounts) (T R : Q),
    let S := js_sum (map snd productAmounts) in
    restAmount (calculations products productAmounts T R)
    == (if Qle_bool S T then T - S else 0).
Proof.
  intros products productAmounts T R S; subst S.
  unfold calculations, js_max0; simpl.
  set (S := js_sum (map snd productAmounts)).
  destruct (Qle_bool (T - S) 0) eqn:E1, (Qle_bool S T) eqn:E2;
    try reflexivity.
  - apply Qle_bool_iff in E1. apply Qle_bool_iff in E2.
    assert (Hq : T == S) by lra. rewrite Hq. ring.
  - exfalso.
    assert (~ S <= T) as HS by (intro HS; apply Qle_bool_iff in HS; congruence).
    assert (~ T - S <= 0) as HT by (intro HT; apply Qle_bool_iff in HT; congruence).
    lra.
Qed.

End CalcFacts.

(** ** Calendar facts *)
Module DatesFacts.
Import Dates.

Lemma dim_range (y m : Z) : (28 <= dim y m <= 31)%Z.
Proof.
  unfold dim. destruct (leap y);
  destruct m as [|p|p]; try lia;
  repeat (destruct p as [p|p|]; try lia).
Qed.

Ltac date_bool :=
  unfold date_le in *; cbn [yr mon day tod] in *;
  repeat rewrite ?Bool.andb_true_iff, ?Bool.orb_true_iff, ?Z.ltb_lt, ?Z.eqb_eq,
    ?Z.leb_le in *.

(** Outside 0 to 99 the [Date] constructor keeps the year as given. *)
Lemma full_year_keep (y : Z) :
  ~ (0 <= y <= 99)%Z -> (if (0 <=? y)%Z && (y <=? 99)%Z then (1900 + y)%Z else y) = y.
Proof.
  intro Hy. destruct (0 <=? y)%Z eqn:E1, (y <=? 99)%Z eqn:E2; try reflexivity.
  apply Z.leb_le in E1, E2. lia.
Qed.

Lemma new_Date_first (y m : Z) :
  ~ (0 <= y <= 99)%Z ->
  (1 <= m <= 12)%Z -> new_Date y (m - 1) 1 = mkDate y (m - 1) 1 0.
Proof.
  intros Hy Hm. unfold new_Date. rewrite (full_year_keep y Hy).
  rewrite (Z.div_small (m - 1) 12) by lia.
  rewrite (Z.mod_small (m - 1) 12) by lia.
  rewrite Z.add_0_r. simpl.
  pose proof (dim_range y (m - 1)).
  destruct (dim y (m - 1) <? 1)%Z eqn:E.
  - apply Z.ltb_lt in E. lia.
  - reflexivity.
Qed.

Lemma within_month_iff (y m : Z) (d : Date) :
  valid_date d ->
  within_month y m d = true <-> yr d = y /\ mon d = (m - 1)%Z.
Proof.
  intros (Hm & Hd & Ht). unfold within_month, month_first, month_last.
  split.
  - intro H. date_bool.
    destruct H as [H1 H2].
    assert (yr d = y) by lia. subst y.
    lia.
  - intros [<- <-]. date_bool. split; lia.
Qed.

End DatesFacts.

(** ** Monthly Aggregator: claims *)
Module BreakdownFacts.
Import Dates DatesFacts Inv Breakdown Examples.





Lemma own_get_in (o : Obj) (k : string) (v : ProductBreakdown) :
  own_get o k = Some v -> In (k, v) o.
Proof.
  induction o as [|[k' v'] o IH]; simpl; [discriminate|].
  destruct (String.eqb_spec k k') as [->|_].
  - intro H. injection H as <-. left; reflexivity.
  - intro H. right. apply IH; exact H.
Qed.

Lemma obj_set_in (o : Obj) (k : string) (v : ProductBreakdown) k2 v2 :
  In (k2, v2) (obj_set o k v) -> (exists v', In (k2, v') o) \/ k2 = k.
Proof.
  induction o as [|[k' v'] o IH]; simpl; intro H.
  - destruct H as [H|[]]. injection H as <- <-. right; reflexivity.
  - destruct (String.eqb_spec k k') as [E|E]; destruct H as [H|H].
    + injection H as <- <-. left; exists v'; left; reflexivity.
    + left; exists v2; right; exact H.
    + injection H as <- <-. left; exists v'; left; reflexivity.
    + destruct (IH H) as [[v'' Hv]|Hk]; [left; exists v''; right; exact Hv|right; exact Hk].
Qed.

Lemma add_product_keys (inv : Invoice) (o o' : Obj) (p : InvoiceProduct) :
  no_proto_keys o -> add_product inv (Some o) p = Some o' -> no_proto_keys o'.
Proof.
  intros Ho H. unfold add_product in H. cbv zeta in H.
  destruct (Qle_bool (amount p) 0); [injection H as <-; exact Ho|].
  unfold obj_get in H. destruct (own_get o (product_name p)) eqn:Eg.
  - injection H as <-. intros k v Hkv.
    destruct (obj_set_in _ _ _ _ _ Hkv) as [[v' Hv]| ->].
    + exact (Ho _ _ Hv).
    + exact (Ho _ _ (own_get_in _ _ _ Eg)).
  - destruct (existsb (String.eqb (product_name p)) proto_props) eqn:Ep; [discriminate|].
    injection H as <-. intros k v Hkv.
    destruct (obj_set_in _ _ _ _ _ Hkv) as [[v' Hv]| ->]; [exact (Ho _ _ Hv)|exact Ep].
Qed.

(** [products[key]] for a name of [Object.prototype] is the inherited
    function: [.entries.push] throws. *)
Lemma add_product_proto (inv : Invoice) (o : Obj) (p : InvoiceProduct) :
  no_proto_keys o -> In (product_name p) proto_props -> 0 < amount p ->
  add_product inv (Some o) p = None.
Proof.
  intros Ho Hn Hp. unfold add_product. cbv zeta.
  replace (Qle_bool (amount p) 0) with false
    by (symmetry; apply not_true_iff_false; intro H; apply Qle_bool_iff in H;
        exact (Qlt_not_le _ _ Hp H)).
  unfold obj_get.
  assert (Ep : existsb (String.eqb (product_name p)) proto_props = true)
    by (apply existsb_exists; exists (product_name p); split;
        [exact Hn|apply String.eqb_refl]).
  destruct (own_get o (product_name p)) eqn:Eg.
  - exfalso. pose proof (Ho _ _ (own_get_in _ _ _ Eg)). congruence.
  - rewrite Ep. reflexivity.
Qed.

Lemma fold_add_product_none (inv : Invoice) (ps : list InvoiceProduct) :
  fold_left (add_product inv) ps None = None.
Proof. induction ps as [|p ps IH]; simpl; [reflexivity|exact IH]. Qed.

Lemma fold_add_invoice_none (invs : list Invoice) :
  fold_left add_invoice invs None = None.
Proof.
  induction invs as [|x l IH]; cbn [fold_left]; [reflexivity|].
  replace (add_invoice None x) with (@None Obj); [exact IH|].
  unfold add_invoice. destruct (products x); [symmetry; apply fold_add_product_none|reflexivity].
Qed.

Lemma fold_products_keys (inv : Invoice) (ps : list InvoiceProduct) (o o' : Obj) :
  no_proto_keys o -> fold_left (add_product inv) ps (Some o) = Some o' -> no_proto_keys o'.
Proof.
  revert o; induction ps as [|x ps IH]; cbn [fold_left]; intros o Ho H.
  - injection H as <-; exact Ho.
  - destruct (add_product inv (Some o) x) as [o1|] eqn:E.
    + exact (IH o1 (add_product_keys _ _ _ _ Ho E) H).
    + rewrite fold_add_product_none in H; discriminate.
Qed.

Lemma fold_products_proto (inv : Invoice) (ps : list InvoiceProduct) (o : Obj)
    (p : InvoiceProduct) :
  no_proto_keys o -> In p ps -> In (product_name p) proto_props -> 0 < amount p ->
  fold_left (add_product inv) ps (Some o) = None.
Proof.
  revert o; induction ps as [|x ps IH]; intros o Ho Hin Hn Hp; [destruct Hin|].
  cbn [fold_left]. destruct Hin as [<-|Hin].
  - rewrite (add_product_proto _ _ _ Ho Hn Hp). apply fold_add_product_none.
  - destruct (add_product inv (Some o) x) as [o1|] eqn:E.
    + apply (IH o1); [exact (add_product_keys _ _ _ _ Ho E)|exact Hin|exact Hn|exact Hp].
    + apply fold_add_product_none.
Qed.

(** C6 (code bug): a line item with a positive amount whose category name
    is a property of [Object.prototype] ("toString", "constructor",
    "__proto__", ...) makes [products[key]] the inherited value, so
    [!products[key]] is false and [products[key].entries.push] throws a
    [TypeError]: [productsBreakdown] and [grandTotalCommission] produce no
    value instead of a group for that name. *)
Theorem proto_name_throws (filtered : list Invoice) (inv : Invoice) (p : InvoiceProduct)
    (Hinv : In inv filtered) (Hp : In p (line_items inv))
    (Hname : In (product_name p) proto_props) (Hpos : 0 < amount p) :
  productsBreakdown filtered = None /\ grandTotalCommission filtered = None.
Proof.
  assert (H : forall o, no_proto_keys o -> fold_left add_invoice filtered (Some o) = None).
  { revert Hinv. induction filtered as [|x l IH]; intros Hinv o Ho; [destruct Hinv|].
    cbn [fold_left]. destruct Hinv as [ ->|Hinv].
    - replace (add_invoice (Some o) inv) with (@None Obj); [apply fold_add_invoice_none|].
      unfold add_invoice. unfold line_items in Hp. destruct (products inv); [|destruct Hp].
      symmetry. apply (fold_products_proto _ _ _ p Ho Hp Hname Hpos).
    - destruct (add_invoice (Some o) x) as [o1|] eqn:E.
      + apply (IH Hinv o1). unfold add_invoice in E. destruct (products x).
        * exact (fold_products_keys _ _ _ _ Ho E).
        * injection E as <-. exact Ho.
      + apply fold_add_invoice_none. }
  unfold grandTotalCommission, productsBreakdown.
  pose proof (H [] (fun k v Hf => match Hf with end)) as H0. unfold Obj in H0 |- *.
  rewrite H0.
  split; reflexivity.
Qed.

(** The invoice of category "toString" makes the March 2024 breakdown
    throw, while the one of category "A" gives a group. *)
Lemma proto_name_throws_witness :
  productsBreakdown (filteredInvoices no_parse [inv_proto] 2024 3) = None
  /\ exists gs, productsBreakdown [inv_plain] = Some gs.
Proof.
  split; [|eexists; vm_compute; reflexivity].
  assert (Hin : In inv_proto (filteredInvoices no_parse [inv_proto] 2024 3))
    by (vm_compute; left; reflexivity).
  assert (Hp : In (mkInvoiceProduct "p1" "toString" 100 10 10) (line_items inv_proto))
    by (left; reflexivity).
  assert (Hn : In (product_name (mkInvoiceProduct "p1" "toString" 100 10 10)) proto_props)
    by (vm_compute; right; left; reflexivity).
  assert (Hpos : 0 < amount (mkInvoiceProduct "p1" "toString" 100 10 10))
    by (vm_compute; reflexivity).
  exact (proj1 (proto_name_throws _ _ _ Hin Hp Hn Hpos)).
Defined.

End BreakdownFacts.

(** ** Statistics Engine: claims *)
Module StatsFacts.
Import Dates Inv Breakdown Stats Examples.

(** C7: when the previous month holds no invoice, none of the three
    percent-change badges (sales, commission, invoice count) is rendered:
    the report is "no data" ([None]), which differs from a rendered 0%
    ([Some 0]); no division is attempted. *)
Theorem no_previous_no_change
    (parse_other : string -> option Date) (invoices : list Invoice)
    (selectedDate : Date)
    (Hprev : invoiceCount (previousMonthStats parse_other invoices selectedDate) = 0%nat) :
  change_report parse_other invoices selectedDate = mkReport None None None
  /\ mkReport None None None <> mkReport (Some 0) (Some 0) (Some 0).
Proof.
  split; [|discriminate].
  unfold change_report.
  revert Hprev. unfold previousMonthStats, stats_of. simpl.
  destruct (month_invoices parse_other invoices (subMonth1 selectedDate)) eqn:E;
    simpl; [|discriminate].
  intros _. reflexivity.
Qed.

Lemma no_previous_no_change_witness :
  change_report no_parse [inv_plain] (mkDate 2024 2 15 0) = mkReport None None None.
Proof.
  assert (Hprev : invoiceCount (previousMonthStats no_parse [inv_plain] (mkDate 2024 2 15 0))
                  = 0%nat) by (vm_compute; reflexivity).
  exact (proj1 (no_previous_no_change no_parse [inv_plain] (mkDate 2024 2 15 0) Hprev)).
Defined.

End StatsFacts.

(** ** Invoice Store: claims *)
Module StoreFacts.
Import Dates Inv Breakdown Store Edit Examples.

Lemma filter_other_ncf (l : list InvoiceRow) (n : string) (g : InvoiceRow -> bool) :
  (forall y, In y l -> r_ncf y <> n) ->
  filter (fun x => String.eqb (r_ncf x) n && g x) l = [].
Proof.
  induction l as [|x l IH]; intro H; simpl; [reflexivity|].
  destruct (String.eqb_spec (r_ncf x) n) as [E|E].
  - exfalso. apply (H x); [left; reflexivity|exact E].
  - simpl. apply IH. intros y Hy. apply H. right; exact Hy.
Qed.

Lemma filter_ncf_unique (l : list InvoiceRow) (r : InvoiceRow) (g : InvoiceRow -> bool) :
  NoDup (map r_ncf l) -> In r l ->
  filter (fun x => String.eqb (r_ncf x) (r_ncf r) && g x) l
  = if g r then [r] else [].
Proof.
  induction l as [|x l IH]; intros Hnd Hin; [destruct Hin|].
  simpl in Hnd. inversion Hnd as [|? ? Hnotin Hnd']; subst.
  destruct Hin as [<-|Hin].
  - simpl. rewrite String.eqb_refl. simpl.
    rewrite filter_other_ncf.
    + destruct (g x); reflexivity.
    + intros y Hy E. apply Hnotin. rewrite <- E. apply in_map. exact Hy.
  - simpl. destruct (String.eqb_spec (r_ncf x) (r_ncf r)) as [E|E].
    + exfalso. apply Hnotin. rewrite E. apply in_map. exact Hin.
    + simpl. apply IH; assumption.
Qed.

Lemma find_id (l : list InvoiceRow) (r : InvoiceRow) :
  In r l -> exists r0, find (fun x => String.eqb (r_id x) (r_id r)) l = Some r0
                       /\ r_id r0 = r_id r.
Proof.
  induction l as [|x l IH]; intro Hin; [destruct Hin|].
  simpl. destruct (String.eqb_spec (r_id x) (r_id r)) as [E|E].
  - exists x; split; [reflexivity|exact E].
  - destruct Hin as [<-|Hin]; [congruence|]. apply IH; exact Hin.
Qed.

(** The returned value of [c ;;; ret x] does not depend on [c]. *)
Lemma bind_ret_fst {A B} (c : M A) (x : B) (w : World) :
  fst ((c ;;; ret x) w) = x.
Proof. unfold bind, ret. destruct (c w). reflexivity. Qed.

Lemma bind_fst_const {A B} (c : M A) (k : A -> M B) (x : B) (w : World) :
  (forall a w', fst (k a w') = x) -> fst (bind c k w) = x.
Proof. intro H. unfold bind. destruct (c w). apply H. Qed.

Lemma mapM_db {A B} (f : A -> M B) (l : list A) (w : World) :
  (forall a w0, db (snd (f a w0)) = db w0) ->
  db (snd (mapM f l w)) = db w.
Proof.
  intro Hf. revert w; induction l as [|a l IH]; intro w; simpl; [reflexivity|].
  unfold bind at 1. destruct (f a w) as [b w1] eqn:E1.
  unfold bind. destruct (mapM f l w1) as [bs w2] eqn:E2.
  simpl. rewrite <- (Hf a w), E1. simpl. rewrite <- (IH w1), E2. reflexivity.
Qed.

(** [fetchInvoices] only reads the store. *)
Lemma fetch_db (w : World) : db (snd (fetchInvoices w)) = db w.
Proof.
  unfold fetchInvoices, q_select_invoices, bind, call_fails, get_db, ret.
  destruct (faults w) as [|[|] fs]; simpl.
  - destruct (mapM _ _ _) as [invs w'] eqn:E. simpl.
    unfold set_mem. simpl.
    change w' with (snd (invs, w')). rewrite <- E. apply mapM_db.
    intros a w0. unfold q_select_products_of, bind, call_fails, get_db, ret.
    destruct (faults w0) as [|[|] fs0]; reflexivity.
  - reflexivity.
  - destruct (mapM _ _ _) as [invs w'] eqn:E. simpl.
    change w' with (snd (invs, w')). rewrite <- E. rewrite mapM_db; [reflexivity|].
    intros a w0. unfold q_select_products_of, bind, call_fails, get_db, ret.
    destruct (faults w0) as [|[|] fs0]; reflexivity.
Qed.


Lemma world_eta (w : World) : w = mkWorld (db w) (faults w) (toasts w) (mem w).
Proof. destruct w; reflexivity. Qed.

(** C4: with the NCFs of the invoice table pairwise distinct (the
    [UNIQUE] column) and the store reachable, [saveInvoice] with the NCF of
    an existing invoice is rejected with the duplicate-NCF toast, returns
    [null] and changes neither the store nor the in-memory list, while
    [updateInvoice] of that invoice with its own unchanged NCF passes the
    uniqueness check (it excludes the invoice itself) and returns the
    updated row. *)
Theorem ncf_uniqueness (w : World) (r : InvoiceRow) (invoiceDate : string)
    (T RA RP RC TC : Q) (ps : list ProductInput) (seller : option string)
    (Hin : In r (invoices_tbl (db w)))
    (Huniq : NoDup (map r_ncf (invoices_tbl (db w))))
    (Hok : faults w = []) :
  saveInvoice (r_ncf r) invoiceDate T RA RP RC TC ps seller w
    = (None, mkWorld (db w) (faults w)
               (toasts w ++ [ToastError "Ya existe una factura con este NCF"]) (mem w))
  /\ exists r', fst (updateInvoice (r_id r) (r_ncf r) invoiceDate T RA RP RC TC ps w)
                = Some r' /\ r_id r' = r_id r /\ r_ncf r' = r_ncf r.
Proof.
  split.
  - unfold saveInvoice, q_select_ncf, bind, call_fails, get_db, ret, toast.
    rewrite Hok. simpl.
    rewrite (filter_ncf_unique _ r (fun _ => true) Huniq Hin).
    rewrite Hok. reflexivity.
  - unfold updateInvoice at 1. unfold q_select_ncf, bind at 1 2 3.
    unfold call_fails at 1. rewrite Hok. unfold get_db, ret at 1 2. simpl.
    rewrite (filter_ncf_unique _ r (fun x => negb (String.eqb (r_id x) (r_id r)))
               Huniq Hin).
    rewrite String.eqb_refl. simpl.
    unfold q_update_invoice. unfold bind at 1 2 3. unfold call_fails. rewrite Hok.
    unfold get_db, ret at 1. simpl.
    assert (Hex : existsb (fun x => String.eqb (r_ncf x) (r_ncf r)
                                    && negb (String.eqb (r_id x) (r_id r)))
                    (invoices_tbl (db w)) = false).
    { destruct (existsb _ _) eqn:E; [|reflexivity].
      apply existsb_exists in E. destruct E as [x [Hx Hp]].
      assert (Hf : In x (filter (fun x => String.eqb (r_ncf x) (r_ncf r)
                                  && negb (String.eqb (r_id x) (r_id r)))
                         (invoices_tbl (db w)))) by (apply filter_In; split; assumption).
      rewrite (filter_ncf_unique _ r (fun x => negb (String.eqb (r_id x) (r_id r)))
                 Huniq Hin) in Hf.
      rewrite String.eqb_refl in Hf. destruct Hf. }
    rewrite Hex.
    destruct (find_id _ r Hin) as [r0 [Hfind Hid]].
    rewrite Hfind.
    eexists; split.
    + unfold bind at 1. destruct (put_db _ _). unfold ret at 1.
      repeat (apply bind_fst_const; intros ? ?). reflexivity.
    + simpl. split; [exact Hid|reflexivity].
Qed.


(** C3: on a reachable input the edit path writes a negative rest amount.
    Saving from the calculator an invoice of total 100 with category A
    allocated 150 stores [rest_amount = 0 = max(0, 100 - 150)]; submitting
    its edit dialog without changing a field then stores
    [rest_amount = 100 - 150 = -50] (no [Math.max]), so the stored row no
    longer satisfies [rest_amount = max(0, total_amount - sum(amounts))]. *)
Theorem edit_path_negative_rest :
  forallb (rest_invariant (db w_over)) (invoices_tbl (db w_over)) = true
  /\ forallb (rest_invariant (db (snd over_edit))) (invoices_tbl (db (snd over_edit)))
     = false
  /\ map (fun r => Qeq_bool (r_rest_amount r) (-50)) (invoices_tbl (db (snd over_edit)))
     = [true]
  /\ (exists r, fst over_edit = Some (Some r)).
Proof.
  vm_compute. repeat split; try reflexivity. eexists. reflexivity.
Qed.






Lemma keeps_bind {A B} (c : M A) (k : A -> M B) :
  keeps_invoices c -> (forall a, keeps_invoices (k a)) -> keeps_invoices (bind c k).
Proof.
  intros Hc Hk w. unfold bind. specialize (Hc w).
  destruct (c w) as [a w1]. simpl in Hc. rewrite Hk. exact Hc.
Qed.

Lemma keeps_ret {A} (a : A) : keeps_invoices (ret a).
Proof. intro w; reflexivity. Qed.

Lemma keeps_toast (t : Toast) : keeps_invoices (toast t).
Proof. intro w; reflexivity. Qed.

Lemma keeps_call_fails : keeps_invoices call_fails.
Proof. intro w; unfold call_fails; destruct (faults w); reflexivity. Qed.

Lemma keeps_fresh_id : keeps_invoices fresh_id.
Proof. intro w; reflexivity. Qed.

Lemma keeps_fetch : keeps_invoices fetchInvoices.
Proof. intro w. rewrite fetch_db. reflexivity. Qed.

Lemma keeps_insert_rows (ps : list ProductInsert) : keeps_invoices (insert_rows ps).
Proof.
  induction ps as [|p ps IH]; simpl.
  - apply keeps_ret.
  - apply keeps_bind; [apply keeps_fresh_id|intro].
    apply keeps_bind; [exact IH|intro]. apply keeps_ret.
Qed.

Lemma keeps_insert_products (ps : list ProductInsert) :
  keeps_invoices (q_insert_products ps).
Proof.
  intro w. unfold q_insert_products, bind at 1.
  pose proof (keeps_call_fails w) as H1. destruct (call_fails w) as [f w1].
  simpl in H1. destruct f; [exact H1|].
  unfold bind. pose proof (keeps_insert_rows ps w1) as H2.
  destruct (insert_rows ps w1) as [rows w2]. simpl in *. congruence.
Qed.

Lemma keeps_delete_products_of (id : string) : keeps_invoices (q_delete_products_of id).
Proof.
  intro w. unfold q_delete_products_of, bind at 1.
  pose proof (keeps_call_fails w) as H1. destruct (call_fails w) as [f w1].
  simpl in H1. destruct f; [exact H1|]. simpl. exact H1.
Qed.

Lemma filter_none {A} (f : A -> bool) (l : list A) :
  (forall x, In x l -> f x = false) -> filter f l = [].
Proof.
  induction l as [|x l IH]; intro H; simpl; [reflexivity|].
  rewrite (H x (or_introl eq_refl)). apply IH. intros y Hy. apply H. right; exact Hy.
Qed.

(** The NCF lookup of [updateInvoice] finds nothing when no other row
    holds the NCF. *)
Lemma select_ncf_free (w : World) (ncf id : string)
    (Hok : faults w = [])
    (Hfree : forall x, In x (invoices_tbl (db w)) -> r_ncf x = ncf -> r_id x = id) :
  q_select_ncf ncf (Some id) w = (None, w).
Proof.
  unfold q_select_ncf, bind, call_fails, get_db, ret. rewrite Hok.
  rewrite filter_none; [reflexivity|].
  intros x Hx. destruct (String.eqb_spec (r_ncf x) ncf) as [E|E]; [|reflexivity].
  rewrite (Hfree x Hx E), String.eqb_refl. reflexivity.
Qed.

(** The update query rewrites exactly the row with id [id]. *)
Lemma update_invoice_ok (w : World) (id : string) (fs : InvoiceFields)
    (Hok : faults w = [])
    (Hrow : exists r, In r (invoices_tbl (db w)) /\ r_id r = id)
    (Hfree : forall x, In x (invoices_tbl (db w)) -> r_ncf x = f_ncf fs -> r_id x = id) :
  exists r0, r_id r0 = id /\
    let r' := mkRow (r_id r0) (f_ncf fs) (f_invoice_date fs) (f_total_amount fs)
                (f_rest_amount fs) (Some (f_rest_percentage fs))
                (f_rest_commission fs) (f_total_commission fs)
                (r_seller_id r0) (r_created_at r0) in
    q_update_invoice id fs w =
      (Some r', mkWorld (with_tables (db w)
                  (map (fun x => if String.eqb (r_id x) id then r' else x) (invoices_tbl (db w)))
                  (products_tbl (db w))) (faults w) (toasts w) (mem w)).
Proof.
  destruct Hrow as [r [Hin Hid]].
  assert (Hex : existsb (fun x => String.eqb (r_ncf x) (f_ncf fs) && negb (String.eqb (r_id x) id))
                  (invoices_tbl (db w)) = false).
  { destruct (existsb _ (invoices_tbl (db w))) eqn:E; [|reflexivity].
    apply existsb_exists in E. destruct E as [x [Hx E]].
    apply andb_true_iff in E. destruct E as [E1 E2].
    apply String.eqb_eq in E1. rewrite (Hfree x Hx E1), String.eqb_refl in E2.
    discriminate. }
  subst id. destruct (find_id _ r Hin) as [r0 [Hfind Hid0]].
  exists r0. split; [exact Hid0|].
  unfold q_update_invoice, bind, call_fails, get_db. rewrite Hok.
  rewrite Hex, Hfind. unfold put_db, ret. rewrite Hok. reflexivity.
Qed.

Lemma bind_step {A B} (c : M A) (k : A -> M B) (w : World) (a : A) (w1 : World) :
  c w = (a, w1) -> bind c k w = k a w1.
Proof. intro E. unfold bind. rewrite E. reflexivity. Qed.




Lemma in_map_replace (l : list InvoiceRow) (r0 r' : InvoiceRow) (id : string) :
  In r0 l -> r_id r0 = id ->
  In r' (map (fun x => if String.eqb (r_id x) id then r' else x) l).
Proof.
  intros Hin Hid. apply in_map_iff. exists r0. split; [|exact Hin].
  rewrite Hid, String.eqb_refl. reflexivity.
Qed.

(** With the store reachable, a row with id [id] present and no other row
    holding [ncf], [updateInvoice] returns the updated row, which is in the
    invoice table afterwards with exactly the written columns. *)
Lemma updateInvoice_writes (w : World) (id ncf date : string) (T RA RP RC TC : Q)
    (ps : list ProductInput)
    (Hok : faults w = [])
    (Hrow : exists r, In r (invoices_tbl (db w)) /\ r_id r = id)
    (Hfree : forall x, In x (invoices_tbl (db w)) -> r_ncf x = ncf -> r_id x = id) :
  exists r' w', updateInvoice id ncf date T RA RP RC TC ps w = (Some r', w')
    /\ In r' (invoices_tbl (db w')) /\ r_id r' = id
    /\ r_ncf r' = ncf /\ r_invoice_date r' = date /\ r_total_amount r' = T
    /\ r_rest_amount r' = RA /\ r_rest_percentage r' = Some RP
    /\ r_rest_commission r' = RC /\ r_total_commission r' = TC.
Proof.
  unfold updateInvoice.
  rewrite (bind_step _ _ w None w (select_ncf_free w ncf id Hok Hfree)).
  destruct (update_invoice_ok w id (mkFields ncf date T RA RP RC TC) Hok Hrow Hfree)
    as [r0 [Hid0 Hupd]].
  cbv zeta in Hupd. rewrite (bind_step _ _ _ _ _ Hupd).
  set (r' := mkRow (r_id r0) _ _ _ _ _ _ _ _ _).
  set (w1 := mkWorld _ _ _ _).
  set (C := bind (q_delete_products_of id) _).
  assert (Hfst : fst (C w1) = Some r').
  { unfold C. apply bind_fst_const; intros a1 w2.
    apply bind_fst_const; intros a2 w3.
    apply bind_fst_const; intros a3 w4.
    apply bind_ret_fst. }
  assert (Hk : keeps_invoices C).
  { unfold C. apply keeps_bind; [apply keeps_delete_products_of|intro].
    apply keeps_bind.
    - destruct (product_inserts id ps); [apply keeps_ret|].
      apply keeps_bind; [apply keeps_insert_products|intro]. apply keeps_ret.
    - intro. apply keeps_bind; [apply keeps_toast|intro].
      apply keeps_bind; [apply keeps_fetch|intro]. apply keeps_ret. }
  exists r', (snd (C w1)). split.
  { rewrite <- Hfst. apply surjective_pairing. }
  rewrite (Hk w1). subst w1. cbn [db with_tables invoices_tbl].
  destruct Hrow as [r [Hin Hid]].
  split; [apply (in_map_replace _ r); assumption|].
  repeat split; simpl; auto.
Qed.

Lemma substring_length (n m : nat) (s : string) :
  (n + m <= String.length s)%nat -> String.length (substring n m s) = m.
Proof.
  revert n m; induction s as [|c s IH]; intros n m H;
    destruct n, m; simpl in *; try lia; f_equal; apply IH; lia.
Qed.

Lemma padStart_full (s : string) : String.length s = 4%nat -> padStart 4 s = s.
Proof. intro H. unfold padStart. rewrite H. reflexivity. Qed.

Lemma fold_left_plus_map {A} (f : A -> Q) (l : list A) (a : Q) :
  fold_left (fun s p => s + f p) l a = fold_left Qplus (map f l) a.
Proof. revert a; induction l as [|x l IH]; intro a; simpl; [reflexivity|apply IH]. Qed.

Lemma restPercentage_init_falsy (inv : Invoice) :
  rest_percentage inv = None \/ (exists p, rest_percentage inv = Some p /\ p == 0) ->
  restPercentage_init inv = 25.
Proof.
  unfold restPercentage_init. intros [H|[p [H Hp]]]; rewrite H; [reflexivity|].
  apply Qeq_bool_iff in Hp. rewrite Hp. reflexivity.
Qed.

(** C10 (amended): the edit dialog opened on an invoice whose stored
    [rest_percentage] is [0] or missing starts at 25%; submitting it
    unchanged (a date that parses, an NCF of at least four characters, the
    store reachable, no other invoice with the resulting NCF) stores
    [rest_percentage = 25], [rest_amount = total - sum(amounts)],
    [rest_commission = rest_amount * 25/100] and [total_commission =
    sum(commissions) + rest_commission]; the stored rest commission is
    [0] exactly when that rest amount is [0]. *)
Theorem edit_rest_rate_reset (parse_other : string -> option Date) (inv : Invoice)
    (w : World) (d : Date)
    (Hrate : rest_percentage inv = None \/ (exists p, rest_percentage inv = Some p /\ p == 0))
    (Hok : faults w = [])
    (Hlen : (4 <= String.length (ncf inv))%nat)
    (Hdate : parseInvoiceDate parse_other (effective_date_string inv) = Some d)
    (Hrow : exists r, In r (invoices_tbl (db w)) /\ r_id r = inv_id inv)
    (Hfree : forall x, In x (invoices_tbl (db w)) ->
             r_ncf x = ncfPrefix ++ substring (String.length (ncf inv) - 4) 4 (ncf inv) ->
             r_id x = inv_id inv) :
  exists r' w',
    handleSubmit (open_dialog parse_other inv) (inv_id inv) w = (Some (Some r'), w')
    /\ In r' (invoices_tbl (db w')) /\ r_id r' = inv_id inv
    /\ r_rest_percentage r' = Some 25
    /\ r_rest_amount r' = total_amount inv - js_sum (map amount (line_items inv))
    /\ r_rest_commission r' = r_rest_amount r' * (25 / 100)
    /\ r_total_commission r' =
         js_sum (map commission (line_items inv)) + r_rest_commission r'
    /\ (r_rest_commission r' == 0 <-> r_rest_amount r' == 0).
Proof.
  set (sfx := substring (String.length (ncf inv) - 4) 4 (ncf inv)) in *.
  assert (Hsl : String.length sfx = 4%nat) by (apply substring_length; lia).
  unfold handleSubmit, open_dialog.
  cbn [e_ncfSuffix e_invoiceDate e_totalAmount e_products e_restPercentage].
  rewrite (restPercentage_init_falsy inv Hrate).
  apply Nat.leb_le in Hlen. rewrite Hlen. fold sfx. rewrite Hsl, Nat.eqb_refl.
  rewrite Hdate, (padStart_full sfx Hsl).
  assert (Hp : forall f : InvoiceProduct -> ProductInput,
             match products inv with Some ps => map f ps | None => [] end
             = map f (line_items inv))
    by (intro f; unfold line_items; destruct (products inv); reflexivity).
  rewrite Hp. cbv beta iota zeta delta [negb].
  match goal with
  | |- context [updateInvoice ?id ?n ?dt ?T ?RA ?RP ?RC ?TC ?ps] =>
      destruct (updateInvoice_writes w id n dt T RA RP RC TC ps Hok Hrow Hfree)
        as [r' [w' [E [Hin [Hid [_ [_ [_ [HRA [HRP [HRC HTC]]]]]]]]]]]
  end.
  exists r', w'. rewrite (bind_step _ _ _ _ _ E).
  assert (HRA' : r_rest_amount r' = total_amount inv - js_sum (map amount (line_items inv))).
  { rewrite HRA, fold_left_plus_map, map_map. reflexivity. }
  split; [reflexivity|]. split; [exact Hin|]. split; [exact Hid|].
  split; [exact HRP|]. split; [exact HRA'|].
  split; [rewrite HRC, HRA; reflexivity|].
  split; [rewrite HTC, HRC, fold_left_plus_map, map_map; reflexivity|].
  rewrite HRC, <- HRA. split; intro H; [|rewrite H; reflexivity].
  destruct (Qmult_integral _ _ H) as [H1|H1]; [exact H1|discriminate H1].
Qed.

Lemma updateProduct_frame (id : string) (pct : Q) (w : World) :
  invoices_tbl (db (snd (updateProduct id pct w))) = invoices_tbl (db w)
  /\ products_tbl (db (snd (updateProduct id pct w))) = products_tbl (db w)
  /\ mem (snd (updateProduct id pct w)) = mem w.
Proof.
  unfold updateProduct, bind, call_fails, get_db, put_db, ret.
  destruct (faults w) as [|[|] fs]; simpl; auto.
Qed.

(** C9: changing a category's percentage ([updateProduct]) writes only
    the category table: the invoice rows, the stored line items (with the
    percentage and commission copied at save time) and the in-memory
    invoice list are untouched, so the monthly views, which read only the
    in-memory invoices, are unchanged. On the example, an invoice saved
    with A = 300 at 10% keeps its line item "A" at 10% and commission 30
    after category A is set to 50%. *)
Theorem frozen_line_items :
  (forall (id : string) (pct : Q) (w : World)
          (parse_other : string -> option Date) (y m : Z),
     let w' := snd (updateProduct id pct w) in
     invoices_tbl (db w') = invoices_tbl (db w)
     /\ products_tbl (db w') = products_tbl (db w)
     /\ mem w' = mem w
     /\ productsBreakdown (filteredInvoices parse_other (mem w') y m)
        = productsBreakdown (filteredInvoices parse_other (mem w) y m)
     /\ restBreakdown (filteredInvoices parse_other (mem w') y m)
        = restBreakdown (filteredInvoices parse_other (mem w) y m)
     /\ grandTotalCommission (filteredInvoices parse_other (mem w') y m)
        = grandTotalCommission (filteredInvoices parse_other (mem w) y m))
  /\ existsb (fun c => String.eqb (Calc.prod_id c) "a"
                       && Qeq_bool (Calc.prod_percentage c) 50)
             (categories_tbl (db (snd frozen_update))) = true
  /\ existsb (fun p => String.eqb (pr_product_name p) "A" && Qeq_bool (pr_percentage p) 10
                       && Qeq_bool (pr_commission p) 30)
             (products_tbl (db (snd frozen_update))) = true
  /\ existsb (fun i => existsb (fun p => String.eqb (product_name p) "A"
                                         && Qeq_bool (percentage p) 10
                                         && Qeq_bool (commission p) 30) (line_items i))
             (mem (snd frozen_update)) = true.
Proof.
  split.
  - intros id pct w parse_other y m. cbv zeta.
    destruct (updateProduct_frame id pct w) as [H1 [H2 H3]].
    rewrite H3. repeat split; assumption.
  - vm_compute. repeat split.
Qed.

(** The invoice saved at a 0% rest rate with no rest keeps its commission
    when the edit dialog is submitted unchanged: only the stored rate
    moves from 0 to 25. *)
Lemma zero_rest_edit_keeps_commission :
  match fst zero_save, fst zero_edit with
  | Some r0, Some (Some r1) =>
      r_rest_percentage r0 = Some 0 /\ r_rest_percentage r1 = Some 25
      /\ Qeq_bool (r_rest_amount r1) 0 = true
      /\ Qeq_bool (r_rest_commission r1) (r_rest_commission r0) = true
      /\ Qeq_bool (r_total_commission r1) (r_total_commission r0) = true
  | _, _ => False
  end.
Proof. vm_compute. repeat split. Qed.

Lemma edit_rest_rate_reset_witness :
  exists r' w', handleSubmit (open_dialog no_parse inv_zero) (inv_id inv_zero) w_zero
                = (Some (Some r'), w') /\ r_rest_percentage r' = Some 25.
Proof.
  assert (Hrate : rest_percentage inv_zero = None
                  \/ (exists p, rest_percentage inv_zero = Some p /\ p == 0))
    by (right; exists 0; split; [vm_compute; reflexivity|reflexivity]).
  assert (Hok : faults w_zero = []) by (vm_compute; reflexivity).
  assert (Hlen : (4 <= String.length (ncf inv_zero))%nat) by (vm_compute; lia).
  assert (Hdate : parseInvoiceDate no_parse (effective_date_string inv_zero)
                  = Some (mkDate 2024 2 10 0)) by (vm_compute; reflexivity).
  assert (Hrow : exists r, In r (invoices_tbl (db w_zero)) /\ r_id r = inv_id inv_zero)
    by (exists (hd row_default (invoices_tbl (db w_zero)));
        split; vm_compute; [left|]; reflexivity).
  assert (Hfree : forall x, In x (invoices_tbl (db w_zero)) ->
            r_ncf x = ncfPrefix ++ substring (String.length (ncf inv_zero) - 4) 4
                                              (ncf inv_zero) ->
            r_id x = inv_id inv_zero)
    by (intros x Hx _; vm_compute in Hx; destruct Hx as [<-|[]];
        vm_compute; reflexivity).
  destruct (edit_rest_rate_reset no_parse inv_zero w_zero _ Hrate Hok Hlen Hdate Hrow Hfree)
    as [r' [w' [E [_ [_ [HP _]]]]]].
  exists r', w'. split; assumption.
Defined.

Lemma ncf_uniqueness_witness :
  exists r', fst (updateInvoice (r_id row_over) (r_ncf row_over) "2024-03-11"
                                100 0 25 0 15 [] w_over) = Some r'.
Proof.
  assert (Hin : In row_over (invoices_tbl (db w_over))) by (vm_compute; left; reflexivity).
  assert (Huniq : NoDup (map r_ncf (invoices_tbl (db w_over))))
    by (vm_compute; constructor; [intros []|constructor]).
  assert (Hok : faults w_over = []) by (vm_compute; reflexivity).
  destruct (ncf_uniqueness w_over row_over "2024-03-11" 100 0 25 0 15 [] None
              Hin Huniq Hok) as [_ [r' [E _]]].
  exists r'. exact E.
Defined.

End StoreFacts.

(** ** Monthly Aggregator: further properties *)
Module BreakdownMore.
Import Dates DatesFacts Inv Breakdown BreakdownFacts.

Lemma js_pos_iff (x : Q) : js_pos x = true <-> 0 < x.
Proof.
  unfold js_pos. rewrite negb_true_iff. split; intro H.
  - apply Qnot_le_lt. intro H'. apply Qle_bool_iff in H'. congruence.
  - destruct (Qle_bool x 0) eqn:E; [|reflexivity].
    apply Qle_bool_iff in E. exfalso. exact (Qlt_not_le _ _ H E).
Qed.

Lemma Qle_bool_false_swap (a b : Q) : Qle_bool a b = false -> Qle_bool b a = true.
Proof.
  intro H. apply Qle_bool_iff. apply Qlt_le_weak. apply Qnot_le_lt.
  intro H'. apply Qle_bool_iff in H'. congruence.
Qed.

Lemma js_sum_nil : js_sum [] == 0.
Proof. reflexivity. Qed.

Lemma js_sum_perm (xs ys : list Q) : Permutation xs ys -> js_sum xs == js_sum ys.
Proof.
  induction 1 as [|x xs ys _ IH|x y l|xs ys zs _ IH1 _ IH2].
  - reflexivity.
  - rewrite !js_sum_cons, IH. reflexivity.
  - rewrite !js_sum_cons. ring.
  - rewrite IH1. exact IH2.
Qed.

Lemma insert_desc_perm (x : ProductBreakdown) (l : list ProductBreakdown) :
  Permutation (insert_desc x l) (x :: l).
Proof.
  induction l as [|y l IH]; simpl; [reflexivity|].
  destruct (Qle_bool (pb_totalAmount y) (pb_totalAmount x)); [reflexivity|].
  transitivity (y :: x :: l); [constructor; exact IH|apply perm_swap].
Qed.

Lemma sort_desc_perm (l : list ProductBreakdown) : Permutation (sort_desc l) l.
Proof.
  induction l as [|x l IH]; [reflexivity|].
  unfold sort_desc in *. cbn [fold_right].
  transitivity (x :: fold_right insert_desc [] l); [apply insert_desc_perm|].
  constructor; exact IH.
Qed.

Lemma insert_desc_sorted (x : ProductBreakdown) (l : list ProductBreakdown) :
  Sorted (fun a b => Qle_bool (pb_totalAmount b) (pb_totalAmount a) = true) l ->
  Sorted (fun a b => Qle_bool (pb_totalAmount b) (pb_totalAmount a) = true)
    (insert_desc x l).
Proof.
  induction l as [|y l IH]; intro H; simpl.
  - constructor; constructor.
  - destruct (Qle_bool (pb_totalAmount y) (pb_totalAmount x)) eqn:E.
    + constructor; [exact H|constructor; exact E].
    + apply Qle_bool_false_swap in E.
      inversion H as [|? ? Hs Hh]; subst.
      constructor; [apply IH; exact Hs|].
      destruct l as [|z l']; simpl; [constructor; exact E|].
      destruct (Qle_bool (pb_totalAmount z) (pb_totalAmount x));
        constructor; [exact E|inversion Hh; assumption].
Qed.



Lemma obj_set_in2 (o : Obj) (k : string) (v : ProductBreakdown) k2 v2 :
  In (k2, v2) (obj_set o k v) -> In (k2, v2) o \/ (k2 = k /\ v2 = v).
Proof.
  induction o as [|[k' v'] o IH]; simpl; intro H.
  - destruct H as [H|[]]. injection H as <- <-. right; split; reflexivity.
  - destruct (String.eqb_spec k k') as [E|E]; destruct H as [H|H].
    + injection H as <- <-. right; split; [symmetry; exact E|reflexivity].
    + left; right; exact H.
    + left; left; exact H.
    + destruct (IH H) as [Hv|Hk]; [left; right; exact Hv|right; exact Hk].
Qed.

Lemma obj_set_keys (o : Obj) (k : string) (v : ProductBreakdown) :
  map fst (obj_set o k v) =
  match own_get o k with Some _ => map fst o | None => (map fst o ++ [k])%list end.
Proof.
  induction o as [|[k' v'] o IH]; simpl; [reflexivity|].
  destruct (String.eqb_spec k k') as [E|E]; simpl; [reflexivity|].
  rewrite IH. destruct (own_get o k); reflexivity.
Qed.

Lemma own_get_none (o : Obj) (k : string) : own_get o k = None -> ~ In k (map fst o).
Proof.
  induction o as [|[k' v'] o IH]; simpl; [intros _ []|].
  destruct (String.eqb_spec k k') as [E|E]; [discriminate|].
  intros H [H'|H']; [congruence|exact (IH H H')].
Qed.

Lemma obj_set_sum (f : ProductBreakdown -> Q) (o : Obj) (k : string) (v : ProductBreakdown) :
  js_sum (map f (map snd (obj_set o k v))) ==
  js_sum (map f (map snd o))
  - match own_get o k with Some pb => f pb | None => 0 end + f v.
Proof.
  induction o as [|[k' v'] o IH]; simpl.
  - unfold js_sum; simpl. ring.
  - destruct (String.eqb_spec k k'); simpl; rewrite !js_sum_cons; [ring|].
    rewrite IH. ring.
Qed.

Lemma obj_set_nodup (o : Obj) (k : string) (v : ProductBreakdown) :
  NoDup (map fst o) -> NoDup (map fst (obj_set o k v)).
Proof.
  intro H. rewrite obj_set_keys. destruct (own_get o k) eqn:E; [exact H|].
  apply (@Permutation_NoDup _ (k :: map fst o)); [apply Permutation_cons_append|].
  constructor; [apply own_get_none; exact E|exact H].
Qed.

(** One line item: the groups stay named after their keys with distinct
    keys, and their sums grow by the item when its amount is positive. *)
Lemma add_product_step (inv : Invoice) (o o' : Obj) (p : InvoiceProduct) :
  (forall k v, In (k, v) o -> pb_name v = k) -> NoDup (map fst o) ->
  add_product inv (Some o) p = Some o' ->
  (forall k v, In (k, v) o' -> pb_name v = k) /\ NoDup (map fst o')
  /\ js_sum (map pb_totalAmount (map snd o')) ==
       js_sum (map pb_totalAmount (map snd o)) + (if js_pos (amount p) then amount p else 0)
  /\ js_sum (map pb_totalCommission (map snd o')) ==
       js_sum (map pb_totalCommission (map snd o))
       + (if js_pos (amount p) then commission p else 0).
Proof.
  intros Hn Hd H. unfold add_product in H. cbv zeta in H. unfold js_pos.
  destruct (Qle_bool (amount p) 0); simpl.
  { injection H as <-. repeat split; [exact Hn|exact Hd|ring|ring]. }
  unfold obj_get in H. destruct (own_get o (product_name p)) as [pb|] eqn:Eg.
  - injection H as <-. repeat split.
    + intros k v Hkv. destruct (obj_set_in2 _ _ _ _ _ Hkv) as [Hin|[-> ->]];
        [exact (Hn _ _ Hin)|]. simpl. exact (Hn _ _ (own_get_in _ _ _ Eg)).
    + apply obj_set_nodup; exact Hd.
    + rewrite obj_set_sum, Eg. simpl. ring.
    + rewrite obj_set_sum, Eg. simpl. ring.
  - destruct (existsb (String.eqb (product_name p)) proto_props); [discriminate|].
    injection H as <-. repeat split.
    + intros k v Hkv. destruct (obj_set_in2 _ _ _ _ _ Hkv) as [Hin|[-> ->]];
        [exact (Hn _ _ Hin)|reflexivity].
    + apply obj_set_nodup; exact Hd.
    + rewrite obj_set_sum, Eg. simpl. ring.
    + rewrite obj_set_sum, Eg. simpl. ring.
Qed.

Lemma fold_products_step (inv : Invoice) (ps : list InvoiceProduct) (o o' : Obj) :
  (forall k v, In (k, v) o -> pb_name v = k) -> NoDup (map fst o) ->
  fold_left (add_product inv) ps (Some o) = Some o' ->
  (forall k v, In (k, v) o' -> pb_name v = k) /\ NoDup (map fst o')
  /\ js_sum (map pb_totalAmount (map snd o')) ==
       js_sum (map pb_totalAmount (map snd o))
       + js_sum (map amount (filter (fun p => js_pos (amount p)) ps))
  /\ js_sum (map pb_totalCommission (map snd o')) ==
       js_sum (map pb_totalCommission (map snd o))
       + js_sum (map commission (filter (fun p => js_pos (amount p)) ps)).
Proof.
  revert o; induction ps as [|x ps IH]; cbn [fold_left]; intros o Hn Hd H.
  - injection H as <-. cbn [filter map flat_map]. repeat split; [exact Hn|exact Hd|rewrite js_sum_nil; ring|rewrite js_sum_nil; ring].
  - destruct (add_product inv (Some o) x) as [o1|] eqn:E;
      [|rewrite fold_add_product_none in H; discriminate].
    destruct (add_product_step _ _ _ _ Hn Hd E) as (Hn1 & Hd1 & Ha1 & Hc1).
    destruct (IH o1 Hn1 Hd1 H) as (Hn2 & Hd2 & Ha2 & Hc2).
    repeat split; [exact Hn2|exact Hd2| |].
    + rewrite Ha2, Ha1. simpl. destruct (js_pos (amount x)); simpl;
        [rewrite js_sum_cons|]; ring.
    + rewrite Hc2, Hc1. simpl. destruct (js_pos (amount x)); simpl;
        [rewrite js_sum_cons|]; ring.
Qed.

Lemma fold_invoices_step (invs : list Invoice) (o o' : Obj) :
  (forall k v, In (k, v) o -> pb_name v = k) -> NoDup (map fst o) ->
  fold_left add_invoice invs (Some o) = Some o' ->
  (forall k v, In (k, v) o' -> pb_name v = k) /\ NoDup (map fst o')
  /\ js_sum (map pb_totalAmount (map snd o')) ==
       js_sum (map pb_totalAmount (map snd o))
       + js_sum (map amount (flat_map (fun inv =>
           filter (fun p => js_pos (amount p)) (line_items inv)) invs))
  /\ js_sum (map pb_totalCommission (map snd o')) ==
       js_sum (map pb_totalCommission (map snd o))
       + js_sum (map commission (flat_map (fun inv =>
           filter (fun p => js_pos (amount p)) (line_items inv)) invs)).
Proof.
  revert o; induction invs as [|x invs IH]; cbn [fold_left]; intros o Hn Hd H.
  - injection H as <-. cbn [filter map flat_map]. repeat split; [exact Hn|exact Hd|rewrite js_sum_nil; ring|rewrite js_sum_nil; ring].
  - destruct (add_invoice (Some o) x) as [o1|] eqn:E;
      [|rewrite fold_add_invoice_none in H; discriminate].
    assert (Hx : (forall k v, In (k, v) o1 -> pb_name v = k) /\ NoDup (map fst o1)
      /\ js_sum (map pb_totalAmount (map snd o1)) ==
           js_sum (map pb_totalAmount (map snd o))
           + js_sum (map amount (filter (fun p => js_pos (amount p)) (line_items x)))
      /\ js_sum (map pb_totalCommission (map snd o1)) ==
           js_sum (map pb_totalCommission (map snd o))
           + js_sum (map commission (filter (fun p => js_pos (amount p)) (line_items x)))).
    { unfold add_invoice in E. unfold line_items.
      destruct (products x) as [ps|].
      - exact (fold_products_step _ _ _ _ Hn Hd E).
      - injection E as <-. cbn [filter map flat_map]. repeat split; [exact Hn|exact Hd|rewrite js_sum_nil; ring|rewrite js_sum_nil; ring]. }
    destruct Hx as (Hn1 & Hd1 & Ha1 & Hc1).
    destruct (IH o1 Hn1 Hd1 H) as (Hn2 & Hd2 & Ha2 & Hc2).
    repeat split; [exact Hn2|exact Hd2| |].
    + rewrite Ha2, Ha1. simpl. rewrite map_app, js_sum_app. ring.
    + rewrite Hc2, Hc1. simpl. rewrite map_app, js_sum_app. ring.
Qed.

Lemma insert_index_perm (kv : Z * ProductBreakdown) (l : list (Z * ProductBreakdown)) :
  Permutation (insert_index kv l) (kv :: l).
Proof.
  induction l as [|x l IH]; simpl; [reflexivity|].
  destruct (fst kv <? fst x)%Z; [reflexivity|].
  transitivity (x :: kv :: l); [constructor; exact IH|apply perm_swap].
Qed.

Lemma fold_insert_index_perm (l : list (Z * ProductBreakdown)) :
  Permutation (fold_right insert_index [] l) l.
Proof.
  induction l as [|x l IH]; [reflexivity|]. cbn [fold_right].
  transitivity (x :: fold_right insert_index [] l); [apply insert_index_perm|].
  constructor; exact IH.
Qed.

(** [Object.values] lists every own property once. *)
Lemma obj_values_perm (o : Obj) : Permutation (obj_values o) (map snd o).
Proof.
  unfold obj_values, index_props.
  transitivity
    (app (map snd (flat_map (fun '(k, v) => match array_index k with
                                       | Some i => [(i, v)] | None => [] end) o))
     (map snd (filter (fun '(k, _) => match array_index k with
                                     | Some _ => false | None => true end) o))).
  { apply Permutation_app_tail. apply Permutation_map. apply fold_insert_index_perm. }
  induction o as [|[k v] o IH]; simpl; [reflexivity|].
  destruct (array_index k); simpl.
  - constructor; exact IH.
  - symmetry. apply Permutation_cons_app. symmetry. exact IH.
Qed.

Lemma sort_desc_sorted (l : list ProductBreakdown) :
  Sorted (fun a b => Qle_bool (pb_totalAmount b) (pb_totalAmount a) = true) (sort_desc l).
Proof.
  induction l as [|x l IH]; [constructor|].
  unfold sort_desc in *. cbn [fold_right]. apply insert_desc_sorted. exact IH.
Qed.

Lemma names_keys (o : Obj) :
  (forall k v, In (k, v) o -> pb_name v = k) -> map pb_name (map snd o) = map fst o.
Proof.
  induction o as [|[k v] o IH]; intro H; simpl; [reflexivity|].
  rewrite (H k v (or_introl eq_refl)), IH; [reflexivity|].
  intros k' v' Hin. apply H. right; exact Hin.
Qed.

(** What [productsBreakdown] returns, when it returns: the values of an
    object whose keys are distinct and name their groups, sorted; the
    group sums add up the positive line items. *)
Lemma products_fold_ok (filtered : list Invoice) (gs : list ProductBreakdown) :
  productsBreakdown filtered = Some gs ->
  NoDup (map pb_name gs)
  /\ Sorted (fun a b => Qle_bool (pb_totalAmount b) (pb_totalAmount a) = true) gs
  /\ fold_left (fun s p => s + pb_totalAmount p) gs 0 ==
       js_sum (map amount (flat_map (fun inv =>
         filter (fun p => js_pos (amount p)) (line_items inv)) filtered))
  /\ fold_left (fun s p => s + pb_totalCommission p) gs 0 ==
       js_sum (map commission (flat_map (fun inv =>
         filter (fun p => js_pos (amount p)) (line_items inv)) filtered)).
Proof.
  intro H. unfold productsBreakdown in H.
  destruct (fold_left add_invoice filtered (Some [])) as [o|] eqn:E; [|discriminate].
  injection H as <-.
  destruct (fold_invoices_step filtered [] o (fun k v (Hf : In (k, v) []) => match Hf with end)
              (NoDup_nil _) E) as (Hn & Hd & Ha & Hc).
  assert (Hp : Permutation (sort_desc (obj_values o)) (map snd o))
    by (transitivity (obj_values o); [apply sort_desc_perm|apply obj_values_perm]).
  split; [|split; [apply sort_desc_sorted|split]].
  - apply (@Permutation_NoDup _ (map pb_name (map snd o))).
    + symmetry. apply Permutation_map. exact Hp.
    + rewrite names_keys by exact Hn. exact Hd.
  - rewrite StoreFacts.fold_left_plus_map. change (fold_left Qplus ?l 0) with (js_sum l).
    rewrite (js_sum_perm _ _ (Permutation_map _ Hp)), Ha.
    cbn [map]. rewrite js_sum_nil. ring.
  - rewrite StoreFacts.fold_left_plus_map. change (fold_left Qplus ?l 0) with (js_sum l).
    rewrite (js_sum_perm _ _ (Permutation_map _ Hp)), Hc.
    cbn [map]. rewrite js_sum_nil. ring.
Qed.

Lemma rest_fold (l : list Invoice) (acc : RestBreakdown) :
  rb_entries (fold_left add_rest l acc) =
    (rb_entries acc ++
     map (fun inv => mkEntry (ncf inv) (effective_date_string inv) (rest_amount inv))
         (filter (fun inv => js_pos (rest_amount inv)) l))%list
  /\ rb_totalAmount (fold_left add_rest l acc) ==
       rb_totalAmount acc
       + js_sum (map rest_amount (filter (fun inv => js_pos (rest_amount inv)) l))
  /\ rb_totalCommission (fold_left add_rest l acc) ==
       rb_totalCommission acc
       + js_sum (map rest_commission (filter (fun inv => js_pos (rest_amount inv)) l)).
Proof.
  revert acc; induction l as [|x l IH]; intro acc; cbn [fold_left filter map].
  - rewrite app_nil_r, js_sum_nil. repeat split; ring.
  - destruct (IH (add_rest acc x)) as (He & Ha & Hc).
    rewrite He, Ha, Hc. unfold add_rest.
    destruct (js_pos (rest_amount x)); cbn [rb_entries rb_totalAmount rb_totalCommission map].
    + rewrite <- app_assoc, !js_sum_cons. repeat split; ring.
    + repeat split; ring.
Qed.

(** X1: the comparator sort of [productsBreakdown] lists the groups by
    descending total amount and keeps every group exactly once. *)
Theorem sort_desc_sorted_perm (l : list ProductBreakdown) :
  Sorted (fun a b => Qle_bool (pb_totalAmount b) (pb_totalAmount a) = true) (sort_desc l)
  /\ Permutation (sort_desc l) l.
Proof.
  split; [apply sort_desc_sorted|apply sort_desc_perm].
Qed.

Lemma add_product_some (inv : Invoice) (o : Obj) (p : InvoiceProduct) :
  no_proto_keys o -> (0 < amount p -> ~ In (product_name p) proto_props) ->
  exists o', add_product inv (Some o) p = Some o'.
Proof.
  intros Ho Hp. unfold add_product. cbv zeta.
  destruct (Qle_bool (amount p) 0) eqn:Ea; [eexists; reflexivity|].
  assert (Hpos : 0 < amount p) by (apply js_pos_iff; unfold js_pos; rewrite Ea; reflexivity).
  unfold obj_get. destruct (own_get o (product_name p)); [eexists; reflexivity|].
  destruct (existsb (String.eqb (product_name p)) proto_props) eqn:Ep;
    [|eexists; reflexivity].
  exfalso. apply existsb_exists in Ep. destruct Ep as [x [Hx E]].
  apply String.eqb_eq in E. subst x. exact (Hp Hpos Hx).
Qed.

Lemma fold_products_some (inv : Invoice) (ps : list InvoiceProduct) (o : Obj) :
  no_proto_keys o ->
  (forall p, In p ps -> 0 < amount p -> ~ In (product_name p) proto_props) ->
  exists o', fold_left (add_product inv) ps (Some o) = Some o'.
Proof.
  revert o; induction ps as [|x ps IH]; intros o Ho H; cbn [fold_left];
    [eexists; reflexivity|].
  destruct (add_product_some inv o x Ho (H x (or_introl eq_refl))) as [o1 E].
  rewrite E. apply IH; [exact (add_product_keys _ _ _ _ Ho E)|].
  intros p Hp. apply H. right; exact Hp.
Qed.

Lemma fold_invoices_some (invs : list Invoice) (o : Obj) :
  no_proto_keys o ->
  (forall inv p, In inv invs -> In p (line_items inv) -> 0 < amount p ->
     ~ In (product_name p) proto_props) ->
  exists o', fold_left add_invoice invs (Some o) = Some o'.
Proof.
  revert o; induction invs as [|x invs IH]; intros o Ho H; cbn [fold_left];
    [eexists; reflexivity|].
  assert (Hx : exists o1, add_invoice (Some o) x = Some o1 /\ no_proto_keys o1).
  { unfold add_invoice. pose proof (H x) as Hx. unfold line_items in Hx.
    destruct (products x) as [ps|]; [|exists o; split; [reflexivity|exact Ho]].
    destruct (fold_products_some x ps o Ho (fun p Hp => Hx p (or_introl eq_refl) Hp))
      as [o1 E].
    exists o1. split; [exact E|exact (fold_products_keys _ _ _ _ Ho E)]. }
  destruct Hx as [o1 [E Ho1]]. rewrite E. apply IH; [exact Ho1|].
  intros inv p Hinv. apply H. right; exact Hinv.
Qed.

Lemma fold_invoices_proto (invs : list Invoice) (o : Obj) (inv : Invoice)
    (p : InvoiceProduct) :
  no_proto_keys o -> In inv invs -> In p (line_items inv) ->
  In (product_name p) proto_props -> 0 < amount p ->
  fold_left add_invoice invs (Some o) = None.
Proof.
  revert o; induction invs as [|x l IH]; intros o Ho Hinv Hp Hn Hpos; [destruct Hinv|].
  cbn [fold_left]. destruct Hinv as [ ->|Hinv].
  - replace (add_invoice (Some o) inv) with (@None Obj); [apply fold_add_invoice_none|].
    unfold add_invoice. unfold line_items in Hp. destruct (products inv); [|destruct Hp].
    symmetry. apply (fold_products_proto _ _ _ p Ho Hp Hn Hpos).
  - destruct (add_invoice (Some o) x) as [o1|] eqn:E.
    + apply (IH o1); [|exact Hinv|exact Hp|exact Hn|exact Hpos].
      unfold add_invoice in E. destruct (products x).
      * exact (fold_products_keys _ _ _ _ Ho E).
      * injection E as <-. exact Ho.
    + apply fold_add_invoice_none.
Qed.

(** X2: [productsBreakdown] fails (its [forEach] throws) exactly when a
    filtered invoice has a line item with a positive amount whose name is
    a property of [Object.prototype]; otherwise it returns the groups. *)
Theorem breakdown_fails_iff (filtered : list Invoice) :
  productsBreakdown filtered = None <->
  exists inv p, In inv filtered /\ In p (line_items inv)
                /\ In (product_name p) proto_props /\ 0 < amount p.
Proof.
  split.
  - intro H.
    destruct (existsb (fun inv => existsb (fun p =>
                existsb (String.eqb (product_name p)) proto_props && js_pos (amount p))
                (line_items inv)) filtered) eqn:Eb.
    + apply existsb_exists in Eb. destruct Eb as [inv [Hinv Eb]].
      apply existsb_exists in Eb. destruct Eb as [p [Hp Eb]].
      apply andb_true_iff in Eb. destruct Eb as [En Epos].
      apply existsb_exists in En. destruct En as [x [Hx E]].
      apply String.eqb_eq in E. subst x.
      exists inv, p. repeat split; [exact Hinv|exact Hp|exact Hx|apply js_pos_iff; exact Epos].
    + exfalso.
      assert (Hno : forall inv p, In inv filtered -> In p (line_items inv) -> 0 < amount p ->
                      ~ In (product_name p) proto_props).
      { intros inv p Hinv Hp Hpos Hn.
        assert (Ht : existsb (fun inv => existsb (fun p =>
                  existsb (String.eqb (product_name p)) proto_props && js_pos (amount p))
                  (line_items inv)) filtered = true).
        { apply existsb_exists. exists inv. split; [exact Hinv|].
          apply existsb_exists. exists p. split; [exact Hp|].
          apply andb_true_iff. split; [|apply js_pos_iff; exact Hpos].
          apply existsb_exists. exists (product_name p). split; [exact Hn|apply String.eqb_refl]. }
        congruence. }
      destruct (fold_invoices_some filtered [] (fun k v (Hf : In (k, v) []) => match Hf with end)
                  Hno) as [o E].
      unfold productsBreakdown in H. unfold Obj in E, H. rewrite E in H. discriminate.
  - intros (inv & p & Hinv & Hp & Hn & Hpos).
    unfold productsBreakdown.
    pose proof (fold_invoices_proto filtered [] inv p
                  (fun k v (Hf : In (k, v) []) => match Hf with end) Hinv Hp Hn Hpos) as H0.
    unfold Obj in H0 |- *. rewrite H0. reflexivity.
Qed.

(** X3: when [productsBreakdown] returns, each category name has one
    group, the groups come by descending total amount, and the groups'
    totals add up the amounts and the commissions of the line items with
    a positive amount of the filtered invoices. *)
Theorem breakdown_groups (filtered : list Invoice) (gs : list ProductBreakdown)
    (H : productsBreakdown filtered = Some gs) :
  NoDup (map pb_name gs)
  /\ Sorted (fun a b => Qle_bool (pb_totalAmount b) (pb_totalAmount a) = true) gs
  /\ fold_left (fun s p => s + pb_totalAmount p) gs 0 ==
       js_sum (map amount (flat_map (fun inv =>
         filter (fun p => js_pos (amount p)) (line_items inv)) filtered))
  /\ fold_left (fun s p => s + pb_totalCommission p) gs 0 ==
       js_sum (map commission (flat_map (fun inv =>
         filter (fun p => js_pos (amount p)) (line_items inv)) filtered)).
Proof. exact (products_fold_ok filtered gs H). Qed.

(** X4: the grand total commission of a month, when computed, is the sum
    of the commissions of the line items with a positive amount plus the
    rest commissions of the invoices with a positive rest amount. *)
Theorem grand_total_split (filtered : list Invoice) (g : Q)
    (H : grandTotalCommission filtered = Some g) :
  g == js_sum (map commission (flat_map (fun inv =>
         filter (fun p => js_pos (amount p)) (line_items inv)) filtered))
       + js_sum (map rest_commission (filter (fun inv => js_pos (rest_amount inv)) filtered)).
Proof.
  unfold grandTotalCommission in H.
  destruct (productsBreakdown filtered) as [gs|] eqn:E; [|discriminate].
  injection H as <-.
  destruct (products_fold_ok filtered gs E) as (_ & _ & _ & Hc).
  destruct (rest_fold filtered (mkRest [] 0 0)) as (_ & _ & Hr).
  unfold restBreakdown. rewrite Hc, Hr. cbn [rb_totalCommission]. ring.
Qed.

(** X5: [restBreakdown] lists, in order, one entry per filtered invoice
    with a positive rest amount (its NCF, date and rest amount), and its
    totals are the sums of those invoices' rest amounts and rest
    commissions; invoices with a rest amount of 0 or less are left out. *)
Theorem rest_breakdown_exact (filtered : list Invoice) :
  rb_entries (restBreakdown filtered) =
    map (fun inv => mkEntry (ncf inv) (effective_date_string inv) (rest_amount inv))
        (filter (fun inv => js_pos (rest_amount inv)) filtered)
  /\ rb_totalAmount (restBreakdown filtered) ==
       js_sum (map rest_amount (filter (fun inv => js_pos (rest_amount inv)) filtered))
  /\ rb_totalCommission (restBreakdown filtered) ==
       js_sum (map rest_commission (filter (fun inv => js_pos (rest_amount inv)) filtered)).
Proof.
  unfold restBreakdown.
  destruct (rest_fold filtered (mkRest [] 0 0)) as (He & Ha & Hc).
  rewrite He, Ha, Hc. cbn [rb_entries rb_totalAmount rb_totalCommission app].
  repeat split; ring.
Qed.


Lemma breakdown_groups_witness :
  exists gs, productsBreakdown [Examples.inv_plain; Examples.inv_mix] = Some gs
  /\ NoDup (map pb_name gs)
  /\ fold_left (fun s p => s + pb_totalAmount p) gs 0 ==
       js_sum (map amount (flat_map (fun inv =>
         filter (fun p => js_pos (amount p)) (line_items inv))
         [Examples.inv_plain; Examples.inv_mix])).
Proof.
  pose (gs := match productsBreakdown [Examples.inv_plain; Examples.inv_mix] with
              | Some g => g | None => [] end).
  assert (H : productsBreakdown [Examples.inv_plain; Examples.inv_mix] = Some gs)
    by (vm_compute; reflexivity).
  destruct (breakdown_groups _ gs H) as (H1 & _ & H3 & _).
  exists gs. split; [exact H|split; [exact H1|exact H3]].
Defined.

Lemma grand_total_split_witness :
  exists g, grandTotalCommission [Examples.inv_plain; Examples.inv_mix] = Some g
  /\ g == js_sum (map commission (flat_map (fun inv =>
            filter (fun p => js_pos (amount p)) (line_items inv))
            [Examples.inv_plain; Examples.inv_mix]))
          + js_sum (map rest_commission (filter (fun inv => js_pos (rest_amount inv))
            [Examples.inv_plain; Examples.inv_mix])).
Proof.
  pose (g := match grandTotalCommission [Examples.inv_plain; Examples.inv_mix] with
             | Some g => g | None => 0 end).
  assert (H : grandTotalCommission [Examples.inv_plain; Examples.inv_mix] = Some g)
    by (vm_compute; reflexivity).
  exists g. split; [exact H|exact (grand_total_split _ g H)].
Defined.

End BreakdownMore.

(** ** Facts about the string and number conversions *)
Module TextFacts.
Import Dates Store JsText.

Lemma list_ascii_app (s1 s2 : string) :
  list_ascii_of_string (s1 ++ s2) = (list_ascii_of_string s1 ++ list_ascii_of_string s2)%list.
Proof. induction s1 as [|c s1 IH]; simpl; [reflexivity|rewrite IH; reflexivity]. Qed.

Lemma length_chars (s : string) : String.length s = List.length (list_ascii_of_string s).
Proof. induction s as [|c s IH]; simpl; [reflexivity|rewrite IH; reflexivity]. Qed.

Lemma zeros_chars (k : nat) : list_ascii_of_string (zeros k) = repeat "0"%char k.
Proof. induction k as [|k IH]; simpl; [reflexivity|rewrite IH; reflexivity]. Qed.

Lemma padStart_chars (k : nat) (s : string) :
  list_ascii_of_string (padStart k s) =
  (repeat "0"%char (k - String.length s) ++ list_ascii_of_string s)%list.
Proof. unfold padStart. rewrite list_ascii_app, zeros_chars. reflexivity. Qed.

Lemma digits_of_app (f : nat) (n : Z) (acc : list ascii) :
  digits_of f n acc = (digits_of f n [] ++ acc)%list.
Proof.
  revert n acc; induction f as [|f IH]; intros n acc; simpl; [reflexivity|].
  destruct (n <? 10)%Z; [reflexivity|].
  rewrite IH, (IH _ [_]), <- app_assoc. reflexivity.
Qed.

Lemma digits_val_app (xs ys : list ascii) (a : Z) :
  digits_val (xs ++ ys) a =
  match digits_val xs a with Some v => digits_val ys v | None => None end.
Proof.
  revert a; induction xs as [|c xs IH]; intro a; simpl; [reflexivity|].
  destruct (digit c); [apply IH|reflexivity].
Qed.

Lemma digit_char (r : Z) :
  (0 <= r < 10)%Z -> digit (ascii_of_nat (48 + Z.to_nat r)) = Some r.
Proof.
  intro H.
  assert (r = 0 \/ r = 1 \/ r = 2 \/ r = 3 \/ r = 4 \/ r = 5 \/ r = 6 \/ r = 7 \/
          r = 8 \/ r = 9)%Z as Hr by lia.
  repeat (destruct Hr as [->|Hr]; [reflexivity|]). subst r. reflexivity.
Qed.

Lemma digits_of_val (f : nat) (n : Z) :
  (0 <= n < 10 ^ Z.of_nat f)%Z -> digits_val (digits_of f n []) 0 = Some n.
Proof.
  revert n; induction f as [|f IH]; intros n Hn.
  - simpl in Hn. simpl. f_equal. lia.
  - cbn [digits_of]. destruct (n <? 10)%Z eqn:E.
    + apply Z.ltb_lt in E. cbn [digits_val].
      rewrite digit_char by (apply Z.mod_pos_bound; lia).
      cbn [digits_val]. f_equal. rewrite Z.mod_small by lia. lia.
    + apply Z.ltb_ge in E.
      rewrite digits_of_app, digits_val_app, IH.
      * cbn [digits_val]. rewrite digit_char by (apply Z.mod_pos_bound; lia).
        cbn [digits_val]. f_equal. pose proof (Z.div_mod n 10). lia.
      * rewrite Nat2Z.inj_succ, Z.pow_succ_r in Hn by lia.
        split; [apply Z.div_pos; lia|]. apply Z.div_lt_upper_bound; lia.
Qed.

Lemma is_digit_char (r : Z) :
  (0 <= r < 10)%Z -> is_digit (ascii_of_nat (48 + Z.to_nat r)) = true.
Proof. intro H. unfold is_digit. rewrite digit_char by exact H. reflexivity. Qed.

Lemma digits_of_digits (f : nat) (n : Z) :
  (0 <= n)%Z -> Forall (fun c => is_digit c = true) (digits_of f n []).
Proof.
  revert n; induction f as [|f IH]; intros n Hn; cbn [digits_of]; [constructor|].
  destruct (n <? 10)%Z.
  - constructor; [apply is_digit_char; apply Z.mod_pos_bound; lia|constructor].
  - rewrite digits_of_app. apply Forall_app. split.
    + apply IH. apply Z.div_pos; lia.
    + constructor; [apply is_digit_char; apply Z.mod_pos_bound; lia|constructor].
Qed.

Lemma digits_of_len_le (f k : nat) (n : Z) :
  (1 <= k)%nat -> (0 <= n < 10 ^ Z.of_nat k)%Z -> (List.length (digits_of f n []) <= k)%nat.
Proof.
  revert k n; induction f as [|f IH]; intros k n Hk Hn; cbn [digits_of]; [cbn [List.length]; lia|].
  destruct (n <? 10)%Z eqn:E; [cbn [List.length]; lia|].
  apply Z.ltb_ge in E. rewrite digits_of_app, length_app. cbn [List.length].
  destruct k as [|[|k]]; [lia| |].
  - simpl in Hn. lia.
  - assert (Hk' : (List.length (digits_of f (n / 10) []) <= S k)%nat).
    { apply IH; [lia|]. split; [apply Z.div_pos; lia|].
      apply Z.div_lt_upper_bound; [lia|].
      replace (Z.of_nat (S (S k))) with (Z.succ (Z.of_nat (S k))) in Hn by lia.
      rewrite Z.pow_succ_r in Hn by lia. exact (proj2 Hn). }
    lia.
Qed.

Lemma digits_of_len_gt (f k : nat) (n : Z) :
  (10 ^ Z.of_nat k <= n)%Z -> (k < f)%nat -> (k < List.length (digits_of f n []))%nat.
Proof.
  revert f n; induction k as [|k IH]; intros f n Hn Hf;
    (destruct f as [|f]; [lia|]); cbn [digits_of].
  - destruct (n <? 10)%Z; [cbn [List.length]; lia|].
    rewrite digits_of_app, length_app. cbn [List.length]. lia.
  - assert (E : (n <? 10)%Z = false).
    { apply Z.ltb_ge. rewrite Nat2Z.inj_succ, Z.pow_succ_r in Hn by lia.
      pose proof (Z.pow_pos_nonneg 10 (Z.of_nat k)). lia. }
    rewrite E, digits_of_app, length_app. cbn [List.length].
    assert (k < List.length (digits_of f (n / 10) []))%nat; [|lia].
    apply IH; [|lia].
    apply Z.div_le_lower_bound; [lia|].
    rewrite Nat2Z.inj_succ, Z.pow_succ_r in Hn by lia. exact Hn.
Qed.

Lemma zeros_val (k : nat) (xs : list ascii) :
  digits_val (repeat "0"%char k ++ xs) 0 = digits_val xs 0.
Proof. induction k as [|k IH]; simpl; [reflexivity|exact IH]. Qed.

Lemma z_to_string_chars (n : Z) : list_ascii_of_string (z_to_string n) = digits_of 64 n [].
Proof. unfold z_to_string. apply list_ascii_of_string_of_list_ascii. Qed.

(** [String(n).padStart(k, '0')] for [0 <= n < 10^k]: [k] decimal digits
    that read back as [n]. *)
Lemma pad_digits (k : nat) (n : Z) :
  (1 <= k <= 64)%nat -> (0 <= n < 10 ^ Z.of_nat k)%Z ->
  List.length (list_ascii_of_string (padStart k (z_to_string n))) = k
  /\ Forall (fun c => is_digit c = true) (list_ascii_of_string (padStart k (z_to_string n)))
  /\ digits_val (list_ascii_of_string (padStart k (z_to_string n))) 0 = Some n.
Proof.
  intros Hk Hn. rewrite padStart_chars, length_chars, z_to_string_chars.
  pose proof (digits_of_len_le 64 k n (proj1 Hk) Hn) as Hl.
  split; [|split].
  - rewrite length_app, repeat_length. lia.
  - apply Forall_app. split.
    + apply Forall_forall. intros c Hc. apply repeat_spec in Hc. subst c. reflexivity.
    + apply digits_of_digits. lia.
  - rewrite zeros_val. apply digits_of_val. split; [lia|].
    apply (Z.lt_le_trans _ _ _ (proj2 Hn)). apply Z.pow_le_mono_r; lia.
Qed.

Ltac ascii_cases c :=
  destruct c as [[] [] [] [] [] [] [] []].

Lemma digit_not_ws (c : ascii) : is_digit c = true -> is_ws c = false.
Proof. intro H. ascii_cases c; try (vm_compute in H; discriminate H); reflexivity. Qed.

Lemma digit_not_dash (c : ascii) : is_digit c = true -> Ascii.eqb c "-"%char = false.
Proof. intro H. ascii_cases c; try (vm_compute in H; discriminate H); reflexivity. Qed.

Lemma trim_start_digits (l : list ascii) :
  Forall (fun c => is_digit c = true) l -> trim_start l = l.
Proof.
  intro H. destruct l as [|c l]; [reflexivity|]. inversion H as [|? ? Hc _]; subst.
  simpl. rewrite (digit_not_ws c Hc). reflexivity.
Qed.

Lemma trim_digits (l : list ascii) :
  Forall (fun c => is_digit c = true) l -> trim_chars l = l.
Proof.
  intro H. unfold trim_chars. rewrite (trim_start_digits l H).
  rewrite trim_start_digits; [apply rev_involutive|]. apply Forall_rev. exact H.
Qed.

Lemma digit_prefix_all (l : list ascii) :
  Forall (fun c => is_digit c = true) l -> digit_prefix l = l.
Proof.
  induction 1 as [|c l Hc _ IH]; simpl; [reflexivity|]. rewrite Hc, IH. reflexivity.
Qed.

(** [Number] of a non-empty run of digits is its value. *)
Lemma js_Number_digits (l : list ascii) :
  l <> [] -> Forall (fun c => is_digit c = true) l ->
  js_Number (string_of_list_ascii l) = digits_val l 0.
Proof.
  intros Hne H. unfold js_Number.
  rewrite list_ascii_of_string_of_list_ascii, (trim_digits l H).
  destruct l as [|c l]; [congruence|]. inversion H as [|? ? Hc _]; subst.
  ascii_cases c; try (vm_compute in Hc; discriminate Hc); reflexivity.
Qed.

(** [parseInt(s, 10)] of a non-empty run of digits is its value. *)
Lemma parseInt_digits (l : list ascii) :
  l <> [] -> Forall (fun c => is_digit c = true) l ->
  js_parseInt10 (string_of_list_ascii l) = digits_val l 0.
Proof.
  intros Hne H. unfold js_parseInt10.
  rewrite list_ascii_of_string_of_list_ascii, (trim_start_digits l H).
  assert (Hv : option_map (Z.mul 1) (digits_nonempty (digit_prefix l)) = digits_val l 0).
  { rewrite (digit_prefix_all l H). destruct l as [|c l]; [congruence|].
    unfold digits_nonempty. destruct (digits_val (c :: l) 0); [|reflexivity].
    cbn [option_map]. rewrite Z.mul_1_l. reflexivity. }
  rewrite <- Hv. destruct l as [|c l]; [congruence|]. inversion H as [|? ? Hc _]; subst.
  ascii_cases c; try (vm_compute in Hc; discriminate Hc); reflexivity.
Qed.

Lemma split_no_sep (sep : ascii) (l : list ascii) :
  Forall (fun c => Ascii.eqb c sep = false) l -> split_chars sep l = [l].
Proof.
  induction 1 as [|c l Hc _ IH]; simpl; [reflexivity|]. rewrite Hc, IH. reflexivity.
Qed.

Lemma split_sep (sep : ascii) (xs ys : list ascii) :
  Forall (fun c => Ascii.eqb c sep = false) xs ->
  split_chars sep (xs ++ sep :: ys) = xs :: split_chars sep ys.
Proof.
  induction 1 as [|c l Hc _ IH]; simpl; [rewrite Ascii.eqb_refl; reflexivity|].
  rewrite Hc, IH. reflexivity.
Qed.

Lemma digits_no_dash (l : list ascii) :
  Forall (fun c => is_digit c = true) l -> Forall (fun c => Ascii.eqb c "-"%char = false) l.
Proof. intro H. eapply Forall_impl; [|exact H]. intros c. apply digit_not_dash. Qed.

Lemma substring0_chars (n : nat) (s : string) :
  list_ascii_of_string (substring 0 n s) = firstn n (list_ascii_of_string s).
Proof.
  revert n; induction s as [|c s IH]; intro n; destruct n; simpl; try reflexivity.
  rewrite IH. reflexivity.
Qed.

Lemma substring_all (s : string) : substring 0 (String.length s) s = s.
Proof. induction s as [|c s IH]; simpl; [reflexivity|rewrite IH; reflexivity]. Qed.

Lemma substring_suffix (a b : string) :
  substring (String.length a) (String.length b) (a ++ b) = b.
Proof. induction a as [|c a IH]; simpl; [apply substring_all|exact IH]. Qed.

Lemma length_append (a b : string) :
  String.length (a ++ b) = (String.length a + String.length b)%nat.
Proof. induction a as [|c a IH]; simpl; [reflexivity|rewrite IH; reflexivity]. Qed.

End TextFacts.

(** ** Month keys and date strings: properties *)
Module MonthKeysFacts.
Import Dates DatesFacts Inv Breakdown Store JsText MonthKeys TextFacts.

Lemma js_String_nonneg (n : Z) : (0 <= n)%Z -> js_String_Z n = z_to_string n.
Proof. intro H. unfold js_String_Z. replace (n <? 0)%Z with false by (symmetry; apply Z.ltb_ge; lia). reflexivity. Qed.

Lemma digits_of_nonempty (f : nat) (n : Z) : digits_of (S f) n [] <> [].
Proof.
  cbn [digits_of]. destruct (n <? 10)%Z; [discriminate|].
  rewrite digits_of_app. destruct (digits_of f (n / 10) []); discriminate.
Qed.

Lemma new_Date_valid (y m d : Z) :
  ~ (0 <= y <= 99)%Z ->
  (0 <= m <= 11)%Z -> (1 <= d <= dim y m)%Z -> new_Date y m d = mkDate y m d 0.
Proof.
  intros Hy Hm Hd. unfold new_Date. rewrite (full_year_keep y Hy).
  rewrite (Z.div_small m 12) by lia. rewrite (Z.mod_small m 12) by lia.
  rewrite Z.add_0_r. cbn [norm_day].
  replace (d <? 1)%Z with false by (symmetry; apply Z.ltb_ge; lia).
  replace (dim y m <? d)%Z with false by (symmetry; apply Z.ltb_ge; lia).
  reflexivity.
Qed.

Lemma getMonthKey_parts (d : Date) :
  (0 <= mon d <= 11)%Z -> (0 <= yr d <= 275760)%Z ->
  month_key_parts (getMonthKey d) = Some (yr d, mon d + 1)%Z.
Proof.
  intros Hm Hy. unfold month_key_parts, getMonthKey, js_split.
  rewrite (js_String_nonneg (yr d)) by lia. rewrite (js_String_nonneg (mon d + 1)) by lia.
  rewrite !list_ascii_app, z_to_string_chars. cbn [list_ascii_of_string app].
  destruct (pad_digits 2 (mon d + 1)) as (Lm & Dm & Vm); [lia|simpl; lia|].
  rewrite split_sep by (apply digits_no_dash, digits_of_digits; lia).
  rewrite split_no_sep by (apply digits_no_dash; exact Dm).
  cbn [map].
  rewrite js_Number_digits; [|apply digits_of_nonempty|apply digits_of_digits; lia].
  rewrite js_Number_digits; [|intro E; rewrite E in Lm; discriminate|exact Dm].
  rewrite digits_of_val by (split; [lia|]; apply (Z.le_lt_trans _ 275760); [lia|reflexivity]).
  rewrite Vm. reflexivity.
Qed.

Lemma set_add_in (s : list string) (k x : string) :
  In x (set_add s k) <-> In x s \/ x = k.
Proof.
  unfold set_add. destruct (existsb (String.eqb k) s) eqn:E.
  - split; [intro H; left; exact H|]. intros [H| ->]; [exact H|].
    apply existsb_exists in E. destruct E as [y [Hy E]]. apply String.eqb_eq in E.
    subst y. exact Hy.
  - rewrite in_app_iff. simpl. split.
    + intros [H|[H|[]]]; [left; exact H|right; symmetry; exact H].
    + intros [H|H]; [left; exact H|right; left; symmetry; exact H].
Qed.

Lemma set_add_nodup (s : list string) (k : string) : NoDup s -> NoDup (set_add s k).
Proof.
  intro H. unfold set_add. destruct (existsb (String.eqb k) s) eqn:E; [exact H|].
  apply (@Permutation_NoDup _ (k :: s)); [apply Permutation_cons_append|].
  constructor; [|exact H]. intro Hk.
  assert (existsb (String.eqb k) s = true)
    by (apply existsb_exists; exists k; split; [exact Hk|apply String.eqb_refl]).
  congruence.
Qed.

Lemma fold_set_add {A} (f : A -> string) (l : list A) (s : list string) :
  NoDup s ->
  NoDup (fold_left (fun s a => set_add s (f a)) l s)
  /\ forall x, In x (fold_left (fun s a => set_add s (f a)) l s) <->
               In x s \/ exists a, In a l /\ x = f a.
Proof.
  revert s; induction l as [|a l IH]; intros s Hs; cbn [fold_left].
  - split; [exact Hs|]. intro x. split; [intro H; left; exact H|].
    intros [H|[a [[] _]]]; exact H.
  - destruct (IH (set_add s (f a)) (set_add_nodup _ _ Hs)) as [Hn Hi].
    split; [exact Hn|]. intro x. rewrite Hi, set_add_in. split.
    + intros [[H|H]|[b [Hb H]]]; [left; exact H|right; exists a; split; [left|]; auto|].
      right; exists b; split; [right|]; auto.
    + intros [H|[b [[<-|Hb] H]]]; [left; left; exact H|left; right; exact H|].
      right; exists b; split; auto.
Qed.

Lemma insert_str_perm (x : string) (l : list string) : Permutation (insert_str x l) (x :: l).
Proof.
  induction l as [|y l IH]; simpl; [reflexivity|].
  destruct (String.ltb y x); [|reflexivity].
  transitivity (y :: x :: l); [constructor; exact IH|apply perm_swap].
Qed.

Lemma sort_strings_perm (l : list string) : Permutation (sort_strings l) l.
Proof.
  induction l as [|x l IH]; [reflexivity|]. unfold sort_strings in *. cbn [fold_right].
  transitivity (x :: fold_right insert_str [] l); [apply insert_str_perm|].
  constructor; exact IH.
Qed.

Lemma ltb_leb (a b : string) : String.ltb a b = true -> String.leb a b = true.
Proof.
  unfold String.ltb, String.leb. destruct (String.compare a b); congruence.
Qed.

Lemma ltb_false_leb (a b : string) : String.ltb a b = false -> String.leb b a = true.
Proof.
  unfold String.ltb, String.leb. rewrite (String.compare_antisym b a).
  destruct (String.compare a b); simpl; congruence.
Qed.

Lemma insert_str_sorted (x : string) (l : list string) :
  Sorted (fun a b => String.leb a b = true) l ->
  Sorted (fun a b => String.leb a b = true) (insert_str x l).
Proof.
  induction l as [|y l IH]; intro H; simpl; [constructor; constructor|].
  destruct (String.ltb y x) eqn:E.
  - inversion H as [|? ? Hs Hh]; subst. constructor; [apply IH; exact Hs|].
    destruct l as [|z l']; simpl; [constructor; apply ltb_leb; exact E|].
    destruct (String.ltb z x); constructor;
      [inversion Hh; assumption|apply ltb_leb; exact E].
  - constructor; [exact H|]. constructor. apply ltb_false_leb. exact E.
Qed.

Lemma sort_strings_sorted (l : list string) :
  Sorted (fun a b => String.leb a b = true) (sort_strings l).
Proof.
  induction l as [|x l IH]; [constructor|]. unfold sort_strings in *. cbn [fold_right].
  apply insert_str_sorted. exact IH.
Qed.

Lemma sorted_app_last {A} (R : A -> A -> Prop) (l : list A) (x : A) :
  Sorted R l -> (forall y, last l x = y -> l <> [] -> R y x) -> Sorted R (l ++ [x]).
Proof.
  induction 1 as [|a l Hs IH Hh]; intro Hl; simpl; [constructor; constructor|].
  constructor.
  - apply IH. intros y Hy Hne. apply Hl; [|discriminate].
    destruct l as [|b l]; [congruence|]. exact Hy.
  - destruct l as [|b l]; simpl.
    + constructor. apply Hl; [reflexivity|discriminate].
    + constructor. inversion Hh; assumption.
Qed.

Lemma sorted_rev {A} (R : A -> A -> Prop) (l : list A) :
  Sorted R l -> Sorted (fun a b => R b a) (rev l).
Proof.
  induction 1 as [|a l Hs IH Hh]; simpl; [constructor|].
  apply sorted_app_last; [exact IH|]. intros y Hy Hne.
  destruct l as [|b l]; [simpl in Hne; congruence|]. subst y.
  simpl. rewrite last_last.
  inversion Hh as [|? ? Hab]. exact Hab.
Qed.


(** [parseInvoiceDate] reads a [yyyy-MM-dd] string back to its day. *)
Lemma format_ymd_parse (parse_other : string -> option Date) (d : Date)
  (Hv : valid_date d) (Hy : (100 <= yr d <= 9999)%Z) :
  parseInvoiceDate parse_other (format_ymd d) = Some (mkDate (yr d) (mon d) (day d) 0).
Proof.
  destruct Hv as (Hm & Hd & _). pose proof (dim_range (yr d) (mon d)) as Hdim.
  unfold parseInvoiceDate, date_only_parts, format_ymd.
  replace (0 <? yr d)%Z with true by (symmetry; apply Z.ltb_lt; lia). cbv zeta.
  rewrite !list_ascii_app. cbn [list_ascii_of_string app].
  destruct (pad_digits 4 (yr d)) as (Ly & _ & Vy); [lia|simpl; lia|].
  destruct (pad_digits 2 (mon d + 1)) as (Lm & _ & Vm); [lia|simpl; lia|].
  destruct (pad_digits 2 (day d)) as (Ld & _ & Vd); [lia|simpl; lia|].
  revert Ly Vy Lm Vm Ld Vd.
  generalize (list_ascii_of_string (padStart 4 (z_to_string (yr d)))) as ly.
  generalize (list_ascii_of_string (padStart 2 (z_to_string (mon d + 1)))) as lm.
  generalize (list_ascii_of_string (padStart 2 (z_to_string (day d)))) as ld.
  intros ld lm ly Ly Vy Lm Vm Ld Vd.
  destruct ly as [|y1 [|y2 [|y3 [|y4 [|? ?]]]]]; try discriminate Ly.
  destruct lm as [|m1 [|m2 [|? ?]]]; try discriminate Lm.
  destruct ld as [|d1 [|d2 [|? ?]]]; try discriminate Ld.
  cbn [app]. cbv beta iota. rewrite Vy, Vm, Vd.
  rewrite Z.add_simpl_r, new_Date_valid by lia. reflexivity.
Qed.

(** X6: [format(d, 'yyyy-MM-dd')] read back by [parseInvoiceDate] gives the
    local midnight of the same calendar day, for a year of 100 to 9999
    (the [Date] constructor reads the years 0 to 99 as 1900 to 1999). *)
Theorem format_parse_roundtrip (parse_other : string -> option Date) (d : Date)
  (Hv : valid_date d) (Hy : (100 <= yr d <= 9999)%Z) :
  parseInvoiceDate parse_other (format_ymd d) = Some (mkDate (yr d) (mon d) (day d) 0).
Proof. exact (format_ymd_parse parse_other d Hv Hy). Qed.

(** X7: the month key [getMonthKey] gives an invoice's parsed date splits
    back into that date's year and 1-based month, and the invoice is among
    the invoices [filteredInvoices] shows for that month, for a year from
    100 on (the [Date] constructor reads the years 0 to 99 as 1900 to
    1999). *)
Theorem month_key_selects (parse_other : string -> option Date)
  (invoices : list Invoice) (inv : Invoice) (d : Date)
  (Hin : In inv invoices)
  (Hp : parseInvoiceDate parse_other (effective_date_string inv) = Some d)
  (Hv : valid_date d) (Hy : (100 <= yr d <= 275760)%Z) :
  month_key_parts (getMonthKey d) = Some (yr d, mon d + 1)%Z
  /\ In inv (filteredInvoices parse_other invoices (yr d) (mon d + 1)).
Proof.
  pose proof Hv as (Hm & _). split; [apply getMonthKey_parts; lia|].
  unfold filteredInvoices. rewrite new_Date_first by lia.
  apply filter_In. split; [exact Hin|].
  unfold in_selected. rewrite Hp.
  change (within_month (yr d) (mon d + 1) d = true).
  apply within_month_iff; [exact Hv|]. split; [reflexivity|lia].
Qed.

(** X8: [months] lists each key once, in descending code-unit order, and
    holds exactly the keys of the current and the three previous months
    and the keys of the invoices' dates. *)
Theorem months_spec (parse_other : string -> option Date) (now : Date)
  (invoices : list Invoice) :
  let ms := months parse_other now invoices in
  NoDup ms /\ Sorted (fun a b => String.leb b a = true) ms
  /\ forall k, In k ms <->
       (exists i, (i < 4)%nat /\ k = getMonthKey (new_Date (yr now) (mon now - Z.of_nat i) 1))
       \/ (exists inv, In inv invoices /\
             k = month_key_of (parseInvoiceDate parse_other (effective_date_string inv))).
Proof.
  unfold months. cbv zeta.
  set (recent := map (fun i => getMonthKey (new_Date (yr now) (mon now - Z.of_nat i) 1))
                     (seq 0 4)).
  destruct (fold_set_add (fun k => k) recent [] (NoDup_nil _)) as [N1 I1].
  set (s1 := fold_left (fun s a => set_add s a) recent []) in *.
  change (fold_left set_add recent []) with s1.
  destruct (fold_set_add (fun inv => month_key_of (parseInvoiceDate parse_other
              (effective_date_string inv))) invoices s1 N1) as [N2 I2].
  set (s2 := fold_left _ invoices s1) in *.
  pose proof (sort_strings_perm s2) as P.
  split; [|split].
  - apply NoDup_rev. exact (Permutation_NoDup (Permutation_sym P) N2).
  - apply (sorted_rev (fun a b => String.leb a b = true)). apply sort_strings_sorted.
  - intro k. rewrite <- in_rev. split.
    + intro H. apply (Permutation_in _ P) in H. apply I2 in H.
      destruct H as [H|H]; [left|right; exact H].
      apply I1 in H. destruct H as [[]|[a [Ha ->]]].
      unfold recent in Ha. apply in_map_iff in Ha. destruct Ha as [i [<- Hi]].
      apply in_seq in Hi. exists i. split; [lia|reflexivity].
    + intro H. apply (Permutation_in _ (Permutation_sym P)). apply I2.
      destruct H as [[i [Hi ->]]|H]; [left|right; exact H].
      apply I1. right. eexists. split; [|reflexivity].
      unfold recent. apply (in_map (fun i => getMonthKey (new_Date (yr now) (mon now - Z.of_nat i) 1))).
      apply in_seq. lia.
Qed.


Lemma format_parse_roundtrip_witness :
  valid_date (mkDate 2024 2 15 0)
  /\ parseInvoiceDate Examples.no_parse (format_ymd (mkDate 2024 2 15 0))
     = Some (mkDate 2024 2 15 0).
Proof.
  assert (Hv : valid_date (mkDate 2024 2 15 0)) by (unfold valid_date; simpl; lia).
  assert (Hy : (100 <= yr (mkDate 2024 2 15 0) <= 9999)%Z) by (simpl; lia).
  split; [exact Hv|].
  exact (format_parse_roundtrip Examples.no_parse (mkDate 2024 2 15 0) Hv Hy).
Defined.

Lemma month_key_selects_witness :
  month_key_parts (getMonthKey (mkDate 2024 2 10 0)) = Some (2024, 3)%Z
  /\ In Examples.inv_plain
       (filteredInvoices Examples.no_parse [Examples.inv_plain] 2024 3).
Proof.
  assert (Hin : In Examples.inv_plain [Examples.inv_plain]) by (left; reflexivity).
  assert (Hp : parseInvoiceDate Examples.no_parse
                 (effective_date_string Examples.inv_plain) = Some (mkDate 2024 2 10 0))
    by (vm_compute; reflexivity).
  assert (Hv : valid_date (mkDate 2024 2 10 0)) by (unfold valid_date; simpl; lia).
  assert (Hy : (100 <= yr (mkDate 2024 2 10 0) <= 275760)%Z) by (simpl; lia).
  exact (month_key_selects Examples.no_parse [Examples.inv_plain] Examples.inv_plain
           (mkDate 2024 2 10 0) Hin Hp Hv Hy).
Defined.

End MonthKeysFacts.

(** ** NCF input and save dialog: properties *)
Module SaveDialogFacts.
Import Dates Store JsText SaveDialog TextFacts MonthKeysFacts.

Lemma chars_inj (a b : string) : list_ascii_of_string a = list_ascii_of_string b -> a = b.
Proof.
  intro H. rewrite <- (string_of_list_ascii_of_string a), <- (string_of_list_ascii_of_string b).
  rewrite H. reflexivity.
Qed.

Lemma filter_all {A} (f : A -> bool) (l : list A) :
  Forall (fun x => f x = true) l -> filter f l = l.
Proof. induction 1 as [|x l Hx _ IH]; simpl; [reflexivity|rewrite Hx, IH; reflexivity]. Qed.

Lemma filter_true {A} (f : A -> bool) (l : list A) : Forall (fun x => f x = true) (filter f l).
Proof.
  apply Forall_forall. intros x Hx. apply filter_In in Hx. exact (proj2 Hx).
Qed.

Lemma in_firstn {A} (n : nat) (l : list A) (x : A) : In x (firstn n l) -> In x l.
Proof. intro H. rewrite <- (firstn_skipn n l). apply in_app_iff. left. exact H. Qed.

Lemma ncf_chars (value : string) :
  list_ascii_of_string (handleNcfChange value)
  = firstn 4 (filter is_digit (list_ascii_of_string value)).
Proof.
  unfold handleNcfChange, strip_non_digits.
  rewrite substring0_chars, list_ascii_of_string_of_list_ascii. reflexivity.
Qed.

Lemma prefix_chars : list_ascii_of_string ncfPrefix = ["B"; "0"; "1"; "0"; "0"; "0"]%char.
Proof. reflexivity. Qed.

(** A suffix of four digits passes [handleSubmit], and the number saved
    from the resulting NCF is the suffix's value. *)
Lemma submit_four_digits (s : string) (d : Date) :
  List.length (list_ascii_of_string s) = 4%nat ->
  Forall (fun c => is_digit c = true) (list_ascii_of_string s) ->
  handleSubmit s d = Some (ncfPrefix ++ s, format_ymd d)
  /\ saved_ncf_number (ncfPrefix ++ s) = digits_val (list_ascii_of_string s) 0.
Proof.
  intros Hl Hd. assert (Hs : String.length s = 4%nat) by (rewrite length_chars; exact Hl).
  split.
  - unfold handleSubmit, fullNcf. rewrite Hs, StoreFacts.padStart_full by exact Hs.
    unfold js_trim. rewrite trim_digits by exact Hd.
    destruct (list_ascii_of_string s) as [|c l] eqn:E; [discriminate Hl|].
    rewrite <- E, string_of_list_ascii_of_string.
    destruct s; [discriminate E|]. reflexivity.
  - unfold saved_ncf_number, slice_last. rewrite length_append, Hs.
    change (String.length ncfPrefix + 4 - 4)%nat with (String.length ncfPrefix).
    rewrite <- Hs. rewrite substring_suffix.
    rewrite <- (string_of_list_ascii_of_string s) at 1.
    apply parseInt_digits; [|exact Hd]. intro E; rewrite E in Hl; discriminate Hl.
Qed.

(** X9: the suffix [handleNcfChange] keeps holds at most four characters,
    all of them decimal digits, and applying it again changes nothing. *)
Theorem ncf_change_normal (value : string) :
  (String.length (handleNcfChange value) <= 4)%nat
  /\ Forall (fun c => is_digit c = true) (list_ascii_of_string (handleNcfChange value))
  /\ handleNcfChange (handleNcfChange value) = handleNcfChange value.
Proof.
  rewrite length_chars, ncf_chars.
  split; [|split].
  - rewrite length_firstn. lia.
  - apply Forall_forall. intros c Hc. apply in_firstn in Hc. apply filter_In in Hc.
    exact (proj2 Hc).
  - apply chars_inj. rewrite !ncf_chars, filter_all, firstn_firstn; [reflexivity|].
    apply Forall_forall. intros c Hc. apply in_firstn in Hc. apply filter_In in Hc.
    exact (proj2 Hc).
Qed.

(** X10: a value typed into the NCF input is accepted by [handleSubmit]
    exactly when it contains at least four digits; the NCF saved is then
    "B01000" followed by its first four digits, and the number recorded
    from it after the save is the value of those four digits. *)
Theorem typed_ncf_submit (value : string) (d : Date) :
  let ds := filter is_digit (list_ascii_of_string value) in
  ((List.length ds < 4)%nat -> handleSubmit (handleNcfChange value) d = None)
  /\ ((4 <= List.length ds)%nat ->
      exists ncf, handleSubmit (handleNcfChange value) d = Some (ncf, format_ymd d)
      /\ list_ascii_of_string ncf = (list_ascii_of_string ncfPrefix ++ firstn 4 ds)%list
      /\ saved_ncf_number ncf = digits_val (firstn 4 ds) 0).
Proof.
  cbv zeta. pose proof (ncf_change_normal value) as (_ & Hd & _).
  pose proof (ncf_chars value) as Hc. split.
  - intro Hlt. unfold handleSubmit.
    assert (Hn : String.length (handleNcfChange value) <> 4%nat).
    { rewrite length_chars, Hc, length_firstn. lia. }
    apply Nat.eqb_neq in Hn. rewrite Hn, orb_true_r. reflexivity.
  - intro Hge. exists (ncfPrefix ++ handleNcfChange value).
    assert (Hl : List.length (list_ascii_of_string (handleNcfChange value)) = 4%nat)
      by (rewrite Hc, length_firstn; lia).
    destruct (submit_four_digits (handleNcfChange value) d Hl Hd) as [H1 H2].
    split; [exact H1|split].
    + rewrite list_ascii_app, Hc. reflexivity.
    + rewrite H2, Hc. reflexivity.
Qed.

(** X11: the suffix suggested from a number of 0 to 9999 passes
    [handleSubmit], giving a ten-character NCF from which the save records
    that number again; from 10000 on the suggested suffix has more than
    four characters and [handleSubmit] returns without saving. *)
Theorem suggested_submit (n : Z) (d : Date) :
  ((0 <= n <= 9999)%Z ->
   exists ncf, handleSubmit (suggested_suffix n) d = Some (ncf, format_ymd d)
   /\ String.length ncf = 10%nat /\ saved_ncf_number ncf = Some n)
  /\ ((10000 <= n)%Z -> handleSubmit (suggested_suffix n) d = None).
Proof.
  unfold suggested_suffix. split.
  - intro Hn. rewrite js_String_nonneg by lia.
    destruct (pad_digits 4 n) as (Hl & Hd & Hv); [lia|simpl; lia|].
    destruct (submit_four_digits _ d Hl Hd) as [H1 H2].
    eexists. split; [exact H1|split].
    + rewrite length_append, (length_chars (padStart _ _)), Hl. reflexivity.
    + rewrite H2, Hv. reflexivity.
  - intro Hn. rewrite js_String_nonneg by lia. unfold handleSubmit.
    assert (Hg : (4 < String.length (z_to_string n))%nat).
    { rewrite length_chars, z_to_string_chars. apply digits_of_len_gt; [|lia].
      simpl. lia. }
    unfold padStart. replace (4 - String.length (z_to_string n))%nat with 0%nat by lia.
    cbn [zeros append].
    assert (Hn4 : String.length (z_to_string n) <> 4%nat) by lia.
    apply Nat.eqb_neq in Hn4. rewrite Hn4, orb_true_r. reflexivity.
Qed.

End SaveDialogFacts.

(** ** Edit dialog: properties *)
Module EditFacts.
Import Dates Inv Breakdown Store JsText Edit MonthKeysFacts.

(** X12: submitting the edit dialog right after it opens on an invoice whose
    date is stored as [yyyy-MM-dd] with a year of 100 to 9999 (the [Date]
    constructor reads the years 0 to 99 as 1900 to 1999) sends that same
    date string back, and
    the NCF "B01000" followed by the last four characters of the stored
    NCF; an NCF shorter than four characters stops the submit before any
    update. *)
Theorem edit_resubmit (parse_other : string -> option Date) (inv : Invoice)
  (id : string) (d0 : Date)
  (Hv : valid_date d0) (Hy : (100 <= yr d0 <= 9999)%Z)
  (Hdate : effective_date_string inv = format_ymd d0) :
  ((String.length (ncf inv) < 4)%nat ->
   handleSubmit (open_dialog parse_other inv) id = ret None)
  /\ ((4 <= String.length (ncf inv))%nat ->
      exists T RA RP RC TC ps,
        handleSubmit (open_dialog parse_other inv) id =
        (r <- updateInvoice id ("B01000" ++ slice_last 4 (ncf inv))
                (effective_date_string inv) T RA RP RC TC ps ;; ret (Some r))).
Proof.
  unfold handleSubmit, open_dialog. cbn [e_ncfSuffix e_invoiceDate].
  rewrite Hdate, format_ymd_parse by assumption. split.
  - intro Hl. replace (4 <=? String.length (ncf inv))%nat with false
      by (symmetry; apply Nat.leb_gt; exact Hl).
    assert (Hn : String.length (ncf inv) <> 4%nat) by lia.
    apply Nat.eqb_neq in Hn. rewrite Hn. reflexivity.
  - intro Hl. replace (4 <=? String.length (ncf inv))%nat with true
      by (symmetry; apply Nat.leb_le; exact Hl).
    assert (Hs : String.length (substring (String.length (ncf inv) - 4) 4 (ncf inv)) = 4%nat)
      by (apply StoreFacts.substring_length; lia).
    rewrite Hs. cbn [Nat.eqb negb]. rewrite (StoreFacts.padStart_full _ Hs).
    do 6 eexists. reflexivity.
Qed.


Lemma edit_resubmit_witness :
  exists T RA RP RC TC ps,
    handleSubmit (open_dialog Examples.no_parse Examples.inv_plain) "i2" =
    (r <- updateInvoice "i2" ("B01000" ++ slice_last 4 (ncf Examples.inv_plain))
            (effective_date_string Examples.inv_plain) T RA RP RC TC ps ;; ret (Some r)).
Proof.
  assert (Hv : valid_date (mkDate 2024 2 10 0)) by (unfold valid_date; simpl; lia).
  assert (Hy : (100 <= yr (mkDate 2024 2 10 0) <= 9999)%Z) by (simpl; lia).
  assert (Hdate : effective_date_string Examples.inv_plain = format_ymd (mkDate 2024 2 10 0))
    by (vm_compute; reflexivity).
  assert (Hl : (4 <= String.length (ncf Examples.inv_plain))%nat)
    by (apply Nat.leb_le; vm_compute; reflexivity).
  exact (proj2 (edit_resubmit Examples.no_parse Examples.inv_plain "i2"
                  (mkDate 2024 2 10 0) Hv Hy Hdate) Hl).
Defined.


(** X13: [handleProductAmountChange] at an index of the list sets that line
    item's amount to the new value and its commission to the value times
    its percentage over 100, keeping its name and percentage, and leaves
    every other line item as it was; at an index past the end it fails. *)
Theorem set_amount_spec (ps : list ProductInput) (i : nat) (v : Q) :
  (forall p, nth_error ps i = Some p ->
     exists ps', set_amount ps i v = Some ps'
     /\ List.length ps' = List.length ps
     /\ nth_error ps' i = Some (mkInput (in_name p) v (in_percentage p)
                                        (v * (in_percentage p / 100)))
     /\ forall j, j <> i -> nth_error ps' j = nth_error ps j)
  /\ (nth_error ps i = None -> set_amount ps i v = None).
Proof.
  revert i; induction ps as [|q ps IH]; intro i; split.
  - intros p H. destruct i; discriminate H.
  - intros _. reflexivity.
  - intros p H. destruct i as [|i]; cbn [set_amount nth_error] in *.
    + injection H as <-. eexists. split; [reflexivity|]. split; [reflexivity|].
      split; [reflexivity|]. intros [|j] Hj; [congruence|reflexivity].
    + destruct (proj1 (IH i) p H) as (ps' & E & Hl & Hi & Hj). rewrite E.
      eexists. split; [reflexivity|]. split; [cbn [List.length]; congruence|].
      split; [exact Hi|]. intros [|j] Hji; [reflexivity|]. cbn [nth_error].
      apply Hj. congruence.
  - intro H. destruct i as [|i]; cbn [set_amount nth_error] in *; [discriminate H|].
    rewrite (proj2 (IH i) H). reflexivity.
Qed.

End EditFacts.

(** ** Calculator state handlers: properties *)
Module CalculatorFacts.
Import Calc Calculator.

Lemma get_set (m : Amounts) (k k' : string) (v : Q) :
  amounts_get (amounts_set m k v) k' =
  if String.eqb k' k then Some v else amounts_get m k'.
Proof.
  induction m as [|[k0 v0] m IH]; simpl.
  - destruct (String.eqb k' k); reflexivity.
  - destruct (String.eqb k k0) eqn:E; simpl.
    + apply String.eqb_eq in E. subst k0. destruct (String.eqb k' k); reflexivity.
    + rewrite IH. destruct (String.eqb k' k) eqn:E1; [|reflexivity].
      destruct (String.eqb k' k0) eqn:E2; [|reflexivity].
      apply String.eqb_eq in E1, E2. subst. rewrite String.eqb_refl in E. discriminate E.
Qed.

Lemma get_none (m : Amounts) (k : string) : amounts_get m k = None <-> ~ In k (map fst m).
Proof.
  induction m as [|[k0 v0] m IH]; simpl; [tauto|].
  destruct (String.eqb k k0) eqn:E.
  - apply String.eqb_eq in E. subst. split; [discriminate|]. intro H; exfalso; apply H; left; reflexivity.
  - apply String.eqb_neq in E. rewrite IH. split.
    + intros H [H1|H1]; [congruence|tauto].
    + tauto.
Qed.

Lemma set_new (m : Amounts) (k : string) (v : Q) :
  ~ In k (map fst m) -> amounts_set m k v = (m ++ [(k, v)])%list.
Proof.
  induction m as [|[k0 v0] m IH]; intro H; simpl; [reflexivity|].
  destruct (String.eqb k k0) eqn:E.
  - apply String.eqb_eq in E. subst. exfalso. apply H. left. reflexivity.
  - rewrite IH; [reflexivity|]. intro H1. apply H. right. exact H1.
Qed.

Lemma set_keys (m : Amounts) (k x : string) (v : Q) :
  In x (map fst (amounts_set m k v)) <-> In x (map fst m) \/ x = k.
Proof.
  induction m as [|[k0 v0] m IH]; simpl.
  - split; [intros [H|[]]; right; symmetry; exact H|intros [[]|H]; left; symmetry; exact H].
  - destruct (String.eqb k k0) eqn:E; simpl.
    + apply String.eqb_eq in E. subst. split; [tauto|]. intros [H|H]; [exact H|left; symmetry; exact H].
    + rewrite IH. tauto.
Qed.

Lemma set_nodup (m : Amounts) (k : string) (v : Q) :
  NoDup (map fst m) -> NoDup (map fst (amounts_set m k v)).
Proof.
  intro H. destruct (in_dec string_dec k (map fst m)) as [Hin|Hin].
  - induction m as [|[k0 v0] m IH]; simpl in *; [contradiction|].
    destruct (String.eqb k k0) eqn:E; [exact H|]. inversion H as [|? ? Hn Hd]; subst.
    apply String.eqb_neq in E. destruct Hin as [Hin|Hin]; [congruence|].
    simpl. constructor; [|apply IH; assumption].
    rewrite set_keys. intros [H1|H1]; [contradiction|congruence].
  - rewrite set_new by exact Hin. rewrite map_app. simpl.
    apply (@Permutation_NoDup _ (k :: map fst m)).
    + apply Permutation_cons_append.
    + constructor; assumption.
Qed.

Lemma set_values_sum (m : Amounts) (k : string) (v : Q) :
  js_sum (map snd (amounts_set m k v)) ==
  js_sum (map snd m) - match amounts_get m k with Some o => o | None => 0 end + v.
Proof.
  induction m as [|[k0 v0] m IH]; simpl.
  - rewrite js_sum_cons. unfold js_sum; simpl. ring.
  - destruct (String.eqb k k0) eqn:E; simpl; rewrite !js_sum_cons.
    + ring.
    + rewrite IH. ring.
Qed.

Lemma js_sum_zeros (xs : list Q) : Forall (fun x => x == 0) xs -> js_sum xs == 0.
Proof.
  induction 1 as [|x xs Hx _ IH]; [reflexivity|]. rewrite js_sum_cons, Hx, IH. ring.
Qed.

Lemma js_max0_compat (x y : Q) : x == y -> js_max0 x == js_max0 y.
Proof.
  intro H. unfold js_max0.
  destruct (Qle_bool x 0) eqn:E1, (Qle_bool y 0) eqn:E2; try reflexivity.
  - apply Qle_bool_iff in E1. apply Bool.not_true_iff_false in E2.
    exfalso. apply E2. apply Qle_bool_iff. rewrite <- H. exact E1.
  - apply Qle_bool_iff in E2. apply Bool.not_true_iff_false in E1.
    exfalso. apply E1. apply Qle_bool_iff. rewrite H. exact E2.
  - exact H.
Qed.

Lemma fold_set_new (l m : Amounts) :
  NoDup (map fst l) -> (forall k, In k (map fst l) -> ~ In k (map fst m)) ->
  fold_left (fun m kv => amounts_set m (fst kv) (snd kv)) l m = (m ++ l)%list.
Proof.
  revert m; induction l as [|[k v] l IH]; intros m Hn Hd; cbn [fold_left];
    [rewrite app_nil_r; reflexivity|].
  inversion Hn as [|? ? Hk Hn']; subst. cbn [fst snd].
  rewrite set_new by (apply Hd; left; reflexivity).
  rewrite IH; [rewrite <- app_assoc; reflexivity|exact Hn'|].
  intros k' Hk'. rewrite map_app, in_app_iff. intros [H|[H|[]]].
  - apply (Hd k'); [right; exact Hk'|exact H].
  - simpl in H. subst k'. contradiction.
Qed.

Lemma existsb_eqb_in (k : string) (l : list string) :
  existsb (String.eqb k) l = true <-> In k l.
Proof.
  rewrite existsb_exists. split.
  - intros [x [Hx E]]. apply String.eqb_eq in E. subst x. exact Hx.
  - intro H. exists k. split; [exact H|apply String.eqb_refl].
Qed.

Lemma get_in (m : Amounts) (k : string) (v : Q) : amounts_get m k = Some v -> In (k, v) m.
Proof.
  induction m as [|[k0 v0] m IH]; simpl; [discriminate|].
  destruct (String.eqb k k0) eqn:E.
  - intro H. injection H as <-. apply String.eqb_eq in E. subst. left. reflexivity.
  - intro H. right. apply IH. exact H.
Qed.

Lemma get_app (m1 m2 : Amounts) (k : string) :
  amounts_get (m1 ++ m2)%list k =
  match amounts_get m1 k with Some v => Some v | None => amounts_get m2 k end.
Proof.
  induction m1 as [|[k0 v0] m1 IH]; simpl; [reflexivity|].
  destruct (String.eqb k k0); [reflexivity|exact IH].
Qed.

Lemma set_forall (P : Q -> Prop) (m : Amounts) (k : string) (v : Q) :
  Forall (fun kv => P (snd kv)) m -> P v -> Forall (fun kv => P (snd kv)) (amounts_set m k v).
Proof.
  induction m as [|[k0 v0] m IH]; intros H Hv; simpl; [constructor; [exact Hv|constructor]|].
  inversion H as [|? ? H0 H1]; subst.
  destruct (String.eqb k k0); constructor; [exact Hv|exact H1|exact H0|apply IH; assumption].
Qed.

Lemma get_zeros (m : Amounts) (k : string) (v : Q) :
  Forall (fun kv => snd kv = 0) m -> amounts_get m k = Some v -> v = 0.
Proof.
  intros H E. apply get_in in E. exact (proj1 (Forall_forall _ _) H _ E).
Qed.

Lemma zeros_sum (m : Amounts) :
  Forall (fun kv => snd kv = 0) m -> js_sum (map snd m) == 0.
Proof.
  intro H. apply js_sum_zeros. apply Forall_map. eapply Forall_impl; [|exact H].
  intros kv E. rewrite E. reflexivity.
Qed.

(** The [initialAmounts] the effect builds: each product id that is
    neither an own key of [productAmounts] nor inherited, once, at 0. *)
Lemma initial_fold (products : list Product) (pa acc : Amounts) :
  NoDup (map fst acc) -> Forall (fun kv => snd kv = 0) acc ->
  let r := fold_left (fun acc p => if amounts_has pa (prod_id p) then acc
                                   else amounts_set acc (prod_id p) 0) products acc in
  NoDup (map fst r) /\ Forall (fun kv => snd kv = 0) r
  /\ forall k, In k (map fst r) <->
       In k (map fst acc) \/ (In k (map prod_id products) /\ amounts_has pa k = false).
Proof.
  revert acc; induction products as [|p ps IH]; intros acc Hn Hz; cbn [fold_left].
  - split; [exact Hn|split; [exact Hz|]]. intro k. simpl. tauto.
  - destruct (amounts_has pa (prod_id p)) eqn:Ep.
    + destruct (IH acc Hn Hz) as (H1 & H2 & H3). split; [exact H1|split; [exact H2|]].
      intro k. rewrite H3. simpl. split; [tauto|].
      intros [H|[[<-|H] Hh]]; [left; exact H|congruence|right; split; assumption].
    + destruct (IH (amounts_set acc (prod_id p) 0) (set_nodup _ _ _ Hn)
                  (set_forall (fun x => x = 0) _ _ _ Hz eq_refl)) as (H1 & H2 & H3).
      split; [exact H1|split; [exact H2|]].
      intro k. rewrite H3, set_keys. simpl. split.
      * intros [[H| ->]|[H Hh]]; [left; exact H|right; split; [left; reflexivity|exact Ep]|].
        right; split; [right; exact H|exact Hh].
      * intros [H|[[<-|H] Hh]]; [left; left; exact H|left; right; reflexivity|].
        right; split; assumption.
Qed.

Lemma init_app (products : list Product) (pa : Amounts) :
  let ia := fold_left (fun acc p => if amounts_has pa (prod_id p) then acc
                                    else amounts_set acc (prod_id p) 0) products [] in
  init_amounts products pa = (pa ++ ia)%list
  /\ Forall (fun kv => snd kv = 0) ia
  /\ forall k, In k (map fst ia) <->
       In k (map prod_id products) /\ amounts_has pa k = false.
Proof.
  cbv zeta.
  destruct (initial_fold products pa [] (NoDup_nil _) (Forall_nil _)) as (H1 & H2 & H3).
  split; [|split; [exact H2|intro k; rewrite H3; simpl; tauto]].
  unfold init_amounts. destruct products as [|p ps]; [rewrite app_nil_r; reflexivity|].
  match type of H1 with context [fold_left ?f (p :: ps) []] =>
    set (ia := fold_left f (p :: ps) []) in * end.
  destruct ia as [|kv ia'] eqn:Ei; [rewrite app_nil_r; reflexivity|].
  rewrite <- Ei in H1, H3 |- *. apply fold_set_new; [exact H1|].
  intros k Hk. apply H3 in Hk. destruct Hk as [[]|[_ Hh]].
  unfold amounts_has in Hh. apply orb_false_iff in Hh. destruct Hh as [Hh _].
  intro Hin. apply existsb_eqb_in in Hin. congruence.
Qed.

Lemma amount_of_app_zeros (m z : Amounts) (k : string) :
  Forall (fun kv => snd kv = 0) z -> amount_of (m ++ z)%list k = amount_of m k.
Proof.
  intro Hz. unfold amount_of. rewrite get_app.
  destruct (amounts_get m k); [reflexivity|].
  destruct (amounts_get z k) eqn:E; [|reflexivity].
  rewrite (get_zeros z k q Hz E). reflexivity.
Qed.

Lemma amount_of_zeros (m : Amounts) (k : string) :
  Forall (fun kv => snd kv = 0) m -> amount_of m k = 0.
Proof.
  intro Hz. unfold amount_of. destruct (amounts_get m k) eqn:E; [|reflexivity].
  rewrite (get_zeros m k q Hz E). reflexivity.
Qed.

Lemma reset_fold (products : list Product) (acc : Amounts) (k : string) :
  amounts_get (fold_left (fun m p => amounts_set m (prod_id p) 0) products acc) k =
  if existsb (String.eqb k) (map prod_id products) then Some 0 else amounts_get acc k.
Proof.
  revert acc; induction products as [|p ps IH]; intro acc; cbn [fold_left]; [reflexivity|].
  rewrite IH, get_set. simpl. destruct (String.eqb k (prod_id p)), (existsb (String.eqb k) (map prod_id ps)); reflexivity.
Qed.

Lemma reset_zeros (products : list Product) (acc : Amounts) :
  Forall (fun kv => snd kv = 0) acc ->
  Forall (fun kv => snd kv = 0) (fold_left (fun m p => amounts_set m (prod_id p) 0) products acc).
Proof.
  revert acc; induction products as [|p ps IH]; intros acc H; cbn [fold_left]; [exact H|].
  apply IH. apply (set_forall (fun x => x = 0)); [exact H|reflexivity].
Qed.

(** X14: after the [products] effect, the amount of a key is its old own
    value when [productAmounts] had one; otherwise it is 0 when the key is
    the id of a product and not a property of [Object.prototype], and
    absent when not. *)
Theorem init_amounts_lookup (products : list Product) (productAmounts : Amounts) (k : string) :
  amounts_get (init_amounts products productAmounts) k =
  match amounts_get productAmounts k with
  | Some v => Some v
  | None =>
      if existsb (String.eqb k) (map prod_id products)
         && negb (existsb (String.eqb k) Breakdown.proto_props)
      then Some 0 else None
  end.
Proof.
  destruct (init_app products productAmounts) as (E & Hz & Hk).
  match type of Hz with context [fold_left ?f products []] =>
    set (ia := fold_left f products []) in * end.
  rewrite E, get_app. destruct (amounts_get productAmounts k) eqn:Eg; [reflexivity|].
  assert (Hown : existsb (String.eqb k) (map fst productAmounts) = false).
  { apply Bool.not_true_iff_false. rewrite existsb_eqb_in. apply get_none. exact Eg. }
  destruct (amounts_get ia k) eqn:Ei.
  - pose proof (get_zeros ia k q Hz Ei) as ->.
    apply get_in in Ei. apply (in_map fst) in Ei. apply Hk in Ei. destruct Ei as [Hp Hh].
    cbn [fst] in Hp, Hh. unfold amounts_has in Hh. rewrite Hown in Hh. cbn [orb] in Hh.
    apply existsb_eqb_in in Hp. rewrite Hp, Hh. reflexivity.
  - apply get_none in Ei. rewrite Hk in Ei.
    destruct (existsb (String.eqb k) (map prod_id products)) eqn:Ep; [|reflexivity].
    destruct (existsb (String.eqb k) Breakdown.proto_props) eqn:Epp; [reflexivity|].
    exfalso. apply Ei. split; [apply existsb_eqb_in; exact Ep|].
    unfold amounts_has. rewrite Hown, Epp. reflexivity.
Qed.

(** X15: the [products] effect changes none of the calculator's results:
    the breakdown is the same and the rest amount, the rest commission and
    the total commission are equal. *)
Theorem init_amounts_calculations (products : list Product) (productAmounts : Amounts)
  (totalInvoice restPercentage : Q) :
  let c1 := calculations products (init_amounts products productAmounts)
              totalInvoice restPercentage in
  let c0 := calculations products productAmounts totalInvoice restPercentage in
  breakdown c1 = breakdown c0 /\ restAmount c1 == restAmount c0
  /\ restCommission c1 == restCommission c0 /\ totalCommission c1 == totalCommission c0.
Proof.
  destruct (init_app products productAmounts) as (E & Hz & _).
  match type of Hz with context [fold_left ?f products []] =>
    set (ia := fold_left f products []) in * end.
  cbv zeta. unfold calculations. rewrite E. cbn [breakdown restAmount restCommission totalCommission].
  assert (Hb : map (breakdown_item (productAmounts ++ ia)%list) products
               = map (breakdown_item productAmounts) products).
  { apply map_ext. intro p. unfold breakdown_item. rewrite amount_of_app_zeros by exact Hz.
    reflexivity. }
  assert (Hr : js_max0 (totalInvoice - js_sum (map snd (productAmounts ++ ia)%list))
               == js_max0 (totalInvoice - js_sum (map snd productAmounts))).
  { apply js_max0_compat. rewrite map_app, js_sum_app, (zeros_sum ia Hz). ring. }
  rewrite Hb. split; [reflexivity|]. split; [exact Hr|].
  split; [rewrite Hr; reflexivity|rewrite Hr; reflexivity].
Qed.

(** X16: after [handleReset] the invoice total is 0, every product id has
    amount 0 and no other key is present, and the calculator gives 0 for
    every line's amount and commission, the rest amount, the rest
    commission and the total commission. *)
Theorem reset_all_zero (products : list Product) (restPercentage : Q) :
  let '(t, m) := handleReset products in
  let c := calculations products m t restPercentage in
  t = 0
  /\ (forall k, amounts_get m k =
        if existsb (String.eqb k) (map prod_id products) then Some 0 else None)
  /\ Forall (fun it => bi_amount it = 0 /\ bi_commission it == 0) (breakdown c)
  /\ restAmount c == 0 /\ restCommission c == 0 /\ totalCommission c == 0.
Proof.
  unfold handleReset.
  set (m := fold_left (fun m p => amounts_set m (prod_id p) 0) products []).
  assert (Hz : Forall (fun kv => snd kv = 0) m) by (apply reset_zeros; constructor).
  assert (Hr : js_max0 (0 - js_sum (map snd m)) == 0).
  { rewrite (js_max0_compat _ 0) by (rewrite zeros_sum by exact Hz; ring). reflexivity. }
  assert (Hb : Forall (fun it => bi_amount it = 0 /\ bi_commission it == 0)
                 (map (breakdown_item m) products)).
  { apply Forall_forall. intros it Hit. apply in_map_iff in Hit. destruct Hit as [p [<- _]].
    unfold breakdown_item. cbn [bi_amount bi_commission].
    rewrite amount_of_zeros by exact Hz. split; [reflexivity|ring]. }
  unfold calculations. cbn [breakdown restAmount restCommission totalCommission].
  split; [reflexivity|]. split; [intro k; unfold m; rewrite reset_fold; reflexivity|].
  split; [exact Hb|]. split; [exact Hr|]. split; [rewrite Hr; ring|].
  rewrite CalcFacts.fold_commission_sum, Hr.
  rewrite js_sum_zeros; [ring|].
  apply Forall_map. eapply Forall_impl; [|exact Hb]. intros it [_ H]. exact H.
Qed.


(** X17: after [handleProductChange(id, value)] the amount read for [id] is
    [value] and every other key reads as before; the sum of the values,
    from which the rest amount is computed, changes by [value] minus the
    old own value of [id] (0 when it had none). *)
Theorem product_change_lookup_sum (prev : Amounts) (id : string) (value : Q) :
  (forall k, amounts_get (handleProductChange prev id value) k =
             if String.eqb k id then Some value else amounts_get prev k)
  /\ js_sum (map snd (handleProductChange prev id value)) ==
     js_sum (map snd prev) - match amounts_get prev id with Some o => o | None => 0 end
     + value.
Proof.
  unfold handleProductChange. split; [intro k; apply get_set|apply set_values_sum].
Qed.

End CalculatorFacts.

(** ** Statistics view: properties *)
Module StatsViewFacts.
Import Dates DatesFacts Inv Breakdown Stats StatsView BreakdownMore.

Lemma Qeq_bool_nonzero (x : Q) : ~ x == 0 -> Qeq_bool x 0 = false.
Proof.
  intro H. destruct (Qeq_bool x 0) eqn:E; [|reflexivity].
  apply Qeq_bool_iff in E. contradiction.
Qed.

Lemma js_pos_false (x : Q) : x <= 0 -> js_pos x = false.
Proof.
  intro H. destruct (js_pos x) eqn:E; [|reflexivity].
  apply js_pos_iff in E. exfalso. exact (Qlt_not_le _ _ E H).
Qed.

(** The indicator [getChangeIndicator] gives a percentage change follows
    the comparison of the two values when the previous one is positive. *)
Lemma change_indicator_sign (cur prev : Q) :
  getChangeIndicator (pct_change cur prev) =
  if js_pos prev then
    match Qcompare cur prev with
    | Eq => SinCambio
    | Lt => Decremento
    | Gt => Incremento
    end
  else SinCambio.
Proof.
  unfold getChangeIndicator, pct_change.
  destruct (js_pos prev) eqn:Ep; [|reflexivity].
  apply js_pos_iff in Ep.
  assert (Hk : 0 < 100 / prev) by (apply Qlt_shift_div_l; [exact Ep|lra]).
  assert (Hx : (cur - prev) / prev * 100 == (cur - prev) * (100 / prev)).
  { field. intro H. rewrite H in Ep. exact (Qlt_irrefl 0 Ep). }
  set (k := 100 / prev) in *. set (x := (cur - prev) / prev * 100) in *.
  destruct (Qcompare cur prev) eqn:E.
  - apply Qeq_alt in E.
    assert (H0 : Qeq_bool x 0 = true) by (apply Qeq_bool_iff; rewrite Hx, E; ring).
    rewrite H0. reflexivity.
  - apply Qlt_alt in E.
    assert (Hn : x < 0).
    { rewrite Hx. setoid_replace 0 with (0 * k) by ring.
      apply Qmult_lt_r; [exact Hk|lra]. }
    rewrite Qeq_bool_nonzero, js_pos_false by lra. reflexivity.
  - apply Qgt_alt in E.
    assert (Hn : 0 < x).
    { rewrite Hx. setoid_replace 0 with (0 * k) by ring.
      apply Qmult_lt_r; [exact Hk|lra]. }
    rewrite Qeq_bool_nonzero by lra.
    replace (js_pos x) with true by (symmetry; apply js_pos_iff; exact Hn). reflexivity.
Qed.


Lemma js_pos_nat (n : nat) : js_pos (inject_Z (Z.of_nat n)) = (0 <? n)%nat.
Proof. destruct n; reflexivity. Qed.

Lemma Qcompare_nat (a b : nat) :
  Qcompare (inject_Z (Z.of_nat a)) (inject_Z (Z.of_nat b)) = Nat.compare a b.
Proof.
  unfold Qcompare. cbn [Qnum Qden inject_Z]. rewrite !Z.mul_1_r.
  apply Nat2Z.inj_compare.
Qed.

(** X18: the three change badges of the summary cards are shown only when
    the previous month's value (sales, commission, invoice count) is
    positive; a shown badge has the indicator "Incremento" when the
    selected month's value is larger, "Decremento" when it is smaller and
    "Sin cambio" when the two are equal. *)
Theorem badge_indicators (parse_other : string -> option Date)
  (invoices : list Invoice) (d : Date) :
  let cur := selectedMonthStats parse_other invoices d in
  let prev := previousMonthStats parse_other invoices d in
  let rep := change_report parse_other invoices d in
  option_map getChangeIndicator (salesBadge rep) =
    (if js_pos (totalSales prev) then
       Some (match Qcompare (totalSales cur) (totalSales prev) with
             | Eq => SinCambio | Lt => Decremento | Gt => Incremento end)
     else None)
  /\ option_map getChangeIndicator (commissionBadge rep) =
    (if js_pos (totalCommission prev) then
       Some (match Qcompare (totalCommission cur) (totalCommission prev) with
             | Eq => SinCambio | Lt => Decremento | Gt => Incremento end)
     else None)
  /\ option_map getChangeIndicator (invoiceCountBadge rep) =
    (if (0 <? invoiceCount prev)%nat then
       Some (match Nat.compare (invoiceCount cur) (invoiceCount prev) with
             | Eq => SinCambio | Lt => Decremento | Gt => Incremento end)
     else None).
Proof.
  intros cur prev rep. subst rep. unfold change_report.
  cbn [salesBadge commissionBadge invoiceCountBadge]. fold prev.
  unfold salesChange, commissionChange, invoiceCountChange. fold cur prev.
  split; [|split].
  - destruct (js_pos (totalSales prev)) eqn:E; [|reflexivity].
    cbn [option_map]. rewrite change_indicator_sign, E. reflexivity.
  - destruct (js_pos (totalCommission prev)) eqn:E; [|reflexivity].
    cbn [option_map]. rewrite change_indicator_sign, E. reflexivity.
  - destruct (0 <? invoiceCount prev)%nat eqn:E; [|reflexivity].
    cbn [option_map]. rewrite change_indicator_sign, js_pos_nat, E, Qcompare_nat.
    reflexivity.
Qed.

Lemma fold_sum_bounds (l : list Invoice) (lo hi a : Q) :
  Forall (fun inv => lo <= total_commission inv <= hi) l ->
  a + inject_Z (Z.of_nat (List.length l)) * lo
  <= fold_left (fun sum inv => sum + total_commission inv) l a
  <= a + inject_Z (Z.of_nat (List.length l)) * hi.
Proof.
  intro H. revert a; induction H as [|inv l [H1 H2] _ IH]; intro a; cbn [fold_left List.length].
  - change (inject_Z (Z.of_nat 0)) with 0. split; lra.
  - destruct (IH (a + total_commission inv)) as [IH1 IH2].
    rewrite Nat2Z.inj_succ, <- Z.add_1_r, inject_Z_plus.
    set (N := inject_Z (Z.of_nat (List.length l))) in *.
    setoid_replace ((N + inject_Z 1) * lo) with (N * lo + lo) by ring.
    setoid_replace ((N + inject_Z 1) * hi) with (N * hi + hi) by ring.
    revert IH1 IH2. generalize (N * lo) (N * hi). intros; split; lra.
Qed.

(** X19: the average commission per invoice of the selected month is 0 for
    a month without invoices, and otherwise lies between the smallest and
    the largest commission of the month's invoices. *)
Theorem avg_per_invoice_bounds (monthInvoices : list Invoice) (lo hi : Q)
  (Hne : monthInvoices <> [])
  (Hb : Forall (fun inv => lo <= total_commission inv <= hi) monthInvoices) :
  avgPerInvoice [] = 0 /\ lo <= avgPerInvoice monthInvoices <= hi.
Proof.
  split; [reflexivity|]. unfold avgPerInvoice.
  destruct monthInvoices as [|i l]; [contradiction|].
  set (n := List.length (i :: l)).
  replace (0 <? n)%nat with true by reflexivity.
  assert (Hn : 0 < inject_Z (Z.of_nat n)).
  { unfold n. cbn [List.length]. change 0 with (inject_Z 0). rewrite <- Zlt_Qlt. lia. }
  destruct (fold_sum_bounds (i :: l) lo hi 0 Hb) as [H1 H2]. fold n in H1, H2.
  split.
  - apply Qle_shift_div_l; [exact Hn|]. lra.
  - apply Qle_shift_div_r; [exact Hn|]. lra.
Qed.

Lemma fold_max_ge (l : list Q) (a : Q) :
  a <= fold_left Qmax l a /\ Forall (fun x => x <= fold_left Qmax l a) l.
Proof.
  revert a; induction l as [|x l IH]; intro a; cbn [fold_left]; [split; [lra|constructor]|].
  destruct (IH (Qmax a x)) as [H1 H2]. split.
  - eapply Qle_trans; [apply Q.le_max_l|exact H1].
  - constructor; [|exact H2]. eapply Qle_trans; [apply Q.le_max_r|exact H1].
Qed.

Lemma fold_total_nonneg (l : list Invoice) (a : Q) :
  0 <= a -> Forall (fun inv => 0 <= total_amount inv) l ->
  0 <= fold_left (fun sum inv => sum + total_amount inv) l a.
Proof.
  intros Ha H. revert a Ha; induction H as [|inv l H _ IH]; intros a Ha; cbn [fold_left];
    [exact Ha|]. apply IH. lra.
Qed.

(** X20: with no negative invoice total, the monthly progress shows one bar
    per month of the first six of [availableMonths], each with a width
    from 0 to 100. *)
Theorem bar_widths_range (parse_other : string -> option Date) (invoices : list Invoice)
  (availableMonths : list (Z * Z))
  (Hpos : Forall (fun inv => 0 <= total_amount inv) invoices) :
  List.length (bar_widths parse_other invoices availableMonths)
    = Nat.min 6 (List.length availableMonths)
  /\ Forall (fun w => 0 <= w <= 100) (bar_widths parse_other invoices availableMonths).
Proof.
  unfold bar_widths. cbv zeta.
  set (shown := firstn 6 availableMonths).
  set (mx := fold_left Qmax (map (month_sales parse_other invoices) shown) 1).
  destruct (fold_max_ge (map (month_sales parse_other invoices) shown) 1) as [Hm1 Hm2].
  fold mx in Hm1, Hm2.
  split; [rewrite length_map; apply length_firstn|].
  apply Forall_map. apply Forall_forall. intros ym Hym.
  assert (Hs0 : 0 <= month_sales parse_other invoices ym).
  { unfold month_sales. apply fold_total_nonneg; [lra|].
    apply Forall_forall. intros inv Hinv. unfold filteredInvoices in Hinv.
    apply filter_In in Hinv. exact (proj1 (Forall_forall _ _) Hpos _ (proj1 Hinv)). }
  assert (Hs1 : month_sales parse_other invoices ym <= mx).
  { apply (proj1 (Forall_forall _ _) Hm2). apply in_map. exact Hym. }
  assert (Hmx : 0 < mx) by lra.
  set (s := month_sales parse_other invoices ym) in *.
  assert (H0 : 0 <= s / mx) by (apply Qle_shift_div_l; [exact Hmx|lra]).
  assert (H1 : s / mx <= 1) by (apply Qle_shift_div_r; [exact Hmx|lra]).
  split; lra.
Qed.


Lemma month_invoices_iff (parse_other : string -> option Date) (invoices : list Invoice)
  (d0 : Date) (inv : Invoice) (dd : Date)
  (Hp : parseInvoiceDate parse_other (effective_date_string inv) = Some dd)
  (Hvd : valid_date dd) :
  In inv (month_invoices parse_other invoices d0) <->
  In inv invoices /\ yr dd = yr d0 /\ mon dd = mon d0.
Proof.
  unfold month_invoices. rewrite filter_In. unfold in_selected. rewrite Hp.
  assert (E : isWithinInterval dd (startOfMonth d0) (endOfMonth d0)
              = within_month (yr d0) (mon d0 + 1) dd).
  { unfold within_month, month_first, month_last, isWithinInterval, startOfMonth, endOfMonth.
    rewrite Z.add_simpl_r. reflexivity. }
  rewrite E, within_month_iff by exact Hvd. rewrite Z.add_simpl_r. tauto.
Qed.

(** X21: for an invoice whose date parses to a valid date, the statistics
    count it in the selected month exactly when its date has the selected
    date's year and month, and in the previous month exactly when its
    year and month are the calendar month before that one. *)
Theorem stats_month_members (parse_other : string -> option Date)
  (invoices : list Invoice) (d : Date) (inv : Invoice) (dd : Date)
  (Hp : parseInvoiceDate parse_other (effective_date_string inv) = Some dd)
  (Hvd : valid_date dd) :
  (In inv (month_invoices parse_other invoices d) <->
   In inv invoices /\ yr dd = yr d /\ mon dd = mon d)
  /\ (In inv (month_invoices parse_other invoices (subMonth1 d)) <->
      In inv invoices /\ (yr dd, mon dd) = prev_month (yr d) (mon d)).
Proof.
  split; [apply month_invoices_iff; assumption|].
  rewrite (month_invoices_iff parse_other invoices (subMonth1 d) inv dd Hp Hvd).
  unfold subMonth1. destruct (prev_month (yr d) (mon d)) as [y' m']. cbn [yr mon].
  rewrite pair_equal_spec. tauto.
Qed.


Lemma avg_per_invoice_bounds_witness :
  avgPerInvoice [] = 0
  /\ 10 <= avgPerInvoice [Examples.inv_plain; Examples.inv_mix] <= 195.
Proof.
  assert (Hne : [Examples.inv_plain; Examples.inv_mix] <> []) by discriminate.
  assert (Hb : Forall (fun inv => 10 <= total_commission inv <= 195)
                 [Examples.inv_plain; Examples.inv_mix]).
  { repeat constructor; unfold Qle; simpl; lia. }
  exact (avg_per_invoice_bounds _ 10 195 Hne Hb).
Defined.

Lemma bar_widths_range_witness :
  List.length (bar_widths Examples.no_parse [Examples.inv_plain; Examples.inv_mix]
                 [(2024, 3); (2024, 2)]%Z) = 2%nat
  /\ Forall (fun w => 0 <= w <= 100)
       (bar_widths Examples.no_parse [Examples.inv_plain; Examples.inv_mix]
          [(2024, 3); (2024, 2)]%Z).
Proof.
  assert (Hpos : Forall (fun inv => 0 <= total_amount inv)
                   [Examples.inv_plain; Examples.inv_mix]).
  { repeat constructor; unfold Qle; simpl; lia. }
  exact (bar_widths_range Examples.no_parse _ [(2024, 3); (2024, 2)]%Z Hpos).
Defined.

Lemma stats_month_members_witness :
  (In Examples.inv_plain
     (month_invoices Examples.no_parse [Examples.inv_plain] (mkDate 2024 2 15 0)) <->
   In Examples.inv_plain [Examples.inv_plain] /\ yr (mkDate 2024 2 10 0) = 2024%Z
   /\ mon (mkDate 2024 2 10 0) = 2%Z)
  /\ (In Examples.inv_plain
        (month_invoices Examples.no_parse [Examples.inv_plain]
           (subMonth1 (mkDate 2024 2 15 0))) <->
      In Examples.inv_plain [Examples.inv_plain]
      /\ (yr (mkDate 2024 2 10 0), mon (mkDate 2024 2 10 0)) = prev_month 2024 2).
Proof.
  assert (Hp : parseInvoiceDate Examples.no_parse
                 (effective_date_string Examples.inv_plain) = Some (mkDate 2024 2 10 0))
    by (vm_compute; reflexivity).
  assert (Hvd : valid_date (mkDate 2024 2 10 0)) by (unfold valid_date; simpl; lia).
  exact (stats_month_members Examples.no_parse [Examples.inv_plain] (mkDate 2024 2 15 0)
           Examples.inv_plain (mkDate 2024 2 10 0) Hp Hvd).
Defined.

End StatsViewFacts.

(** ** Invoice Store: the reachable-store paths *)
Module StoreMore.
Import Dates Inv Breakdown Store StoreFacts.

(** The in-memory list [fetchInvoices] builds from a store [d]: the rows
    newest first, each with its line items. *)
Definition fetched_invoices (d : DB) : list Invoice :=
  map (fun row => to_invoice row (filter (fun p => String.eqb (pr_invoice_id p) (r_id row))
                                          (products_tbl d)))
      (fold_right insert_by_created [] (invoices_tbl d)).

(** The fields of a stored line item that [saveInvoice] and
    [updateInvoice] write. *)
Definition strip (p : ProductRow) : ProductInsert :=
  mkInsert (pr_invoice_id p) (pr_product_name p) (pr_amount p) (pr_percentage p)
    (pr_commission p).

Lemma call_fails_ok (w : World) : faults w = [] -> call_fails w = (false, w).
Proof. intro H. unfold call_fails. rewrite H. reflexivity. Qed.

Lemma mapM_pure {A B} (f : A -> M B) (g : A -> B) (l : list A) (w : World) :
  (forall a, f a w = (g a, w)) -> mapM f l w = (map g l, w).
Proof.
  intro Hf. induction l as [|a l IH]; [reflexivity|].
  cbn [mapM map]. unfold bind. rewrite Hf. cbv beta iota.
  fold (@bind (list B) (list B)). rewrite IH. reflexivity.
Qed.

Lemma fetch_rows_ok (rows : list InvoiceRow) (w : World) :
  faults w = [] ->
  mapM (fun row => ps <- q_select_products_of (r_id row) ;;
                   ret (to_invoice row (match ps with Some l => l | None => [] end))) rows w
  = (map (fun row => to_invoice row (filter (fun p => String.eqb (pr_invoice_id p) (r_id row))
                                             (products_tbl (db w)))) rows, w).
Proof.
  intro Hok. apply mapM_pure. intro row.
  unfold q_select_products_of, bind, call_fails, get_db, ret. cbv beta. rewrite Hok.
  reflexivity.
Qed.

Lemma fetch_ok (w : World) :
  faults w = [] ->
  fetchInvoices w = (tt, mkWorld (db w) (faults w) (toasts w) (fetched_invoices (db w))).
Proof.
  intro Hok.
  assert (Hs : q_select_invoices w = (Some (fold_right insert_by_created [] (invoices_tbl (db w))), w)).
  { unfold q_select_invoices, bind, call_fails, get_db, ret. rewrite Hok. reflexivity. }
  unfold fetchInvoices. rewrite (bind_step _ _ _ _ _ Hs). cbv beta iota.
  rewrite (bind_step _ _ _ _ _ (fetch_rows_ok _ w Hok)). reflexivity.
Qed.

Lemma leb_false_swap (a b : string) : String.leb a b = false -> String.leb b a = true.
Proof.
  unfold String.leb. rewrite (String.compare_antisym b a).
  destruct (String.compare a b); simpl; congruence.
Qed.

Lemma insert_by_created_perm (x : InvoiceRow) (l : list InvoiceRow) :
  Permutation (insert_by_created x l) (x :: l).
Proof.
  induction l as [|y l IH]; simpl; [reflexivity|].
  destruct (String.leb (r_created_at y) (r_created_at x)); [reflexivity|].
  transitivity (y :: x :: l); [constructor; exact IH|apply perm_swap].
Qed.

Lemma insert_by_created_sorted (x : InvoiceRow) (l : list InvoiceRow) :
  Sorted (fun a b => String.leb (r_created_at b) (r_created_at a) = true) l ->
  Sorted (fun a b => String.leb (r_created_at b) (r_created_at a) = true)
    (insert_by_created x l).
Proof.
  induction l as [|y l IH]; intro H; simpl; [constructor; constructor|].
  destruct (String.leb (r_created_at y) (r_created_at x)) eqn:E.
  - constructor; [exact H|]. constructor. exact E.
  - inversion H as [|? ? Hs Hh]; subst. constructor; [apply IH; exact Hs|].
    destruct l as [|z l']; simpl; [constructor; apply leb_false_swap; exact E|].
    destruct (String.leb (r_created_at z) (r_created_at x)); constructor;
      [apply leb_false_swap; exact E|inversion Hh; assumption].
Qed.

Lemma sort_created (l : list InvoiceRow) :
  Permutation (fold_right insert_by_created [] l) l
  /\ Sorted (fun a b => String.leb (r_created_at b) (r_created_at a) = true)
       (fold_right insert_by_created [] l).
Proof.
  induction l as [|x l [IH1 IH2]]; simpl; [split; constructor|]. split.
  - transitivity (x :: fold_right insert_by_created [] l);
      [apply insert_by_created_perm|constructor; exact IH1].
  - apply insert_by_created_sorted. exact IH2.
Qed.

(** X22: with the store reachable, [fetchInvoices] changes only the
    in-memory list, which becomes every stored invoice row, each with the
    line items stored for its id, ordered by [created_at] from newest to
    oldest. *)
Theorem fetch_invoices_ok (w : World) (Hok : faults w = []) :
  fetchInvoices w = (tt, mkWorld (db w) (faults w) (toasts w) (fetched_invoices (db w)))
  /\ Permutation (fold_right insert_by_created [] (invoices_tbl (db w))) (invoices_tbl (db w))
  /\ Sorted (fun a b => String.leb (r_created_at b) (r_created_at a) = true)
       (fold_right insert_by_created [] (invoices_tbl (db w))).
Proof. split; [exact (fetch_ok w Hok)|exact (sort_created _)]. Qed.

(** X23: with the store reachable, [deleteInvoice] returns [true], removes
    the row with that id from the invoice table together with its line
    items, drops the invoice from the in-memory list and shows the success
    toast. *)
Theorem delete_ok (w : World) (id : string) (Hok : faults w = []) :
  deleteInvoice id w =
  (true, mkWorld (with_tables (db w)
                    (filter (fun r => negb (String.eqb (r_id r) id)) (invoices_tbl (db w)))
                    (filter (fun p => negb (String.eqb (pr_invoice_id p) id)) (products_tbl (db w))))
                 (faults w) (toasts w ++ [ToastSuccess "Factura eliminada"])
                 (filter (fun i => negb (String.eqb (inv_id i) id)) (mem w))).
Proof.
  unfold deleteInvoice, q_delete_invoice. unfold bind.
  rewrite (call_fails_ok w Hok). cbv [get_db put_db ret get_mem set_mem toast]. simpl.
  rewrite Hok. reflexivity.
Qed.


Lemma insert_rows_ok (ps : list ProductInsert) (w : World) :
  exists rows,
    insert_rows ps w =
      (rows, mkWorld (mkDB (invoices_tbl (db w)) (products_tbl (db w)) (categories_tbl (db w))
                           (next_id (db w) + List.length ps) (db_now (db w)))
                     (faults w) (toasts w) (mem w))
    /\ map strip rows = ps.
Proof.
  revert w; induction ps as [|p ps IH]; intro w.
  - exists []. split; [|reflexivity]. cbn. rewrite Nat.add_0_r. destruct w as [[] ? ? ?]. reflexivity.
  - cbn [insert_rows].
    set (w1 := mkWorld (mkDB (invoices_tbl (db w)) (products_tbl (db w)) (categories_tbl (db w))
                             (S (next_id (db w))) (db_now (db w))) (faults w) (toasts w) (mem w)).
    assert (Ef : fresh_id w = ("id-" ++ z_to_string (Z.of_nat (next_id (db w))), w1))
      by reflexivity.
    destruct (IH w1) as [rows [E Hs]].
    eexists. split.
    + rewrite (bind_step _ _ _ _ _ Ef), (bind_step _ _ _ _ _ E). unfold ret.
      cbn [List.length]. rewrite <- plus_n_Sm. reflexivity.
    + cbn [map]. rewrite Hs. destruct p; reflexivity.
Qed.

Lemma insert_products_ok (ps : list ProductInsert) (w : World) (Hok : faults w = []) :
  exists rows d',
    q_insert_products ps w = (false, mkWorld d' (faults w) (toasts w) (mem w))
    /\ invoices_tbl d' = invoices_tbl (db w)
    /\ products_tbl d' = (products_tbl (db w) ++ rows)%list
    /\ map strip rows = ps.
Proof.
  destruct (insert_rows_ok ps w) as [rows [E Hs]].
  do 2 eexists. split; [|split; [|split; [|exact Hs]]].
  - unfold q_insert_products. rewrite (bind_step _ _ _ _ _ (call_fails_ok w Hok)).
    cbv beta iota. rewrite (bind_step _ _ _ _ _ E). reflexivity.
  - reflexivity.
  - reflexivity.
Qed.

Lemma select_ncf_none (w : World) (ncf : string) (Hok : faults w = [])
  (Hfree : forall x, In x (invoices_tbl (db w)) -> r_ncf x <> ncf) :
  q_select_ncf ncf None w = (None, w).
Proof.
  unfold q_select_ncf, bind, call_fails, get_db, ret. rewrite Hok. cbn -[filter].
  rewrite filter_other_ncf by exact Hfree. reflexivity.
Qed.

Lemma insert_invoice_ok (w : World) (fs : InvoiceFields) (seller : option string)
  (Hok : faults w = [])
  (Hfree : forall x, In x (invoices_tbl (db w)) -> r_ncf x <> f_ncf fs) :
  let d := db w in
  let row := mkRow ("id-" ++ z_to_string (Z.of_nat (next_id d))) (f_ncf fs)
               (f_invoice_date fs) (f_total_amount fs) (f_rest_amount fs)
               (Some (f_rest_percentage fs)) (f_rest_commission fs)
               (f_total_commission fs) seller (db_now d) in
  q_insert_invoice fs seller w =
    (Some row, mkWorld (mkDB (row :: invoices_tbl d) (products_tbl d) (categories_tbl d)
                             (S (next_id d)) (db_now d)) (faults w) (toasts w) (mem w)).
Proof.
  assert (Hx : existsb (fun r => String.eqb (r_ncf r) (f_ncf fs)) (invoices_tbl (db w)) = false).
  { destruct (existsb _ _) eqn:E; [|reflexivity].
    apply existsb_exists in E. destruct E as [x [Hx E]].
    apply String.eqb_eq in E. exfalso. exact (Hfree x Hx E). }
  unfold q_insert_invoice. rewrite (bind_step _ _ _ _ _ (call_fails_ok w Hok)).
  cbv beta iota. unfold bind at 1, get_db at 1. cbv beta iota. rewrite Hx. reflexivity.
Qed.

Lemma toast_step {B} (t : Toast) (k : unit -> M B) (w : World) :
  bind (toast t) k w = k tt (mkWorld (db w) (faults w) (toasts w ++ [t]) (mem w)).
Proof. reflexivity. Qed.

(** X24: with the store reachable and no stored invoice holding the NCF,
    [saveInvoice] returns the new row, which holds exactly the given
    header columns, the seller id with an empty one stored as [null]
    ([sellerId || null]) and the store's timestamp, and is added to the invoice
    table; the line-item table gains one row for each product with a
    positive amount, in order, tied to the new id, and nothing else; the
    success toast is shown and the in-memory list is reloaded from the
    store. *)
Theorem save_ok (w : World) (ncf invoiceDate : string)
  (totalAmount restAmount restPercentage restCommission totalCommission : Q)
  (products : list ProductInput) (sellerId : option string)
  (Hok : faults w = [])
  (Hfree : forall x, In x (invoices_tbl (db w)) -> r_ncf x <> ncf) :
  exists r w',
    saveInvoice ncf invoiceDate totalAmount restAmount restPercentage restCommission
      totalCommission products sellerId w = (Some r, w')
    /\ r = mkRow (r_id r) ncf invoiceDate totalAmount restAmount (Some restPercentage)
             restCommission totalCommission (seller_or_null sellerId) (db_now (db w))
    /\ invoices_tbl (db w') = r :: invoices_tbl (db w)
    /\ (exists rows, products_tbl (db w') = (products_tbl (db w) ++ rows)%list
                     /\ map strip rows = product_inserts (r_id r) products)
    /\ toasts w' = (toasts w ++ [ToastSuccess "Factura guardada correctamente"])%list
    /\ mem w' = fetched_invoices (db w').
Proof.
  unfold saveInvoice.
  rewrite (bind_step _ _ _ _ _ (select_ncf_none w ncf Hok Hfree)). cbv beta iota.
  pose proof (insert_invoice_ok w (mkFields ncf invoiceDate totalAmount restAmount
                restPercentage restCommission totalCommission) (seller_or_null sellerId)
                Hok Hfree) as Ei.
  cbv zeta in Ei. rewrite (bind_step _ _ _ _ _ Ei). cbv beta iota zeta.
  set (row := mkRow _ _ _ _ _ _ _ _ _ _).
  set (w2 := mkWorld _ _ _ _).
  assert (Hok2 : faults w2 = []) by exact Hok.
  destruct (product_inserts (r_id row) products) as [|pi pis] eqn:Epi.
  - rewrite (bind_step _ _ _ _ _ (eq_refl : ret tt w2 = (tt, w2))).
    rewrite toast_step. erewrite (bind_step fetchInvoices); [|apply fetch_ok; exact Hok]. unfold ret.
    do 2 eexists. split; [reflexivity|]. split; [reflexivity|]. split; [reflexivity|].
    split; [|split; reflexivity].
    exists []. rewrite app_nil_r. split; [reflexivity|]. rewrite Epi. reflexivity.
  - destruct (insert_products_ok (pi :: pis) w2 Hok2) as (rows & d' & E & Hi & Hp & Hs).
    assert (E2 : bind (q_insert_products (pi :: pis)) (fun _ => ret tt) w2
                 = (tt, mkWorld d' (faults w2) (toasts w2) (mem w2)))
      by (rewrite (bind_step _ _ _ _ _ E); reflexivity).
    rewrite (bind_step _ _ _ _ _ E2), toast_step.
    erewrite (bind_step fetchInvoices); [|apply fetch_ok; exact Hok]. unfold ret.
    do 2 eexists. split; [reflexivity|]. split; [reflexivity|].
    cbn [db toasts mem]. split; [exact Hi|]. split; [|split; reflexivity].
    exists rows. rewrite Epi. split; [exact Hp|exact Hs].
Qed.


Lemma update_invoice_found (w : World) (id : string) (fs : InvoiceFields) (r0 : InvoiceRow)
  (Hok : faults w = [])
  (Hfree : forall x, In x (invoices_tbl (db w)) -> r_ncf x = f_ncf fs -> r_id x = id)
  (Hfind : find (fun r => String.eqb (r_id r) id) (invoices_tbl (db w)) = Some r0) :
  let r' := mkRow (r_id r0) (f_ncf fs) (f_invoice_date fs) (f_total_amount fs)
              (f_rest_amount fs) (Some (f_rest_percentage fs))
              (f_rest_commission fs) (f_total_commission fs)
              (r_seller_id r0) (r_created_at r0) in
  q_update_invoice id fs w =
    (Some r', mkWorld (with_tables (db w)
                 (map (fun x => if String.eqb (r_id x) id then r' else x) (invoices_tbl (db w)))
                 (products_tbl (db w))) (faults w) (toasts w) (mem w)).
Proof.
  assert (Hx : existsb (fun r => String.eqb (r_ncf r) (f_ncf fs) && negb (String.eqb (r_id r) id))
                 (invoices_tbl (db w)) = false).
  { destruct (existsb _ _) eqn:E; [|reflexivity].
    apply existsb_exists in E. destruct E as [x [Hx E]].
    apply andb_true_iff in E. destruct E as [E1 E2].
    apply String.eqb_eq in E1. rewrite (Hfree x Hx E1), String.eqb_refl in E2.
    discriminate E2. }
  unfold q_update_invoice. rewrite (bind_step _ _ _ _ _ (call_fails_ok w Hok)).
  cbv beta iota. unfold bind at 1, get_db at 1. cbv beta iota. rewrite Hx, Hfind.
  reflexivity.
Qed.

(** X25: with the store reachable, an invoice with the given id stored and
    no other stored invoice holding the NCF, [updateInvoice] returns the
    stored row with the new header columns, keeping its id, seller and
    creation time; that row replaces the old one in the invoice table;
    the invoice's old line items are deleted and one row for each product
    with a positive amount is appended, while the other invoices' line
    items are kept; the success toast is shown and the in-memory list is
    reloaded from the store. *)
Theorem update_ok (w : World) (id ncf invoiceDate : string)
  (totalAmount restAmount restPercentage restCommission totalCommission : Q)
  (products : list ProductInput) (r0 : InvoiceRow)
  (Hok : faults w = [])
  (Hfree : forall x, In x (invoices_tbl (db w)) -> r_ncf x = ncf -> r_id x = id)
  (Hfind : find (fun r => String.eqb (r_id r) id) (invoices_tbl (db w)) = Some r0) :
  let r' := mkRow (r_id r0) ncf invoiceDate totalAmount restAmount (Some restPercentage)
              restCommission totalCommission (r_seller_id r0) (r_created_at r0) in
  exists w',
    updateInvoice id ncf invoiceDate totalAmount restAmount restPercentage restCommission
      totalCommission products w = (Some r', w')
    /\ invoices_tbl (db w') =
         map (fun x => if String.eqb (r_id x) id then r' else x) (invoices_tbl (db w))
    /\ (exists rows,
          products_tbl (db w') =
            (filter (fun p => negb (String.eqb (pr_invoice_id p) id)) (products_tbl (db w))
             ++ rows)%list
          /\ map strip rows = product_inserts id products)
    /\ toasts w' = (toasts w ++ [ToastSuccess "Factura actualizada correctamente"])%list
    /\ mem w' = fetched_invoices (db w').
Proof.
  intro r'.
  pose proof (select_ncf_free w ncf id Hok Hfree) as Hsel.
  unfold updateInvoice.
  rewrite (bind_step _ _ _ _ _ Hsel). cbv beta iota.
  pose proof (update_invoice_found w id (mkFields ncf invoiceDate totalAmount restAmount
                restPercentage restCommission totalCommission) r0 Hok Hfree Hfind) as Eu.
  cbv zeta in Eu. rewrite (bind_step _ _ _ _ _ Eu). cbv beta iota zeta.
  set (w2 := mkWorld _ _ _ _).
  assert (Ed : q_delete_products_of id w2 =
                 (tt, mkWorld (with_tables (db w2) (invoices_tbl (db w2))
                        (filter (fun p => negb (String.eqb (pr_invoice_id p) id))
                           (products_tbl (db w2)))) (faults w) (toasts w) (mem w))).
  { unfold q_delete_products_of. rewrite (bind_step _ _ _ _ _ (call_fails_ok w2 Hok)).
    reflexivity. }
  rewrite (bind_step _ _ _ _ _ Ed).
  set (w3 := mkWorld _ _ _ _).
  assert (Hok3 : faults w3 = []) by exact Hok.
  destruct (product_inserts id products) as [|pi pis] eqn:Epi.
  - rewrite (bind_step _ _ _ _ _ (eq_refl : ret tt w3 = (tt, w3))).
    rewrite toast_step.
    erewrite (bind_step fetchInvoices); [|apply fetch_ok; exact Hok]. unfold ret.
    eexists. split; [reflexivity|]. split; [reflexivity|].
    split; [|split; reflexivity].
    exists []. rewrite app_nil_r. split; reflexivity.
  - destruct (insert_products_ok (pi :: pis) w3 Hok3) as (rows & d' & E & Hi & Hp & Hs).
    assert (E2 : bind (q_insert_products (pi :: pis)) (fun _ => ret tt) w3
                 = (tt, mkWorld d' (faults w3) (toasts w3) (mem w3)))
      by (rewrite (bind_step _ _ _ _ _ E); reflexivity).
    rewrite (bind_step _ _ _ _ _ E2), toast_step.
    erewrite (bind_step fetchInvoices); [|apply fetch_ok; exact Hok]. unfold ret.
    eexists. split; [reflexivity|].
    cbn [db toasts mem]. split; [exact Hi|]. split; [|split; reflexivity].
    exists rows. split; [exact Hp|exact Hs].
Qed.


Definition ws : World := Examples.w_over.
Definition row_over : InvoiceRow :=
  hd (mkRow "" "" "" 0 0 None 0 0 None "") (invoices_tbl (db ws)).

Lemma fetch_invoices_ok_witness :
  faults ws = [] /\
  (fetchInvoices ws = (tt, mkWorld (db ws) (faults ws) (toasts ws) (fetched_invoices (db ws)))
   /\ Permutation (fold_right insert_by_created [] (invoices_tbl (db ws))) (invoices_tbl (db ws))
   /\ Sorted (fun a b => String.leb (r_created_at b) (r_created_at a) = true)
        (fold_right insert_by_created [] (invoices_tbl (db ws)))).
Proof.
  assert (H : faults ws = []) by reflexivity.
  split; [exact H | exact (fetch_invoices_ok ws H)].
Defined.

Lemma delete_ok_witness :
  faults ws = [] /\
  deleteInvoice (r_id row_over) ws =
  (true, mkWorld (with_tables (db ws)
                    (filter (fun r => negb (String.eqb (r_id r) (r_id row_over))) (invoices_tbl (db ws)))
                    (filter (fun p => negb (String.eqb (pr_invoice_id p) (r_id row_over)))
                       (products_tbl (db ws))))
                 (faults ws) (toasts ws ++ [ToastSuccess "Factura eliminada"])
                 (filter (fun i => negb (String.eqb (inv_id i) (r_id row_over))) (mem ws))).
Proof.
  assert (H : faults ws = []) by reflexivity.
  split; [exact H | exact (delete_ok ws (r_id row_over) H)].
Defined.

Lemma save_ok_witness :
  faults ws = [] /\
  (forall x, In x (invoices_tbl (db ws)) -> r_ncf x <> "B010000002") /\
  exists r w',
    saveInvoice "B010000002" "2024-03-11" 200 50 25 (25/2) (25/2 + 30)
      [mkInput "A" 150 20 30; mkInput "B" 0 10 0] (Some "") ws = (Some r, w')
    /\ r = mkRow (r_id r) "B010000002" "2024-03-11" 200 50 (Some 25)
             (25/2) (25/2 + 30) (seller_or_null (Some "")) (db_now (db ws))
    /\ invoices_tbl (db w') = r :: invoices_tbl (db ws)
    /\ (exists rows, products_tbl (db w') = (products_tbl (db ws) ++ rows)%list
                     /\ map strip rows =
                          product_inserts (r_id r) [mkInput "A" 150 20 30; mkInput "B" 0 10 0])
    /\ toasts w' = (toasts ws ++ [ToastSuccess "Factura guardada correctamente"])%list
    /\ mem w' = fetched_invoices (db w').
Proof.
  assert (H : faults ws = []) by reflexivity.
  assert (Hf : forall x, In x (invoices_tbl (db ws)) -> r_ncf x <> "B010000002").
  { intros x Hx. vm_compute in Hx. destruct Hx as [Hx|[]]. subst x.
    intro E. vm_compute in E. discriminate E. }
  split; [exact H|]. split; [exact Hf|].
  exact (save_ok ws "B010000002" "2024-03-11" 200 50 25 (25/2) (25/2 + 30)
           [mkInput "A" 150 20 30; mkInput "B" 0 10 0] (Some "") H Hf).
Defined.

Lemma update_ok_witness :
  let id := r_id row_over in
  let r' := mkRow (r_id row_over) "B010000009" "2024-03-12" 80 20 (Some 25) 5 20
              (r_seller_id row_over) (r_created_at row_over) in
  faults ws = [] /\
  (forall x, In x (invoices_tbl (db ws)) -> r_ncf x = "B010000009" -> r_id x = id) /\
  find (fun r => String.eqb (r_id r) id) (invoices_tbl (db ws)) = Some row_over /\
  exists w',
    updateInvoice id "B010000009" "2024-03-12" 80 20 25 5 20 [mkInput "A" 60 25 15] ws
      = (Some r', w')
    /\ invoices_tbl (db w') =
         map (fun x => if String.eqb (r_id x) id then r' else x) (invoices_tbl (db ws))
    /\ (exists rows,
          products_tbl (db w') =
            (filter (fun p => negb (String.eqb (pr_invoice_id p) id)) (products_tbl (db ws))
             ++ rows)%list
          /\ map strip rows = product_inserts id [mkInput "A" 60 25 15])
    /\ toasts w' = (toasts ws ++ [ToastSuccess "Factura actualizada correctamente"])%list
    /\ mem w' = fetched_invoices (db w').
Proof.
  intros id r'.
  assert (H : faults ws = []) by reflexivity.
  assert (Hf : forall x, In x (invoices_tbl (db ws)) -> r_ncf x = "B010000009" -> r_id x = id).
  { intros x Hx E. vm_compute in Hx. destruct Hx as [Hx|[]]. subst x.
    vm_compute in E. discriminate E. }
  assert (Hd : find (fun r => String.eqb (r_id r) id) (invoices_tbl (db ws)) = Some row_over)
    by reflexivity.
  split; [exact H|]. split; [exact Hf|]. split; [exact Hd|].
  exact (update_ok ws id "B010000009" "2024-03-12" 80 20 25 5 20 [mkInput "A" 60 25 15]
           row_over H Hf Hd).
Defined.

End StoreMore.
